(** * ArtPop imaging pipeline: a shallow embedding of [artpop/image/imager.py]

    The development follows the Python module top to bottom: the exception
    and state discipline, numpy arrays, astropy quantities, the external
    collaborators ([fast_histogram], [astropy.convolution], [numpy.random],
    FITS input, the caller-owned [Source]), then the classes [Imager],
    [IdealImager] and [ArtImager], and finally the properties of the
    pipeline.

    Numbers.  numpy [float64] values are idealised as real numbers: [10**e]
    is [Rpower 10 e], [np.log10] is [ln x / ln 10], [np.sqrt] is [sqrt].
    Array arithmetic is total, as in numpy (which warns but does not raise on
    a division by zero); only the division of two Python scalars raises
    [ZeroDivisionError].  Where numpy would produce [inf] or [nan], the
    model has the value that the total functions of the reals give; no
    statement below depends on it.

    State.  Two objects are mutated by the pipeline: the caller's source
    (the amplitude of its smooth model is set) and the random generator of
    the imager.  They form the store threaded through the computations; an
    exception leaves the store as it was when it was raised. *)

From Stdlib Require Import Reals Lra Lia ZArith List.
From stdpp Require Import gmap strings.

Local Open Scope R_scope.

(** ** Exceptions and the state-and-exception monad *)

Inductive PyError : Type :=
| NotAValidSource (tyname : string)   (* Exception('... is not a valid Source object.') *)
| NoFilterProperties (bandpass : string) (* Exception('... filter properties were not provided.') *)
| KeyError (key : string)
| AttributeError (attr : string)
| TypeError (msg : string)
| ValueError (msg : string)
| IndexError (msg : string)
| UnitConversionError
| AssertionError
| ZeroDivisionError
| ExternalError (msg : string).

Inductive result (A : Type) : Type :=
| Ok (a : A)
| Raise (e : PyError).
Arguments Ok {A} a.
Arguments Raise {A} e.

Definition rbind {A B : Type} (r : result A) (k : A -> result B) : result B :=
  match r with
  | Ok a => k a
  | Raise e => Raise e
  end.

(** A computation over a mutable store [S]: it returns a value or raises,
    and in both cases leaves a store behind (an exception does not undo the
    mutations made before it). *)
Definition M (S A : Type) : Type := S -> result A * S.

Definition ret {S A : Type} (a : A) : M S A := fun s => (Ok a, s).
Definition raise {S A : Type} (e : PyError) : M S A := fun s => (Raise e, s).
Definition bind {S A B : Type} (c : M S A) (k : A -> M S B) : M S B :=
  fun s => match c s with
           | (Ok a, s') => k a s'
           | (Raise e, s') => (Raise e, s')
           end.
Definition get {S : Type} : M S S := fun s => (Ok s, s).
Definition put {S : Type} (s' : S) : M S unit := fun _ => (Ok tt, s').
Definition lift {S A : Type} (r : result A) : M S A := fun s => (r, s).

Declare Scope py_scope.
Delimit Scope py_scope with py.
Notation "'let*' x ':=' c 'in' k" := (bind c (fun x => k))
  (at level 10, x pattern, c at level 100, k at level 200, only parsing) : py_scope.
Local Open Scope py_scope.

(** ** numpy arrays *)

(** A 2-D array: its shape and the value at row [i], column [j].  Values
    outside the shape are never read by the statements below. *)
Record ndarray : Type := {
  nrows : nat;
  ncols : nat;
  at_ : nat -> nat -> R
}.

Definition shape (a : ndarray) : nat * nat := (nrows a, ncols a).

(** [a.T] *)
Definition transpose (a : ndarray) : ndarray :=
  {| nrows := ncols a; ncols := nrows a; at_ := fun i j => at_ a j i |}.

(** Elementwise [f(a)] and [f(a, b)] on arrays of one shape. *)
Definition amap (f : R -> R) (a : ndarray) : ndarray :=
  {| nrows := nrows a; ncols := ncols a; at_ := fun i j => f (at_ a i j) |}.

Definition azip (f : R -> R -> R) (a b : ndarray) : ndarray :=
  {| nrows := nrows a; ncols := ncols a;
     at_ := fun i j => f (at_ a i j) (at_ b i j) |}.

(** [a[a < 0] = 0] *)
Definition clip_negative (a : ndarray) : ndarray :=
  amap (fun v => if Rlt_dec v 0 then 0 else v) a.

(** Python slice [start:stop] on an axis of length [len]: a negative bound
    counts from the end, then both are clamped to [0, len].  Returns the first
    index and the number of selected elements. *)
Definition slice_norm (len : nat) (i : Z) : Z :=
  if (i <? 0)%Z then Z.max 0 (i + Z.of_nat len) else Z.min i (Z.of_nat len).

Definition slice (len : nat) (start stop : Z) : nat * nat :=
  let s := slice_norm len start in
  let e := slice_norm len stop in
  (Z.to_nat s, Z.to_nat (e - s)).

(** [a[r0:r1, c0:c1]] *)
Definition slice2 (a : ndarray) (r0 r1 c0 c1 : Z) : ndarray :=
  let '(rs, rn) := slice (nrows a) r0 r1 in
  let '(cs, cn) := slice (ncols a) c0 c1 in
  {| nrows := rn; ncols := cn;
     at_ := fun i j => at_ a (rs + i)%nat (cs + j)%nat |}.

(** [a += b]: [b] is broadcast to the shape of [a]; numpy raises when an
    axis of [b] is neither the axis of [a] nor 1. *)
Definition broadcast_axis (na nb : nat) : bool :=
  Nat.eqb nb na || Nat.eqb nb 1.

Definition iadd (a b : ndarray) : result ndarray :=
  if broadcast_axis (nrows a) (nrows b) && broadcast_axis (ncols a) (ncols b)
  then Ok {| nrows := nrows a; ncols := ncols a;
             at_ := fun i j =>
               at_ a i j
               + at_ b (if Nat.eqb (nrows b) (nrows a) then i else 0%nat)
                       (if Nat.eqb (ncols b) (ncols a) then j else 0%nat) |}
  else Raise (ValueError "operands could not be broadcast together").

(** [a[mask]] on a 1-D array with a boolean mask of the same length. *)
Fixpoint select {A : Type} (a : list A) (mask : list bool) : list A :=
  match a, mask with
  | v :: a', b :: mask' => if b then v :: select a' mask' else select a' mask'
  | _, _ => []
  end.

Definition bool_index {A : Type} (a : list A) (mask : list bool) : result (list A) :=
  if Nat.eqb (length mask) (length a) then Ok (select a mask)
  else Raise (IndexError "boolean index did not match indexed array").

(** ** astropy quantities *)

Inductive Dimension : Type := Time | Length | AnglePerPixel.

Inductive Unit : Type :=
| u_s | u_min | u_hour
| u_cm | u_m | u_angstrom | u_nm
| u_arcsec_per_pix | u_arcmin_per_pix.

Definition dimension (u : Unit) : Dimension :=
  match u with
  | u_s | u_min | u_hour => Time
  | u_cm | u_m | u_angstrom | u_nm => Length
  | u_arcsec_per_pix | u_arcmin_per_pix => AnglePerPixel
  end.

(** Size of a unit in the reference unit of its dimension (second,
    centimetre, arcsec per pixel). *)
Definition scale (u : Unit) : R :=
  match u with
  | u_s => 1 | u_min => 60 | u_hour => 3600
  | u_cm => 1 | u_m => 100 | u_angstrom => / 100000000 | u_nm => / 10000000
  | u_arcsec_per_pix => 1 | u_arcmin_per_pix => 60
  end.

Global Instance Dimension_eq_dec : EqDecision Dimension.
Proof. solve_decision. Defined.

Record Quantity : Type := { qvalue : R; qunit : Unit }.

(** [q.to(target)] *)
Definition to (q : Quantity) (target : Unit) : result Quantity :=
  if decide (dimension (qunit q) = dimension target)
  then Ok {| qvalue := qvalue q * scale (qunit q) / scale target; qunit := target |}
  else Raise UnitConversionError.

(** A Python argument documented as "float or Quantity". *)
Inductive FloatOrQuantity : Type :=
| Float (v : R)
| Qty (q : Quantity).

(** [util.check_units(value, default_unit)] with a unit name as default. *)
Definition check_units (v : FloatOrQuantity) (default_unit : Unit) : Quantity :=
  match v with
  | Qty q => q
  | Float r => {| qvalue := r; qunit := default_unit |}
  end.

(** ** fast_histogram *)

(** [fast_histogram.histogram2d(x, y, bins=(nx, ny), range=[[xmin, xmax],
    [ymin, ymax]], weights=w)].  The library is not part of the repository;
    this is its behaviour: the range and the bin counts are validated, every
    axis is cut into [n] bins of equal width, a sample is counted when
    [min <= t < max] on both axes (the upper edge is excluded) and lands in
    bin [floor((t - min) * n / (max - min))]; entry [[ix, iy]] of the result is
    the sum of the weights of the samples of bin [ix] of x and [iy] of y.
    The three arrays are 1-D arrays of one length (as the coordinates and
    magnitudes of a Source are); any other combination is refused here. *)
Definition bin_index (n : Z) (tmin tmax t : R) : Z :=
  Zfloor ((t - tmin) * (IZR n / (tmax - tmin))).

Definition in_bin (n : Z) (tmin tmax t : R) (i : nat) : bool :=
  if Rle_dec tmin t then
    if Rlt_dec t tmax then Z.eqb (bin_index n tmin tmax t) (Z.of_nat i) else false
  else false.

Fixpoint hist_sum (nx ny : Z) (xr yr : R * R) (x y w : list R) (ix iy : nat) : R :=
  match x, y, w with
  | tx :: x', ty :: y', tw :: w' =>
      (if in_bin nx (fst xr) (snd xr) tx ix && in_bin ny (fst yr) (snd yr) ty iy
       then tw else 0)
      + hist_sum nx ny xr yr x' y' w' ix iy
  | _, _, _ => 0
  end.

Definition histogram2d (x y : list R) (bins : Z * Z) (w : list R)
    (range : (R * R) * (R * R)) : result ndarray :=
  let '(nx, ny) := bins in
  let '(xr, yr) := range in
  if Rle_dec (snd xr) (fst xr) then Raise (ValueError "xmax should be greater than xmin")
  else if Rle_dec (snd yr) (fst yr) then Raise (ValueError "ymax should be greater than ymin")
  else if (nx <=? 0)%Z then Raise (ValueError "nx should be strictly positive")
  else if (ny <=? 0)%Z then Raise (ValueError "ny should be strictly positive")
  else if negb (Nat.eqb (length y) (length x) && Nat.eqb (length w) (length x))
  then Raise (ValueError "x, y and weights should have the same shape")
  else Ok {| nrows := Z.to_nat nx; ncols := Z.to_nat ny;
             at_ := hist_sum nx ny xr yr x y w |}.

(** ** Python built-ins *)

(** [d[k]] on a dict. *)
Definition getitem {A : Type} (d : gmap string A) (k : string) : result A :=
  match d !! k with
  | Some v => Ok v
  | None => Raise (KeyError k)
  end.

(** [d[k]] where [d] may be [None]. *)
Definition getitem_opt {A : Type} (d : option (gmap string A)) (k : string) : result A :=
  match d with
  | Some d => getitem d k
  | None => Raise (TypeError "'NoneType' object is not subscriptable")
  end.

(** [float(a)] on a 1-D array as numpy versions that still convert an
    array of size 1 do it (newer ones refuse every array of dimension 1). *)
Definition float_of_size_1_array (a : list R) : result R :=
  match a with
  | [v] => Ok v
  | _ => Raise (TypeError "only length-1 arrays can be converted to Python scalars")
  end.

(** [a / b] on two Python floats. *)
Definition py_div (a b : R) : result R :=
  if Req_dec_T b 0 then Raise ZeroDivisionError else Ok (a / b).

(** [np.log10] *)
Definition log10 (v : R) : R := ln v / ln 10.

(** ** The caller-owned Source *)

(** [source.smooth_model]: an analytic profile object.  Its attributes are
    set by name ([setattr]); calling it evaluates the profile, elementwise,
    with the attributes it has at that moment. *)
Record SmoothModel : Type := {
  sm_params : gmap string R;
  sm_evaluate : gmap string R -> R -> R -> R
}.

Definition setattr (m : SmoothModel) (name : string) (v : R) : SmoothModel :=
  {| sm_params := <[name := v]> (sm_params m); sm_evaluate := sm_evaluate m |}.

(** [yy, xx = np.mgrid[:n0, :n1]; model(xx, yy)] *)
Definition evaluate_on_grid (m : SmoothModel) (n0 n1 : nat) : ndarray :=
  {| nrows := n0; ncols := n1;
     at_ := fun i j => sm_evaluate m (sm_params m) (INR j) (INR i) |}.

Module Source.

(** The attributes of a [Source] that the imagers read.  An attribute that
    [hasattr] may find missing is an [option]: [smooth_model] is [None]
    when the object has no such attribute and [Some None] when it is the
    Python [None].  [sp] stands for [source.sp.mag_integrated_component] and
    [mag_to_image_amplitude] for the method of that name; both belong to
    the external Source and are only called. *)
Record t : Type := {
  x : list R;
  y : list R;
  mags : gmap string (list R);
  xy_dim : Z * Z;
  pixel_scale : Quantity;
  smooth_model : option (option SmoothModel);
  sp : option (string -> result R);
  mag_to_image_amplitude : R -> R -> result (R * R * string)
}.

Definition set_smooth_model (s : t) (m : SmoothModel) : t :=
  {| x := x s; y := y s; mags := mags s; xy_dim := xy_dim s;
     pixel_scale := pixel_scale s; smooth_model := Some (Some m);
     sp := sp s; mag_to_image_amplitude := mag_to_image_amplitude s |}.

End Source.

(** What the caller passes as [source]: a [Source] (or an instance of a
    subclass), or an object of another class. *)
Inductive PyObject : Type :=
| SourceObject (s : Source.t)
| OtherObject (tyname : string).

(** ** Libraries and platform *)

(** The collaborators whose code is outside the repository: the generator
    [numpy.random.RandomState] with its draws (each consumes the generator
    state and may raise), [astropy.convolution.convolve_fft],
    [fits.open(file)[1].data], the conversion [float(a)] of a 1-D numpy
    array (which arrays convert depends on the version of numpy), the
    physical constants and [sys.platform]. *)
Class Externals : Type := {
  RandomState : Type;
  rng_poisson : ndarray -> M RandomState ndarray;
  rng_normal : ndarray -> ndarray -> M RandomState ndarray;
  rng_normal_size : R -> nat * nat -> M RandomState ndarray;
  convolve_fft : ndarray -> ndarray -> string -> result ndarray;
  fits_data : string -> result ndarray;
  float_of_array : list R -> result R;
  planck_h : R;
  speed_of_light : R;
  sys_platform : string
}.

(** ** Observation records *)

Module IdealObservation.
Record t : Type := {
  image : ndarray;
  zpt : R;
  bandpass : string
}.
End IdealObservation.

Module ArtObservation.
Record t : Type := {
  raw_counts : ndarray;
  src_counts : ndarray;
  sky_counts : R;
  image : ndarray;
  var_image : ndarray;
  calibration : R;
  zpt : R;
  bandpass : string;
  exptime : Quantity;
  mag_error : option (list R)
}.
End ArtObservation.

Definition mAB_0 : R := 48.6.

(** [fnu_from_AB_mag]: the flux density in erg / s / Hz / cm2. *)
Definition fnu_from_AB_mag (mag : R) : R := Rpower 10 ((mag + mAB_0) / (-2.5)).

(** ** class Imager *)

Module Imager.

(** [Imager._check_source]: raises unless [Source] is among the classes of
    the object; on success the model hands back the object seen as a
    Source. *)
Definition _check_source (source : PyObject) : result Source.t :=
  match source with
  | SourceObject s => Ok s
  | OtherObject ty => Raise (NotAValidSource ty)
  end.

(** [Imager._check_bandpass]: [self.filters] is the only attribute read. *)
Definition _check_bandpass (filters : list string) (bandpass : string) : result unit :=
  if decide (bandpass ∈ filters) then Ok tt
  else Raise (NoFilterProperties bandpass).

(** [Imager.inject_stars(x, y, signal, xy_dim, mask=None)] *)
Definition inject_stars (x y signal : list R) (xy_dim : Z * Z)
    (mask : option (list bool)) : result ndarray :=
  let bins := xy_dim in
  let hist_range := ((0, IZR (fst bins - 1)), (0, IZR (snd bins - 1))) in
  rbind (match mask with
         | Some m =>
             rbind (bool_index x m) (fun _x =>
             rbind (bool_index y m) (fun _y =>
             rbind (bool_index signal m) (fun _s => Ok (_x, _y, _s))))
         | None => Ok (x, y, signal)
         end) (fun '(_x, _y, _s) =>
  rbind (histogram2d _x _y bins _s hist_range) (fun h =>
  Ok (transpose h))).

(** [Imager.apply_seeing(image, psf=None, boundary='wrap')]; the keyword
    arguments that [observe] forwards can only carry [boundary]. *)
Definition apply_seeing `{Externals} (image : ndarray) (psf : option ndarray)
    (boundary : option string) : result ndarray :=
  match psf with
  | Some kernel => convolve_fft image kernel (default "wrap" boundary)
  | None => Ok image
  end.

End Imager.


(** ** class IdealImager *)

Module IdealImager.

(** The class defines no [__init__]: an instance has no attribute of its
    own.  [filters] is the attribute that the inherited [_check_bandpass]
    would read; it exists only if the caller assigns it. *)
Record t : Type := {
  filters : option (list string)
}.

Section Methods.
Context `{Externals}.

(** [IdealImager.inject_smooth_model(image, source, bandpass, zpt)].  The
    store of a call is the caller's source object; [source] is that object
    as [observe] read it. *)
Definition inject_smooth_model (image : ndarray) (source : Source.t)
    (bandpass : string) (zpt : R) : M PyObject ndarray :=
  match Source.smooth_model source with
  | Some (Some model) =>
      let* sp := lift (match Source.sp source with
                       | Some f => Ok f
                       | None => Raise (AttributeError "sp")
                       end) in
      let* mag := lift (sp bandpass) in
      let* (amp, amp_image, name) :=
        lift (Source.mag_to_image_amplitude source mag zpt) in
      let model' := setattr model name amp_image in
      let* _ := put (SourceObject (Source.set_smooth_model source model')) in
      ret (azip Rplus image
             (evaluate_on_grid model' (nrows image) (ncols image)))
  | Some None => ret image
  | None => ret image
  end.

(** [IdealImager.observe(source, bandpass, psf=None, zpt=27, mask=None,
    **kwargs)]; the argument [source] is the object of the store.  [self] is
    not read. *)
Definition observe (self : t) (bandpass : string) (psf : option ndarray)
    (zpt : R) (mask : option (list bool)) (kwargs : option string)
    : M PyObject IdealObservation.t :=
  let* obj := get in
  let* source := lift (Imager._check_source obj) in
  let* mags := lift (getitem (Source.mags source) bandpass) in
  let flux := map (fun m => Rpower 10 (0.4 * (zpt - m))) mags in
  let* image := lift (Imager.inject_stars (Source.x source) (Source.y source)
                        flux (Source.xy_dim source) mask) in
  let* image := inject_smooth_model image source bandpass zpt in
  let* image := lift (Imager.apply_seeing image psf kwargs) in
  ret {| IdealObservation.image := image;
         IdealObservation.bandpass := bandpass;
         IdealObservation.zpt := zpt |}.

End Methods.

End IdealImager.

(** ** class ArtImager *)

Module ArtImager.

(** The attributes of an instance once [__init__] has returned.  The
    generator [self.rng] is mutable and lives in the store. *)
Record t : Type := {
  efficiency : gmap string R;
  transparency : R;
  read_noise : R;
  gain : R;
  diameter : Quantity;
  dlam : option (gmap string Quantity);
  lam_eff : option (gmap string Quantity);
  filters : list string;
  zpt_inst : option (gmap string R)
}.

(** The branch [elif zpt_inst is not None] of [__init__] ([phot_system] is
    [None]): the filter set is the key list of [zpt_inst]; [gain=None]
    becomes 1.0; a float [diameter] is in metres. *)
Definition init_zpt_inst (diameter : FloatOrQuantity) (read_noise : R)
    (gain : option R) (efficiency : gmap string R) (transparency : R)
    (zpt_inst : gmap string R) : t :=
  {| efficiency := efficiency;
     transparency := transparency;
     read_noise := read_noise;
     gain := default 1 gain;
     diameter := check_units diameter u_m;
     dlam := None;
     lam_eff := None;
     filters := (map_to_list zpt_inst).*1;
     zpt_inst := Some zpt_inst |}.

(** The store of a call: the caller's source object and [self.rng]. *)
Record World `{Externals} : Type := {
  the_source : PyObject;
  the_rng : RandomState
}.

Section Methods.
Context `{Externals}.

Definition on_rng {A : Type} (c : M RandomState A) : M World A :=
  fun w => let '(r, g) := c (the_rng w) in
           (r, {| the_source := the_source w; the_rng := g |}).

Definition put_source (o : PyObject) : M World unit :=
  fun w => (Ok tt, {| the_source := o; the_rng := the_rng w |}).

Definition get_source : M World PyObject :=
  fun w => (Ok (the_source w), w).

(** [self.area.to('cm2').value]: [pi * (diameter / 2)**2] in cm2. *)
Definition area_cm2 (self : t) : result R :=
  let d := diameter self in
  if decide (dimension (qunit d) = Length)
  then Ok (PI * (qvalue d / 2) ^ 2 * scale (qunit d) ^ 2)
  else Raise UnitConversionError.

(** The value of a length in centimetres, as [to] needs it; [err] is what
    the conversion raises for another dimension. *)
Definition length_cm (q : Quantity) (err : PyError) : result R :=
  if decide (dimension (qunit q) = Length)
  then Ok (qvalue q * scale (qunit q))
  else Raise err.

(** [dlam / lam_eff] as the decomposed counts hold it: the units cancel
    when the two quantities have one dimension, whatever it is; when they
    do not, the counts keep a unit and the assertion of [mag_to_counts]
    fails. *)
Definition dimensionless_ratio (a b : Quantity) : result R :=
  if decide (dimension (qunit a) = dimension (qunit b))
  then Ok (qvalue a * scale (qunit a) / (qvalue b * scale (qunit b)))
  else Raise AssertionError.

(** [ArtImager.mag_to_counts(mags, bandpass, exptime)] *)
Definition mag_to_counts (self : t) (mags : list R) (bandpass : string)
    (exptime : FloatOrQuantity) : result (list R) :=
  let exptime := check_units exptime u_s in
  match zpt_inst self with
  | None =>
      let fnu := map fnu_from_AB_mag mags in
      rbind (getitem_opt (dlam self) bandpass) (fun dlam =>
      rbind (getitem_opt (lam_eff self) bandpass) (fun lam_eff =>
      rbind (area_cm2 self) (fun area =>
      rbind (to exptime u_s) (fun t =>
      (* counts.decompose(); assert counts.unit == dimensionless *)
      rbind (dimensionless_ratio dlam lam_eff) (fun dlam_over_lam =>
      let counts :=
        map (fun f => dlam_over_lam * f / planck_h * area * qvalue t) fnu in
      rbind (getitem (efficiency self) bandpass) (fun eff =>
      let counts := map (fun c => c * (eff * transparency self)) counts in
      Ok (map (fun c => c / gain self) counts)))))))
  | Some zpt_inst =>
      rbind (getitem zpt_inst bandpass) (fun zp =>
      let counts := map (fun m => Rpower 10 (0.4 * (zp - m))) mags in
      rbind (to exptime u_s) (fun t =>
      Ok (map (fun c => c * qvalue t) counts)))
  end.

(** [ArtImager.sb_to_counts_per_pixel(sb, bandpass, exptime, pixel_scale)].
    In the radiometric branch lengths are taken in centimetres and the
    speed of light in cm / s; the result does not depend on that choice. *)
Definition sb_to_counts_per_pixel (self : t) (sb : R) (bandpass : string)
    (exptime : FloatOrQuantity) (pixel_scale : Quantity) : result R :=
  let exptime := check_units exptime u_s in
  match zpt_inst self with
  | None =>
      let fnu_per_square_arcsec := fnu_from_AB_mag sb in
      rbind (getitem_opt (dlam self) bandpass) (fun dlam =>
      rbind (getitem_opt (lam_eff self) bandpass) (fun lam_eff =>
      rbind (to pixel_scale u_arcsec_per_pix) (fun pixel_scale =>
      rbind (length_cm lam_eff UnitConversionError) (fun le =>
      let E_lam := planck_h * speed_of_light / le in
      let flam_per_square_arcsec :=
        fnu_per_square_arcsec * speed_of_light / le ^ 2 in
      let flam_per_pixel := flam_per_square_arcsec * qvalue pixel_scale ^ 2 in
      rbind (length_cm dlam UnitConversionError) (fun dl =>
      let photon_flux_per_sq_pixel := flam_per_pixel * dl / E_lam in
      rbind (to exptime u_s) (fun t =>
      let counts_per_pixel := photon_flux_per_sq_pixel * qvalue t in
      rbind (area_cm2 self) (fun area =>
      let counts_per_pixel := counts_per_pixel * area in
      rbind (getitem (efficiency self) bandpass) (fun eff =>
      let counts_per_pixel := counts_per_pixel * (eff * transparency self) in
      Ok (counts_per_pixel / gain self)))))))))
  | Some zpt_inst =>
      rbind (getitem zpt_inst bandpass) (fun zp =>
      let counts_per_pixel := Rpower 10 (0.4 * (zp - sb)) in
      rbind (to exptime u_s) (fun t =>
      Ok (counts_per_pixel * qvalue t)))
  end.

(** [ArtImager.calibration(bandpass, exptime, zpt=27.0)]; [exptime.to]
    needs a Quantity. *)
Definition calibration (self : t) (bandpass : string)
    (exptime : FloatOrQuantity) (zpt : R) : result R :=
  let exptime_to_s :=
    match exptime with
    | Qty q => to q u_s
    | Float _ => Raise (AttributeError "to")
    end in
  match zpt_inst self with
  | None =>
      rbind (getitem_opt (dlam self) bandpass) (fun dlam =>
      rbind (getitem_opt (lam_eff self) bandpass) (fun lam_eff =>
      let dlam_over_lam := qvalue dlam / qvalue lam_eff in
      let lam_factor := dlam_over_lam / planck_h in
      let cali_factor :=
        Rpower 10 (0.4 * zpt) * Rpower 10 (0.4 * mAB_0) / lam_factor in
      rbind exptime_to_s (fun t =>
      let cali_factor := cali_factor / qvalue t in
      rbind (area_cm2 self) (fun area =>
      let cali_factor := cali_factor / area in
      rbind (getitem (efficiency self) bandpass) (fun eff =>
      let cali_factor := cali_factor / (eff * transparency self) in
      Ok (cali_factor * gain self))))))
  | Some zpt_inst =>
      rbind (getitem zpt_inst bandpass) (fun zp =>
      let cali_factor := Rpower 10 (0.4 * (zpt - zp)) in
      rbind exptime_to_s (fun t =>
      Ok (cali_factor / qvalue t)))
  end.

(** [ArtImager.inject_smooth_model(image, source, bandpass, exptime, zpt)] *)
Definition inject_smooth_model (self : t) (image : ndarray) (source : Source.t)
    (bandpass : string) (exptime : FloatOrQuantity) (zpt : R)
    : M World ndarray :=
  match Source.smooth_model source with
  | Some (Some model) =>
      let* mag := lift (match Source.sp source with
                        | Some f => f bandpass
                        | None =>
                            rbind (getitem (Source.mags source) bandpass)
                                  float_of_array
                        end) in
      let* (amp, _, name) :=
        lift (Source.mag_to_image_amplitude source mag zpt) in
      let* amp_counts :=
        lift (sb_to_counts_per_pixel self amp bandpass exptime
                (Source.pixel_scale source)) in
      let model' := setattr model name amp_counts in
      let* _ := put_source (SourceObject (Source.set_smooth_model source model')) in
      ret (azip Rplus image
             (evaluate_on_grid model' (nrows image) (ncols image)))
  | Some None => ret image
  | None => ret image
  end.

(** [ArtImager.import_bkg(bkg_file, exptime)] *)
Definition import_bkg (bkg_file : string) (exptime : Quantity) : result ndarray :=
  rbind (fits_data bkg_file) (fun temp =>
  rbind (to exptime u_s) (fun t =>
  Ok (amap (fun v => v * qvalue t) temp))).

(** Lines 723-736 of [observe], repeated as lines 771-784 of
    [observe_background]: the noisy raw counts, the calibration factor,
    the calibrated image and the variance image. *)
Definition noise_and_calibration (self : t) (src_counts : ndarray)
    (sky_counts : R) (bandpass : string) (exptime : Quantity) (zpt : R)
    : M RandomState (ndarray * R * ndarray * ndarray) :=
  let* raw_counts :=
    if String.eqb sys_platform "win32" then
      let _c := amap (fun v => v + sky_counts) src_counts in
      rng_normal _c (amap sqrt _c)
    else
      let* p := rng_poisson
                  (amap (fun v => (v + sky_counts) * gain self) src_counts) in
      ret (amap (fun v => v / gain self) p) in
  let* raw_counts :=
    if Rlt_dec 0 (read_noise self) then
      let* scale := lift (py_div (read_noise self) (gain self)) in
      let* rn := rng_normal_size scale (shape src_counts) in
      ret (azip Rplus raw_counts rn)
    else ret raw_counts in
  let* cali := lift (calibration self bandpass (Qty exptime) zpt) in
  let image_cali := amap (fun v => (v - sky_counts) * cali) raw_counts in
  let* rg := lift (py_div (read_noise self) (gain self)) in
  let var := amap (fun v => v + rg ^ 2) raw_counts in
  ret (raw_counts, cali, image_cali, var).

(** Lines 691-711 of [observe]: the two checks, the counts of the stars,
    their rasterization, the smooth model, the background cutout and the
    seeing.  Returns the source, the per-star [counts] and the noise-free
    image [src_counts]. *)
Definition noise_free_counts (self : t) (bandpass : string)
    (exptime : FloatOrQuantity) (psf : option ndarray) (zpt : R)
    (mask : option (list bool)) (bkg_file : option string)
    (bkg_ori : option (Z * Z)) (kwargs : option string)
    : M World (Source.t * list R * ndarray) :=
  let* _ := lift (Imager._check_bandpass (filters self) bandpass) in
  let* obj := get_source in
  let* source := lift (Imager._check_source obj) in
  let exptime := check_units exptime u_s in
  let* mags := lift (getitem (Source.mags source) bandpass) in
  let* counts := lift (mag_to_counts self mags bandpass (Qty exptime)) in
  let* src_counts :=
    lift (Imager.inject_stars (Source.x source) (Source.y source) counts
            (Source.xy_dim source) mask) in
  let* src_counts :=
    inject_smooth_model self src_counts source bandpass (Qty exptime) zpt in
  let* src_counts :=
    match bkg_file with
    | Some file =>
        let* temp := lift (import_bkg file exptime) in
        let xy_dim := Source.xy_dim source in
        let half_size := ((fst xy_dim / 2)%Z, (snd xy_dim / 2)%Z) in
        let ori :=
          match bkg_ori with
          | None => ((Z.of_nat (nrows temp) / 2 - fst half_size)%Z,
                     (Z.of_nat (ncols temp) / 2 - snd half_size)%Z)
          | Some o => o
          end in
        let cut := slice2 temp (fst ori) (fst ori + fst xy_dim)%Z
                               (snd ori) (snd ori + snd xy_dim)%Z in
        lift (iadd src_counts cut)
    | None => ret src_counts
    end in
  let* src_counts := lift (Imager.apply_seeing src_counts psf kwargs) in
  ret (source, counts, src_counts).

(** Line 717-718 of [observe]: the magnitude errors, computed from the
    per-star [counts]. *)
Definition mag_error_of (self : t) (sky_counts : R) (counts : list R) : list R :=
  let n_s :=
    map (fun c => sqrt (read_noise self ^ 2 + sky_counts * gain self
                        + c * gain self) / (c * gain self)) counts in
  map (fun n => 2.5 * log10 (1 + n)) n_s.

(** [ArtImager.observe(source, bandpass, exptime, sky_sb=None, psf=None,
    zpt=27.0, mask=None, bkg_file=None, bkg_ori=None, **kwargs)]; the
    argument [source] is the source object of the store. *)
Definition observe (self : t) (bandpass : string) (exptime : FloatOrQuantity)
    (sky_sb : option R) (psf : option ndarray) (zpt : R)
    (mask : option (list bool)) (bkg_file : option string)
    (bkg_ori : option (Z * Z)) (kwargs : option string)
    : M World ArtObservation.t :=
  let* (source, counts, src_counts) :=
    noise_free_counts self bandpass exptime psf zpt mask bkg_file bkg_ori
      kwargs in
  let exptime := check_units exptime u_s in
  let* (src_counts, sky_counts, mag_error) :=
    match sky_sb with
    | Some sb =>
        let* sky_counts :=
          lift (sb_to_counts_per_pixel self sb bandpass (Qty exptime)
                  (Source.pixel_scale source)) in
        ret (src_counts, sky_counts, Some (mag_error_of self sky_counts counts))
    | None => ret (clip_negative src_counts, 0, None)
    end in
  let* (raw_counts, cali, image_cali, var) :=
    on_rng (noise_and_calibration self src_counts sky_counts bandpass
              exptime zpt) in
  ret {| ArtObservation.raw_counts := raw_counts;
         ArtObservation.src_counts := src_counts;
         ArtObservation.sky_counts := sky_counts;
         ArtObservation.image := image_cali;
         ArtObservation.var_image := var;
         ArtObservation.calibration := cali;
         ArtObservation.zpt := zpt;
         ArtObservation.bandpass := bandpass;
         ArtObservation.exptime := exptime;
         ArtObservation.mag_error := mag_error |}.

(** [ArtImager.observe_background(bkg_file, bandpass, exptime, xy_dim,
    pixel_scale, sky_sb=None, psf=None, zpt=27.0, **kwargs)]; [xy_dim] is
    not used by the method. *)
Definition observe_background (self : t) (bkg_file : string)
    (bandpass : string) (exptime : FloatOrQuantity) (xy_dim : Z * Z)
    (pixel_scale : Quantity) (sky_sb : option R) (psf : option ndarray)
    (zpt : R) (kwargs : option string) : M RandomState ArtObservation.t :=
  let* _ := lift (Imager._check_bandpass (filters self) bandpass) in
  let exptime := check_units exptime u_s in
  let* src_counts := lift (import_bkg bkg_file exptime) in
  let* src_counts := lift (Imager.apply_seeing src_counts psf kwargs) in
  let* (src_counts, sky_counts) :=
    match sky_sb with
    | Some sb =>
        let* sky_counts :=
          lift (sb_to_counts_per_pixel self sb bandpass (Qty exptime)
                  pixel_scale) in
        ret (src_counts, sky_counts)
    | None => ret (clip_negative src_counts, 0)
    end in
  let* (raw_counts, cali, image_cali, var) :=
    noise_and_calibration self src_counts sky_counts bandpass exptime zpt in
  ret {| ArtObservation.raw_counts := raw_counts;
         ArtObservation.src_counts := src_counts;
         ArtObservation.sky_counts := sky_counts;
         ArtObservation.image := image_cali;
         ArtObservation.var_image := var;
         ArtObservation.calibration := cali;
         ArtObservation.zpt := zpt;
         ArtObservation.bandpass := bandpass;
         ArtObservation.exptime := exptime;
         ArtObservation.mag_error := None |}.

End Methods.

End ArtImager.

(** ** Notions used by the statements *)

(** What the sky branch (lines 712-722) yields from the noise-free image
    [img] and the per-star [counts]: the image given to the noise
    synthesis, the sky level and the magnitude errors. *)
Definition sky_stage `{Externals} (self : ArtImager.t) (sky_sb : option R)
    (bandpass : string) (exptime : Quantity) (source : Source.t)
    (counts : list R) (img : ndarray)
    (src_counts : ndarray) (sky_counts : R) (mag_error : option (list R)) : Prop :=
  match sky_sb with
  | Some sb =>
      ArtImager.sb_to_counts_per_pixel self sb bandpass (Qty exptime)
        (Source.pixel_scale source) = Ok sky_counts /\
      src_counts = img /\
      mag_error = Some (ArtImager.mag_error_of self sky_counts counts)
  | None =>
      src_counts = clip_negative img /\ sky_counts = 0 /\ mag_error = None
  end.

(** The amplitude computed for the observation, with the name of the
    attribute that receives it.  The ideal imager (lines 250-251) takes the
    image amplitude that [source.mag_to_image_amplitude] returns for the
    integrated magnitude [source.sp.mag_integrated_component(bandpass)]; a
    source without [sp] raises [AttributeError]. *)
Definition ideal_amplitude (s : Source.t) (bandpass : string) (zpt : R)
    : result (R * string) :=
  rbind (match Source.sp s with
         | Some f => f bandpass
         | None => Raise (AttributeError "sp")
         end) (fun mag =>
  rbind (Source.mag_to_image_amplitude s mag zpt) (fun '(_, amp_image, name) =>
  Ok (amp_image, name))).

(** The artificial imager (lines 607-613) takes the magnitude from
    [source.sp] when the source has one and from [float(source.mags[bandpass])]
    otherwise, and converts the surface brightness at the effective radius,
    the first value that [source.mag_to_image_amplitude] returns, to counts
    per pixel. *)
Definition art_amplitude `{Externals} (self : ArtImager.t) (s : Source.t)
    (bandpass : string) (exptime : Quantity) (zpt : R) : result (R * string) :=
  rbind (match Source.sp s with
         | Some f => f bandpass
         | None => rbind (getitem (Source.mags s) bandpass) float_of_array
         end) (fun mag =>
  rbind (Source.mag_to_image_amplitude s mag zpt) (fun '(mu_e, _, name) =>
  rbind (ArtImager.sb_to_counts_per_pixel self mu_e bandpass (Qty exptime)
           (Source.pixel_scale s)) (fun amp_counts =>
  Ok (amp_counts, name)))).

(** What [observe] does with the source [s] before it comes to the smooth
    model: the ideal imager (lines 284-287) looks up the magnitudes and
    rasterizes their fluxes; the artificial imager (lines 691-696) checks
    the bandpass, looks up the magnitudes, converts them to counts and
    rasterizes these. *)
Definition ideal_stars (s : Source.t) (bandpass : string) (zpt : R)
    (mask : option (list bool)) : result ndarray :=
  rbind (getitem (Source.mags s) bandpass) (fun mags =>
  Imager.inject_stars (Source.x s) (Source.y s)
    (map (fun m => Rpower 10 (0.4 * (zpt - m))) mags) (Source.xy_dim s) mask).

Definition art_stars `{Externals} (self : ArtImager.t) (s : Source.t)
    (bandpass : string) (exptime : Quantity) (mask : option (list bool))
    : result ndarray :=
  rbind (Imager._check_bandpass (ArtImager.filters self) bandpass) (fun _ =>
  rbind (getitem (Source.mags s) bandpass) (fun mags =>
  rbind (ArtImager.mag_to_counts self mags bandpass (Qty exptime)) (fun counts =>
  Imager.inject_stars (Source.x s) (Source.y s) counts (Source.xy_dim s)
    mask))).

(** The only change a call may make to the caller's object [o]: when it is
    a source with a smooth model, the attribute named by
    [source.mag_to_image_amplitude] is set on the model to the amplitude
    computed for the observation. *)
Definition ideal_update (bandpass : string) (zpt : R) (o o' : PyObject) : Prop :=
  o' = o \/
  exists s model amp name,
    o = SourceObject s /\
    Source.smooth_model s = Some (Some model) /\
    ideal_amplitude s bandpass zpt = Ok (amp, name) /\
    o' = SourceObject (Source.set_smooth_model s (setattr model name amp)).

Definition art_update `{Externals} (self : ArtImager.t) (bandpass : string)
    (exptime : Quantity) (zpt : R) (o o' : PyObject) : Prop :=
  o' = o \/
  exists s model amp_counts name,
    o = SourceObject s /\
    Source.smooth_model s = Some (Some model) /\
    art_amplitude self s bandpass exptime zpt = Ok (amp_counts, name) /\
    o' = SourceObject (Source.set_smooth_model s (setattr model name amp_counts)).

(** What a call of [observe] leaves of a source [s] whose smooth model is
    [model], according to the outcome of the stages before the smooth model
    and of the computation of the amplitude: the attribute is set as soon
    as both have succeeded, whatever happens afterwards; otherwise the
    call has raised [e] and the source is as it was. *)
Definition amplitude_written {A : Type} (s : Source.t) (model : SmoothModel)
    (stars : result ndarray) (amplitude : result (R * string))
    (r : result A) (o' : PyObject) : Prop :=
  match stars, amplitude with
  | Ok _, Ok (amp, name) =>
      o' = SourceObject (Source.set_smooth_model s (setattr model name amp))
  | Ok _, Raise e => o' = SourceObject s /\ r = Raise e
  | Raise e, _ => o' = SourceObject s /\ r = Raise e
  end.

(** The background stage of [observe] (lines 699-708), from the image
    [before] to the image [after]. *)
Definition bkg_stage `{Externals} (source : Source.t) (exptime : Quantity)
    (bkg_file : option string) (bkg_ori : option (Z * Z))
    (before after : ndarray) : Prop :=
  match bkg_file with
  | Some file =>
      exists temp,
        ArtImager.import_bkg file exptime = Ok temp /\
        let xy_dim := Source.xy_dim source in
        let ori :=
          match bkg_ori with
          | None => ((Z.of_nat (nrows temp) / 2 - fst xy_dim / 2)%Z,
                     (Z.of_nat (ncols temp) / 2 - snd xy_dim / 2)%Z)
          | Some o => o
          end in
        iadd before (slice2 temp (fst ori) (fst ori + fst xy_dim)%Z
                                 (snd ori) (snd ori + snd xy_dim)%Z)
        = Ok after
  | None => after = before
  end.

(** The magnitude error read as a per-pixel image: one value for every
    pixel of [src_counts], in row-major order, computed from the value of
    that pixel. *)
Definition per_pixel_mag_error (self : ArtImager.t) (obs : ArtObservation.t) : Prop :=
  let src := ArtObservation.src_counts obs in
  let sky := ArtObservation.sky_counts obs in
  exists me,
    ArtObservation.mag_error obs = Some me /\
    length me = (nrows src * ncols src)%nat /\
    forall i j, (i < nrows src)%nat -> (j < ncols src)%nat ->
      nth (i * ncols src + j) me 0
      = 2.5 * log10 (1 + sqrt (ArtImager.read_noise self ^ 2
                               + sky * ArtImager.gain self
                               + at_ src i j * ArtImager.gain self)
                         / (at_ src i j * ArtImager.gain self)).

(** What numpy and astropy document about the shapes of their results: the
    convolution returns an array of the shape of the image, a draw with array
    parameters an array of their shape, a draw with [size] an array of that
    shape. *)
Definition shape_preserving (E : Externals) : Prop :=
  (forall image kernel boundary r,
      convolve_fft image kernel boundary = Ok r -> shape r = shape image) /\
  (forall lam g r g',
      rng_poisson lam g = (Ok r, g') -> shape r = shape lam) /\
  (forall loc scale g r g',
      rng_normal loc scale g = (Ok r, g') -> shape r = shape loc) /\
  (forall scale size g r g',
      rng_normal_size scale size g = (Ok r, g') -> shape r = size).

(** Whether the object is a source that carries a smooth model. *)
Definition has_smooth_model (o : PyObject) : bool :=
  match o with
  | SourceObject s =>
      match Source.smooth_model s with
      | Some (Some _) => true
      | _ => false
      end
  | OtherObject _ => false
  end.

(** The value of the ["amplitude"] attribute of the smooth model of an
    object, if it has one. *)
Definition amplitude_of (o : PyObject) : option R :=
  match o with
  | SourceObject s =>
      match Source.smooth_model s with
      | Some (Some model) => sm_params model !! "amplitude"
      | _ => None
      end
  | OtherObject _ => None
  end.

(** [obs] is what a call of [observe] or of [observe_background] on the
    imager [self] returned. *)
Definition artificial_observation `{Externals} (self : ArtImager.t)
    (obs : ArtObservation.t) : Prop :=
  (exists bandpass exptime sky_sb psf zpt mask bkg_file bkg_ori kwargs w w',
      ArtImager.observe self bandpass exptime sky_sb psf zpt mask bkg_file
        bkg_ori kwargs w = (Ok obs, w'))
  \/
  (exists bkg_file bandpass exptime xy_dim pixel_scale sky_sb psf zpt kwargs g g',
      ArtImager.observe_background self bkg_file bandpass exptime xy_dim
        pixel_scale sky_sb psf zpt kwargs g = (Ok obs, g')).

(** ** A reference environment *)

(** Deterministic stand-ins for the libraries, used to run the pipeline on
    concrete inputs: a generator without state whose Poisson draw returns
    its mean and whose Gaussian draw returns its location, a convolution
    that returns the image, a FITS reader that knows one file,
    ["bkg.fits"], a 3 x 3 frame of value -1, a [float] that converts the
    arrays of size 1, and the CODATA values of the constants in cgs
    units. *)
Module Reference.

Definition constant_array (n0 n1 : nat) (v : R) : ndarray :=
  {| nrows := n0; ncols := n1; at_ := fun _ _ => v |}.

Definition externals : Externals :=
  {| RandomState := unit;
     rng_poisson := fun lam => ret lam;
     rng_normal := fun loc _ => ret loc;
     rng_normal_size := fun _ size => ret (constant_array (fst size) (snd size) 0);
     convolve_fft := fun image _ _ => Ok image;
     fits_data := fun file =>
       if String.eqb file "bkg.fits" then Ok (constant_array 3 3 (-1))
       else Raise (ExternalError "No such file or directory");
     float_of_array := float_of_size_1_array;
     planck_h := 6.62607015 / 10 ^ 27;
     speed_of_light := 29979245800;
     sys_platform := "linux" |}.

(** The store of a call on the object [source]. *)
Definition world (source : PyObject) : @ArtImager.World externals :=
  @ArtImager.Build_World externals source tt.

(** An empirical-mode imager: [ArtImager(zpt_inst={'F': 25.0}, gain=1.0)]. *)
Definition imager : ArtImager.t :=
  ArtImager.init_zpt_inst (Float 10) 0 (Some 1) ∅ 1 {["F" := 25]}.

(** A source of one star of magnitude 25 in band F at the centre of a
    3 x 3 grid, without smooth model. *)
Definition star : Source.t :=
  {| Source.x := [1]; Source.y := [1];
     Source.mags := {["F" := [25]]};
     Source.xy_dim := (3, 3)%Z;
     Source.pixel_scale := {| qvalue := 1; qunit := u_arcsec_per_pix |};
     Source.smooth_model := None;
     Source.sp := None;
     Source.mag_to_image_amplitude := fun _ _ => Ok (0, 0, "amplitude") |}.

(** The same star on a grid with [xy_dim = (3, 5)]. *)
Definition star_3x5 : Source.t :=
  {| Source.x := [1]; Source.y := [1];
     Source.mags := {["F" := [25]]};
     Source.xy_dim := (3, 5)%Z;
     Source.pixel_scale := {| qvalue := 1; qunit := u_arcsec_per_pix |};
     Source.smooth_model := None;
     Source.sp := None;
     Source.mag_to_image_amplitude := fun _ _ => Ok (0, 0, "amplitude") |}.

(** A flat profile: the value of its ["amplitude"] attribute everywhere. *)
Definition flat_model : SmoothModel :=
  {| sm_params := {["amplitude" := 1]};
     sm_evaluate := fun params _ _ => default 0 (params !! "amplitude") |}.

(** The star with the flat profile as smooth component; the source computes
    an image amplitude of 5 for it. *)
Definition star_with_model : Source.t :=
  {| Source.x := [1]; Source.y := [1];
     Source.mags := {["F" := [25]]};
     Source.xy_dim := (3, 3)%Z;
     Source.pixel_scale := {| qvalue := 1; qunit := u_arcsec_per_pix |};
     Source.smooth_model := Some (Some flat_model);
     Source.sp := Some (fun _ => Ok 20);
     Source.mag_to_image_amplitude := fun _ _ => Ok (25, 5, "amplitude") |}.

End Reference.


(** * The rest of [imager.py] and [artpop/util.py] *)

(** ** Utilities *)

(** The outcome of a function that may also raise a plain [Exception]. *)
Inductive outcome (A : Type) : Type :=
| Returns (a : A)
| Raises (e : PyError)
| RaisesException (message : string).
Arguments Returns {A} a.
Arguments Raises {A} e.
Arguments RaisesException {A} message.

(** The integer arrays of these functions are numpy arrays of type
    [int64], the default integer of numpy (on every platform since
    numpy 2, and on Linux and macOS before): [np.asarray] makes one of
    Python integers that all fit, and the arithmetic on it wraps around,
    as does [astype(int)].  Of integers that do not fit it
    makes an array of another type ([uint64], [float64] or [object]), which
    [astype(int)] wraps, rounds or refuses; the functions below are
    modelled on the integers that fit and answer [None], "not modelled",
    on the others. *)
Definition int64 (v : Z) : bool := (- 2 ^ 63 <=? v)%Z && (v <? 2 ^ 63)%Z.

Definition wrap64 (v : Z) : Z := ((v + 2 ^ 63) mod 2 ^ 64 - 2 ^ 63)%Z.

Definition add64 (a b : Z) : Z := wrap64 (a + b).
Definition sub64 (a b : Z) : Z := wrap64 (a - b).
Definition mul64 (a b : Z) : Z := wrap64 (a * b).
Definition neg64 (a : Z) : Z := wrap64 (- a).

(** An argument documented as "int or list-like": an integer or a sequence
    of integers. *)
Inductive IntOrList : Type :=
| AnInt (n : Z)
| AList (l : list Z).

(** [util.check_odd(val, name='value')]; Python's [%] with the divisor 2 is
    [Z.modulo].  A Python integer is tested as it is, a sequence through
    [np.asarray]. *)
Definition check_odd (val : IntOrList) (name : string) : option (outcome unit) :=
  match val with
  | AList l =>
      if forallb int64 l then
        Some (if existsb (fun v => (v mod 2 =? 0)%Z) l
              then RaisesException (String.append name " must be odd")
              else Returns tt)
      else None
  | AnInt v =>
      Some (if (v mod 2 =? 0)%Z
            then RaisesException (String.append name " must be odd")
            else Returns tt)
  end.

(** [util.check_xy_dim(xy_dim, force_odd=True)]; the array returned, the
    result of [np.asarray(xy_dim).astype(int)], is the list of its
    elements. *)
Definition check_xy_dim (xy_dim : IntOrList) (force_odd : bool)
    : option (outcome (list Z)) :=
  let xy_dim := match xy_dim with
                | AnInt n => [n; n]
                | AList l => l
                end in
  if forallb int64 xy_dim then
    if force_odd then
      match check_odd (AList xy_dim) "xy dimensions" with
      | Some (Returns _) => Some (Returns xy_dim)
      | Some (Raises e) => Some (Raises e)
      | Some (RaisesException m) => Some (RaisesException m)
      | None => None
      end
    else Some (Returns xy_dim)
  else None.

(** One axis of [util.embed_slices]: from the centre, the length of the
    model and the length of the image, all [int64], to the bounds
    [(imin, imax)] of the image slice and [(amin, amax)] of the model slice.
    A comparison used as a factor is 0 or 1. *)
Definition embed_axis (center model_shape image_shape : Z) : (Z * Z) * (Z * Z) :=
  let imin := sub64 center (model_shape / 2)%Z in
  let imax := add64 center (model_shape / 2)%Z in
  let amin := mul64 (Z.b2z (imin <? 0)%Z) (neg64 imin) in
  let amax :=
    add64 (mul64 model_shape (Z.b2z (imax <=? sub64 image_shape 1)%Z))
          (mul64 (sub64 model_shape (add64 (sub64 imax image_shape) 1))
                 (Z.b2z (imax >? sub64 image_shape 1)%Z)) in
  let imin := Z.max imin 0 in
  let imax := Z.min imax (sub64 image_shape 1) in
  let imax := add64 imax 1 in
  ((imin, imax), (amin, amax)).

(** [util.embed_slices(center, model_shape, image_shape)] on 2-D shapes and
    an integer centre: returns [img_slice] and [mod_slice], each a pair of
    slices given by their bounds. *)
Definition embed_slices (center model_shape image_shape : Z * Z)
    : option (outcome (((Z * Z) * (Z * Z)) * ((Z * Z) * (Z * Z)))) :=
  if forallb int64 [fst center; snd center; fst model_shape; snd model_shape;
                    fst image_shape; snd image_shape]
  then
    match check_odd (AList [fst model_shape; snd model_shape])
            "embed_slices array shape" with
    | Some (Returns _) =>
        let '(i0, a0) :=
          embed_axis (fst center) (fst model_shape) (fst image_shape) in
        let '(i1, a1) :=
          embed_axis (snd center) (snd model_shape) (snd image_shape) in
        Some (Returns ((i0, i1), (a0, a1)))
    | Some (Raises e) => Some (Raises e)
    | Some (RaisesException m) => Some (RaisesException m)
    | None => None
    end
  else None.

(** The values that [util.check_random_state] tells apart: [None], the
    module [numpy.random], an integer ([numbers.Integral] or [np.integer]),
    a [RandomState], a list (whose items are a Python [int] or not), anything
    else. *)
Inductive ListItem : Type :=
| IntItem (n : Z)
| OtherItem.

Inductive Seed (G : Type) : Type :=
| SeedNone
| SeedNumpyRandom
| SeedIntegral (n : Z)
| SeedRandomState (g : G)
| SeedList (l : list ListItem)
| SeedOther.
Arguments SeedNone {G}.
Arguments SeedNumpyRandom {G}.
Arguments SeedIntegral {G} n.
Arguments SeedRandomState {G} g.
Arguments SeedList {G} l.
Arguments SeedOther {G}.

(** [numpy.random] as [check_random_state] uses it: the generator
    [np.random.mtrand._rand] of the module and the constructor
    [np.random.RandomState(seed)], called on an integer or on a list.  The
    constructor refuses the seeds it cannot use, an integer outside
    [0, 2**32 - 1] for one. *)
Class NumpyRandom (G : Type) : Type := {
  global_generator : G;
  RandomState_of_int : Z -> result G;
  RandomState_of_list : list ListItem -> result G
}.

(** [util.check_random_state(seed)] *)
Definition check_random_state {G : Type} `{NumpyRandom G} (seed : Seed G)
    : result G :=
  match seed with
  | SeedNone | SeedNumpyRandom => Ok global_generator
  | SeedIntegral n => RandomState_of_int n
  | SeedRandomState g => Ok g
  | SeedList l =>
      match l with
      | [] => Raise (IndexError "list index out of range")
      | IntItem _ :: _ => RandomState_of_list l
      | OtherItem :: _ =>
          Raise (ValueError "cannot be used to seed a numpy.random.RandomState instance")
      end
  | SeedOther =>
      Raise (ValueError "cannot be used to seed a numpy.random.RandomState instance")
  end.

(** A stand-in for [numpy.random] with a generator without state: the
    constructor accepts the integers of [0, 2**32 - 1] and the lists of
    such integers. *)
Definition seed_in_range (n : Z) : bool := (0 <=? n)%Z && (n <? 2 ^ 32)%Z.

Definition reference_random : NumpyRandom unit :=
  {| global_generator := tt;
     RandomState_of_int := fun n =>
       if seed_in_range n then Ok tt
       else Raise (ValueError "Seed must be between 0 and 2**32 - 1");
     RandomState_of_list := fun l =>
       if forallb (fun i => match i with
                            | IntItem _ => true
                            | OtherItem => false
                            end) l
       then if forallb (fun i => match i with
                                 | IntItem n => seed_in_range n
                                 | OtherItem => true
                                 end) l
            then Ok tt
            else Raise (ValueError "Seed must be between 0 and 2**32 - 1")
       else Raise (TypeError "Cannot cast array data to an unsigned integer") |}.

(** An angle as an astropy Quantity. *)
Inductive AngleUnit : Type := u_arcsec | u_arcmin | u_deg.

Definition arcsec_in (u : AngleUnit) : R :=
  match u with
  | u_arcsec => 1
  | u_arcmin => 60
  | u_deg => 3600
  end.

Record Angle : Type := { avalue : R; aunit : AngleUnit }.

Section Sersic.

(** [scipy.special.gammaincinv] and [scipy.special.gamma]. *)
Variable gammaincinv : R -> R -> R.
Variable gamma : R -> R.

(** [util.mag_to_image_amplitude(m_tot, r_sky, n, ellip, zpt, pixel_scale)];
    [r_sky] is an angle and [pixel_scale] a Quantity, of which only the
    bare value is used. *)
Definition mag_to_image_amplitude (m_tot : R) (r_sky : Angle) (n ellip zpt : R)
    (pixel_scale : Quantity) : R * R * string :=
  let param_name := "amplitude" in
  let b_n := gammaincinv (2.0 * n) 0.5 in
  let f_n := gamma (2 * n) * n * exp b_n / Rpower b_n (2 * n) in
  let r_circ := avalue r_sky * sqrt (1 - ellip) in
  let area := PI * (r_circ * arcsec_in (aunit r_sky)) ^ 2 in
  let mu_e := m_tot + 2.5 * log10 (2 * area) + 2.5 * log10 f_n in
  let amplitude := Rpower 10 (0.4 * (zpt - mu_e)) * qvalue pixel_scale ^ 2 in
  (mu_e, amplitude, param_name).

End Sersic.

(** ** [ArtImager.__init__] *)

(** The argument [efficiency]: a float, a dict, or something else. *)
Inductive EfficiencyArg : Type :=
| EffFloat (e : R)
| EffDict (d : gmap string R)
| EffOther.

(** What [__init__] reads of a [FilterSystem] (the class is defined in
    [artpop/filters.py]): the attribute [filter_names] and the values
    [filter_system.dlam(filt).value] and [filter_system.lam_eff(filt).value],
    each of which may raise. *)
Record FilterSystem : Type := {
  filter_names : list string;
  fs_dlam : string -> result R;
  fs_lam_eff : string -> result R
}.

(** The argument [filter_system] when it is not [None]. *)
Inductive FilterSystemArg : Type :=
| AFilterSystem (fs : FilterSystem)
| NotAFilterSystem.

(** The first key of [keys] that the dict [d] lacks. *)
Definition first_missing {A : Type} (keys : list string) (d : gmap string A)
    : option string :=
  find (fun k => bool_decide (d !! k = None)) keys.

(** Lines 358-363 of [__init__] with [phot_system=None]: a float
    efficiency becomes a table over the names that
    [get_filter_names(None)] gives ([filter_names_of_None]; the function is
    defined in [artpop/filters.py]), a dict is taken as it is, anything
    else is refused. *)
Definition efficiency_table (filter_names_of_None : result (list string))
    (efficiency : EfficiencyArg) : outcome (gmap string R) :=
  match efficiency with
  | EffFloat e =>
      match filter_names_of_None with
      | Ok names => Returns (list_to_map (map (fun filt => (filt, e)) names))
      | Raise err => Raises err
      end
  | EffDict d => Returns d
  | EffOther => RaisesException "efficiency must be a float or a dictionary"
  end.

(** [ArtImager.__init__] called with [phot_system=None] (lines 355-447
    without the two branches on [phot_system], which read the filter tables
    shipped with the package).  [dlam] is a dict in insertion order with
    distinct keys.  Returns the attributes and the generator [self.rng].
    The loop of lines 443-447 gives the default unit to [dlam[filt]] and
    [lam_eff[filt]] for the keys of [dlam]; entries of [lam_eff] under other
    keys stay as they were given in Python and are held here with the
    default unit: no method reads them. *)
Definition art_imager_init {G : Type} `{NumpyRandom G}
    (filter_names_of_None : result (list string))
    (diameter : FloatOrQuantity) (read_noise : R) (gain : option R)
    (efficiency : EfficiencyArg) (transparency : R)
    (dlam : option (list (string * FloatOrQuantity)))
    (lam_eff : option (gmap string FloatOrQuantity))
    (filter_system : option FilterSystemArg)
    (zpt_inst : option (gmap string R)) (random_state : Seed G)
    : outcome (ArtImager.t * G) :=
  let build efficiency rng dlam lam_eff filters zpt_inst :=
    Returns ({| ArtImager.efficiency := efficiency;
                ArtImager.transparency := transparency;
                ArtImager.read_noise := read_noise;
                ArtImager.gain := default 1 gain;
                ArtImager.diameter := check_units diameter u_m;
                ArtImager.dlam := dlam;
                ArtImager.lam_eff := lam_eff;
                ArtImager.filters := filters;
                ArtImager.zpt_inst := zpt_inst |}, rng) in
  match efficiency_table filter_names_of_None efficiency with
  | Raises err => Raises err
  | RaisesException m => RaisesException m
  | Returns efficiency =>
  match check_random_state random_state with
  | Raise err => Raises err
  | Ok rng =>
      match zpt_inst, dlam, filter_system with
      | Some z, _, _ =>
          build efficiency rng None None (map_to_list z).*1 (Some z)
      | None, Some d, _ =>
          match lam_eff with
          | None => Raises AssertionError
          | Some l =>
              let filters := map fst d in
              match first_missing filters l with
              | Some filt => Raises (KeyError filt)
              | None =>
                  build efficiency rng
                    (Some ((fun v => check_units v u_angstrom)
                             <$> (list_to_map d : gmap string FloatOrQuantity)))
                    (Some ((fun v => check_units v u_angstrom) <$> l))
                    filters None
              end
          end
      | None, None, Some NotAFilterSystem => Raises AssertionError
      | None, None, Some (AFilterSystem fs) =>
          match filter_names fs with
          | [] => build efficiency rng None None [] None
          | filt :: _ =>
              (* self.dlam[filt] = filter_system.dlam(filt).value, where
                 self.dlam is None *)
              match fs_dlam fs filt with
              | Ok _ =>
                  Raises (TypeError "'NoneType' object does not support item assignment")
              | Raise err => Raises err
              end
          end
      | None, None, None =>
          RaisesException
            "In order to convert mags to counts, you must give phot_system or (dlam, lam_eff) or filter_system."
      end
  end
  end.

(** ** Notions used by the further statements *)

(** Integers small enough for the sums and differences of [embed_slices]
    to stay within [int64]. *)
Definition small_int (v : Z) : Prop := (- 2 ^ 60 < v < 2 ^ 60)%Z.

(** The slices [i] of an axis of length [s] of the image and [a] of an
    axis of length [m] of the model embed the model centred on [c]: as
    Python slices they select the same number [n > 0] of elements, starting
    inside their arrays without reaching beyond them; the image slice is
    the overlap of the footprint [c - m//2 .. c + m//2] with the image, and
    the model slice starts at the element of the model that falls on its
    first element. *)
Definition aligned_slices (c m s : Z) (i a : Z * Z) : Prop :=
  exists n : nat,
    slice (Z.to_nat s) (fst i) (snd i) = (Z.to_nat (fst i), n) /\
    slice (Z.to_nat m) (fst a) (snd a) = (Z.to_nat (fst a), n) /\
    (0 < n /\ Z.to_nat (fst i) + n <= Z.to_nat s
     /\ Z.to_nat (fst a) + n <= Z.to_nat m)%nat /\
    (0 <= fst i /\ 0 <= fst a /\ fst i - fst a = c - m / 2)%Z /\
    (fst i = Z.max 0 (c - m / 2) /\ snd i = Z.min s (c + m / 2 + 1))%Z.

(** [f 0 + ... + f (n - 1)] *)
Fixpoint sum_upto (n : nat) (f : nat -> R) : R :=
  match n with
  | O => 0
  | S k => sum_upto k f + f k
  end.

(** [np.sum] of a 1-D array. *)
Definition rsum (l : list R) : R := fold_right Rplus 0 l.

(** [np.sum(a)] *)
Definition asum (a : ndarray) : R :=
  sum_upto (nrows a) (fun i => sum_upto (ncols a) (fun j => at_ a i j)).

(** The total weight of the points that lie in the range of the histogram
    of [inject_stars]: [0 <= x < xy_dim[0] - 1] and [0 <= y < xy_dim[1] - 1]. *)
Fixpoint weight_in_range (xy_dim : Z * Z) (x y w : list R) : R :=
  match x, y, w with
  | tx :: x', ty :: y', tw :: w' =>
      (if Rle_dec 0 tx then
         if Rlt_dec tx (IZR (fst xy_dim - 1)) then
           if Rle_dec 0 ty then
             if Rlt_dec ty (IZR (snd xy_dim - 1)) then tw else 0
           else 0
         else 0
       else 0)
      + weight_in_range xy_dim x' y' w'
  | _, _, _ => 0
  end.

(** A radiometric imager: [ArtImager(dlam={'F': 1000.}, lam_eff={'F':
    5000.}, efficiency={'F': 1.}, gain=1.)], as [__init__] leaves it. *)
Definition radiometric_imager : ArtImager.t :=
  {| ArtImager.efficiency := {["F" := 1]};
     ArtImager.transparency := 1;
     ArtImager.read_noise := 0;
     ArtImager.gain := 1;
     ArtImager.diameter := {| qvalue := 10; qunit := u_m |};
     ArtImager.dlam := Some {["F" := {| qvalue := 1000; qunit := u_angstrom |}]};
     ArtImager.lam_eff := Some {["F" := {| qvalue := 5000; qunit := u_angstrom |}]};
     ArtImager.filters := ["F"];
     ArtImager.zpt_inst := None |}.

(** The reference star on a grid with [xy_dim = (2, 3)]. *)
Definition star_2x3 : Source.t :=
  {| Source.x := [0]; Source.y := [0];
     Source.mags := {["F" := [25]]};
     Source.xy_dim := (2, 3)%Z;
     Source.pixel_scale := {| qvalue := 1; qunit := u_arcsec_per_pix |};
     Source.smooth_model := None;
     Source.sp := None;
     Source.mag_to_image_amplitude := fun _ _ => Ok (0, 0, "amplitude") |}.

(** The reference star with the attribute [smooth_model] set to [None]. *)
Definition star_model_None : Source.t :=
  {| Source.x := [1]; Source.y := [1];
     Source.mags := {["F" := [25]]};
     Source.xy_dim := (3, 3)%Z;
     Source.pixel_scale := {| qvalue := 1; qunit := u_arcsec_per_pix |};
     Source.smooth_model := Some None;
     Source.sp := None;
     Source.mag_to_image_amplitude := fun _ _ => Ok (0, 0, "amplitude") |}.

(** A star with a flat profile whose amplitudes are computed by
    [mag_to_image_amplitude], for a profile of index 1 and radius 1 arcsec
    with [b_n = 1] and [gamma = 1], on pixels of 0.2 arcsec. *)
Definition sersic_star : Source.t :=
  {| Source.x := [1]; Source.y := [1];
     Source.mags := {["F" := [25]]};
     Source.xy_dim := (3, 3)%Z;
     Source.pixel_scale := {| qvalue := 0.2; qunit := u_arcsec_per_pix |};
     Source.smooth_model := Some (Some Reference.flat_model);
     Source.sp := Some (fun _ => Ok 20);
     Source.mag_to_image_amplitude := fun mag zpt =>
       Ok (mag_to_image_amplitude (fun _ _ => 1) (fun _ => 1) mag
             {| avalue := 1; aunit := u_arcsec |} 1 0 zpt
             {| qvalue := 0.2; qunit := u_arcsec_per_pix |}) |}.

(** * Properties *)

(** ** Reasoning about computations *)

Lemma rbind_Ok {A B : Type} (r : result A) (k : A -> result B) (b : B) :
  rbind r k = Ok b -> exists a, r = Ok a /\ k a = Ok b.
Proof. destruct r; simpl; [eauto|discriminate]. Qed.

Lemma bind_Ok {S A B : Type} (c : M S A) (k : A -> M S B) (s s' : S) (b : B) :
  bind c k s = (Ok b, s') ->
  exists a s1, c s = (Ok a, s1) /\ k a s1 = (Ok b, s').
Proof.
  unfold bind. destruct (c s) as [[a|e] s1]; [eauto|discriminate].
Qed.

Lemma lift_Ok {S A : Type} (r : result A) (s s' : S) (a : A) :
  lift r s = (Ok a, s') -> r = Ok a /\ s' = s.
Proof. unfold lift. intros [= -> ->]. auto. Qed.

Lemma ret_Ok {S A : Type} (a b : A) (s s' : S) :
  ret a s = (Ok b, s') -> b = a /\ s' = s.
Proof. unfold ret. intros [= -> ->]. auto. Qed.

(** The store left by a computation that does not touch it. *)
Lemma lift_store {S A : Type} (r : result A) (s s' : S) (o : result A) :
  lift r s = (o, s') -> s' = s.
Proof. unfold lift. now intros [= _ ->]. Qed.

Lemma on_rng_Ok `{Externals} {A : Type} (c : M RandomState A)
    (w w' : ArtImager.World) (a : A) :
  ArtImager.on_rng c w = (Ok a, w') ->
  exists g, c (ArtImager.the_rng w) = (Ok a, g) /\
            w' = {| ArtImager.the_source := ArtImager.the_source w;
                    ArtImager.the_rng := g |}.
Proof.
  unfold ArtImager.on_rng. destruct (c _) as [r g]. intros [= -> <-]. eauto.
Qed.

(** Peel the successful steps of a computation found in hypothesis [H]. *)
Ltac step_in H :=
  let a := fresh "a" in
  let s := fresh "s" in
  let H1 := fresh "Hstep" in
  apply bind_Ok in H; destruct H as (a & s & H1 & H);
  try (apply lift_Ok in H1; destruct H1 as [H1 ->]).

(** ** Array operations on small inputs *)

Example slice_inside : slice 5 1 4 = (1%nat, 3%nat).
Proof. reflexivity. Qed.

Example slice_clamped : slice 3 2 7 = (2%nat, 1%nat).
Proof. reflexivity. Qed.

(** A negative start counts from the end: [a[-1:2]] on five elements is
    empty. *)
Example slice_negative_start : slice 5 (-1) 2 = (4%nat, 0%nat).
Proof. reflexivity. Qed.

Example select_mask : select [10; 20; 30]%Z [true; false; true] = [10; 30]%Z.
Proof. reflexivity. Qed.

Example bool_index_mismatch :
  bool_index [10; 20; 30]%Z [true; false]
  = Raise (IndexError "boolean index did not match indexed array").
Proof. reflexivity. Qed.

(** A (3, 1) cutout is not added in place to a (1, 3) image. *)
Example iadd_not_broadcast :
  iadd {| nrows := 1; ncols := 3; at_ := fun _ _ => 0 |}
       {| nrows := 3; ncols := 1; at_ := fun _ _ => 1 |}
  = Raise (ValueError "operands could not be broadcast together").
Proof. reflexivity. Qed.

Example minutes_to_seconds :
  to {| qvalue := 2; qunit := u_min |} u_s
  = Ok {| qvalue := 2 * 60 / 1; qunit := u_s |}.
Proof. reflexivity. Qed.

Example metres_are_not_seconds :
  to {| qvalue := 2; qunit := u_m |} u_s = Raise UnitConversionError.
Proof. reflexivity. Qed.

(** ** The rasterizer *)

Lemma bin_index_interior (n k : Z) :
  (0 <= k <= n - 2)%Z -> bin_index n 0 (IZR (n - 1)) (IZR k) = k.
Proof.
  intros Hk. unfold bin_index. apply Zfloor_eq.
  assert (Hn : 0 < IZR (n - 1)) by (apply IZR_lt; lia).
  assert (Hk0 : 0 <= IZR k) by (apply IZR_le; lia).
  assert (Hk1 : IZR k + 1 <= IZR (n - 1)).
  { rewrite <- plus_IZR. apply IZR_le. lia. }
  assert (Hnn : IZR n = IZR (n - 1) + 1).
  { rewrite <- plus_IZR. f_equal. lia. }
  replace ((IZR k - 0) * (IZR n / (IZR (n - 1) - 0)))
    with (IZR k + IZR k / IZR (n - 1)) by (rewrite Hnn; field; lra).
  split.
  - assert (0 <= IZR k / IZR (n - 1)); [|lra].
    apply Rmult_le_pos; [lra|]. left. now apply Rinv_0_lt_compat.
  - assert (IZR k / IZR (n - 1) < 1); [|lra].
    apply Rmult_lt_reg_r with (IZR (n - 1)); [lra|].
    unfold Rdiv. rewrite Rmult_assoc, Rinv_l by lra. lra.
Qed.

Lemma in_bin_upper_edge (n : Z) (tmin tmax : R) (i : nat) :
  in_bin n tmin tmax tmax i = false.
Proof.
  unfold in_bin. destruct (Rle_dec tmin tmax); [|reflexivity].
  destruct (Rlt_dec tmax tmax); [lra|reflexivity].
Qed.

Lemma in_bin_interior (n k : Z) (i : nat) :
  (0 <= k <= n - 2)%Z ->
  in_bin n 0 (IZR (n - 1)) (IZR k) i = Z.eqb k (Z.of_nat i).
Proof.
  intros Hk. unfold in_bin.
  assert (0 <= IZR k) by (apply IZR_le; lia).
  assert (IZR k < IZR (n - 1)) by (apply IZR_lt; lia).
  destruct (Rle_dec 0 (IZR k)); [|lra].
  destruct (Rlt_dec (IZR k) (IZR (n - 1))); [|lra].
  now rewrite bin_index_interior.
Qed.

Lemma histogram2d_Ok (x y w : list R) (nx ny : Z) (xmax ymax : R) :
  0 < xmax -> 0 < ymax -> (0 < nx)%Z -> (0 < ny)%Z ->
  length y = length x -> length w = length x ->
  histogram2d x y (nx, ny) w ((0, xmax), (0, ymax))
  = Ok {| nrows := Z.to_nat nx; ncols := Z.to_nat ny;
          at_ := hist_sum nx ny (0, xmax) (0, ymax) x y w |}.
Proof.
  intros Hx Hy Hnx Hny Hly Hlw. unfold histogram2d. simpl.
  destruct (Rle_dec xmax 0); [lra|]. destruct (Rle_dec ymax 0); [lra|].
  destruct (nx <=? 0)%Z eqn:E1; [lia|]. destruct (ny <=? 0)%Z eqn:E2; [lia|].
  rewrite Hly, Hlw, Nat.eqb_refl. reflexivity.
Qed.

Lemma histogram2d_shape (x y w : list R) (bins : Z * Z)
    (range : (R * R) * (R * R)) (h : ndarray) :
  histogram2d x y bins w range = Ok h ->
  shape h = (Z.to_nat (fst bins), Z.to_nat (snd bins)).
Proof.
  unfold histogram2d. destruct bins as [nx ny], range as [xr yr].
  repeat match goal with
         | |- context [if ?c then _ else _] => destruct c; try discriminate
         end.
  intros [= <-]. reflexivity.
Qed.

Lemma inject_stars_Ok (x y s : list R) (d0 d1 : Z) :
  (2 <= d0)%Z -> (2 <= d1)%Z -> length y = length x -> length s = length x ->
  Imager.inject_stars x y s (d0, d1) None
  = Ok (transpose {| nrows := Z.to_nat d0; ncols := Z.to_nat d1;
                     at_ := hist_sum d0 d1 (0, IZR (d0 - 1)) (0, IZR (d1 - 1))
                              x y s |}).
Proof.
  intros H0 H1 Hy Hs. unfold Imager.inject_stars. cbn [rbind fst snd].
  rewrite histogram2d_Ok; try assumption; try lia; try (apply IZR_lt; lia).
  reflexivity.
Qed.

(** The image returned by [inject_stars] has [xy_dim[1]] rows and
    [xy_dim[0]] columns. *)
Lemma inject_stars_shape (x y s : list R) (xy_dim : Z * Z)
    (mask : option (list bool)) (image : ndarray) :
  Imager.inject_stars x y s xy_dim mask = Ok image ->
  shape image = (Z.to_nat (snd xy_dim), Z.to_nat (fst xy_dim)).
Proof.
  unfold Imager.inject_stars. intros Hrun.
  apply rbind_Ok in Hrun. destruct Hrun as ([[_x _y] _s] & _ & Hrun).
  apply rbind_Ok in Hrun. destruct Hrun as (h & Hh & [= <-]).
  apply histogram2d_shape in Hh. unfold shape in *. simpl.
  now injection Hh as -> ->.
Qed.

(** A single point with integer coordinates strictly below the last row and
    column is placed exactly. *)
Lemma inject_stars_single_interior (n x0 y0 : Z) (w : R) :
  (0 <= x0 <= n - 2)%Z -> (0 <= y0 <= n - 2)%Z ->
  exists image,
    Imager.inject_stars [IZR x0] [IZR y0] [w] (n, n) None = Ok image /\
    shape image = (Z.to_nat n, Z.to_nat n) /\
    forall i j, at_ image i j =
      if Z.eqb y0 (Z.of_nat i) && Z.eqb x0 (Z.of_nat j) then w else 0.
Proof.
  intros Hx Hy.
  assert (Hn : 0 < IZR (n - 1)) by (apply IZR_lt; lia).
  unfold Imager.inject_stars, histogram2d; simpl.
  destruct (Rle_dec (IZR (n - 1)) 0); [lra|].
  destruct (n <=? 0)%Z eqn:E; [lia|].
  eexists; split; [reflexivity|]. split; [reflexivity|].
  intros i j; simpl.
  rewrite !in_bin_interior by assumption.
  rewrite andb_comm. destruct (_ && _); lra.
Qed.

(** A single point of the last column, [x0 = n - 1], is dropped whatever its
    row: the image is zero everywhere.  The same holds for the last row. *)
Lemma inject_stars_single_last_column (n : Z) (y0 w : R) :
  (2 <= n)%Z ->
  exists image,
    Imager.inject_stars [IZR (n - 1)] [y0] [w] (n, n) None = Ok image /\
    forall i j, at_ image i j = 0.
Proof.
  intros Hn. rewrite inject_stars_Ok by (try lia; reflexivity).
  eexists; split; [reflexivity|]. intros i j; simpl.
  rewrite in_bin_upper_edge. simpl. lra.
Qed.

Lemma inject_stars_single_last_row (n : Z) (x0 w : R) :
  (2 <= n)%Z ->
  exists image,
    Imager.inject_stars [x0] [IZR (n - 1)] [w] (n, n) None = Ok image /\
    forall i j, at_ image i j = 0.
Proof.
  intros Hn. rewrite inject_stars_Ok by (try lia; reflexivity).
  eexists; split; [reflexivity|]. intros i j; simpl.
  rewrite (in_bin_upper_edge n 0 (IZR (n - 1)) i), andb_false_r. lra.
Qed.

(** On a grid of one pixel the range [[0, 0]] is empty and the histogram is
    refused. *)
Lemma inject_stars_one_pixel (x y signal : list R) (mask : option (list bool)) :
  mask = None ->
  Imager.inject_stars x y signal (1, 1)%Z mask
  = Raise (ValueError "xmax should be greater than xmin").
Proof.
  intros ->. unfold Imager.inject_stars, histogram2d. simpl.
  change (1 - 1)%Z with 0%Z. destruct (Rle_dec 0 0); [reflexivity|lra].
Qed.

(** C3, evaluated on the code: with [xy_dim = (3, 3)], a point of weight 1 at
    the integer position [(x0, y0) = (2, 1)] of the last column is returned
    as an image of shape (3, 3) that is zero everywhere, so [image[1, 2]] is 0
    and not the weight: [fast_histogram] excludes the upper edge [N - 1] of
    the range that [inject_stars] passes. *)
Theorem C3_last_column_point_is_dropped :
  exists image,
    Imager.inject_stars [2] [1] [1] (3, 3)%Z None = Ok image /\
    shape image = (3%nat, 3%nat) /\
    (forall i j, at_ image i j = 0) /\
    at_ image 1%nat 2%nat <> 1.
Proof.
  unfold Imager.inject_stars, histogram2d; simpl.
  change (3 - 1)%Z with 2%Z.
  destruct (Rle_dec 2 0); [lra|].
  eexists; split; [reflexivity|]. split; [reflexivity|].
  assert (Hz : forall i j, at_ (transpose
     {| nrows := 3; ncols := 3;
        at_ := hist_sum 3 3 (0, 2) (0, 2) [2] [1] [1] |}) i j = 0).
  { intros i j; simpl. rewrite (in_bin_upper_edge 3 0 2). simpl. lra. }
  split; [exact Hz|]. rewrite Hz. lra.
Qed.

(** ** Photometric conversion, empirical mode *)

Lemma Rpower_10_0 : Rpower 10 0 = 1.
Proof. apply Rpower_O. lra. Qed.

Lemma ln_10_neq_0 : ln 10 <> 0.
Proof.
  assert (0 < ln 10); [|lra].
  rewrite <- ln_1. apply ln_increasing; lra.
Qed.

Lemma log10_Rpower (e : R) : log10 (Rpower 10 e) = e.
Proof.
  unfold log10, Rpower. rewrite ln_exp. field. apply ln_10_neq_0.
Qed.

Lemma mag_to_counts_empirical `{Externals} (self : ArtImager.t)
    (z : gmap string R) (zp : R) (mags : list R) (bandpass : string)
    (exptime : FloatOrQuantity) (t : Quantity) :
  ArtImager.zpt_inst self = Some z ->
  z !! bandpass = Some zp ->
  to (check_units exptime u_s) u_s = Ok t ->
  ArtImager.mag_to_counts self mags bandpass exptime
  = Ok (map (fun m => Rpower 10 (0.4 * (zp - m)) * qvalue t) mags).
Proof.
  intros Hz Hb Ht. unfold ArtImager.mag_to_counts, getitem.
  rewrite Hz, Hb. simpl. rewrite Ht. simpl. now rewrite map_map.
Qed.

(** The filter set of an empirical-mode imager is the key set of its
    zero-point table. *)
Lemma init_zpt_inst_filters (d : FloatOrQuantity) (rn : R) (g : option R)
    (eff : gmap string R) (tr : R) (z : gmap string R) (bandpass : string) :
  bandpass ∈ ArtImager.filters (ArtImager.init_zpt_inst d rn g eff tr z)
  <-> is_Some (z !! bandpass).
Proof.
  simpl. rewrite list_elem_of_fmap. split.
  - intros [[k v] [-> Hin]]. apply elem_of_map_to_list in Hin. simpl. eauto.
  - intros [v Hv]. exists (bandpass, v). split; [reflexivity|].
    now apply elem_of_map_to_list.
Qed.

(** C4.  In empirical mode [mag_to_counts] returns, for each magnitude,
    [10^(0.4 * (zpt_inst[bandpass] - mag))] times the exposure time in
    seconds; an imager configured with [zpt_inst = {'F': 25.0}] maps
    magnitude 25 in band F with 100 s to exactly 100. *)
Theorem C4_mag_to_counts_empirical `{Externals} :
  (forall (self : ArtImager.t) (z : gmap string R) (zp : R) (mags : list R)
          (bandpass : string) (exptime : FloatOrQuantity) (t : Quantity),
      ArtImager.zpt_inst self = Some z ->
      z !! bandpass = Some zp ->
      to (check_units exptime u_s) u_s = Ok t ->
      ArtImager.mag_to_counts self mags bandpass exptime
      = Ok (map (fun m => Rpower 10 (0.4 * (zp - m)) * qvalue t) mags))
  /\
  (forall (d : FloatOrQuantity) (rn : R) (g : option R) (eff : gmap string R)
          (tr : R),
      ArtImager.mag_to_counts
        (ArtImager.init_zpt_inst d rn g eff tr {["F" := 25]})
        [25] "F" (Qty {| qvalue := 100; qunit := u_s |})
      = Ok [100]).
Proof.
  split.
  - intros. now apply mag_to_counts_empirical with (z := z).
  - intros.
    rewrite (mag_to_counts_empirical _ {["F" := 25]} 25 [25] "F" _
               {| qvalue := 100 * 1 / 1; qunit := u_s |});
      [|reflexivity|apply lookup_singleton_eq|reflexivity].
    simpl. do 2 f_equal.
    replace (0.4 * (25 - 25)) with 0 by lra.
    rewrite Rpower_10_0. lra.
Qed.

(** C2.  In empirical mode, for a bandpass of the filter set and a positive
    exposure time, the counts of every magnitude satisfy
    [mag = zpt_inst[bandpass] - 2.5 * log10 (counts / exptime)]. *)
Theorem C2_mag_to_counts_round_trip `{Externals}
    (d : FloatOrQuantity) (rn : R) (g : option R) (eff : gmap string R)
    (tr : R) (z : gmap string R) (bandpass : string) (mags : list R)
    (exptime : FloatOrQuantity) (t : Quantity) :
  let self := ArtImager.init_zpt_inst d rn g eff tr z in
  bandpass ∈ ArtImager.filters self ->
  to (check_units exptime u_s) u_s = Ok t ->
  0 < qvalue t ->
  exists (zpt : R) (counts : list R),
    z !! bandpass = Some zpt /\
    ArtImager.mag_to_counts self mags bandpass exptime = Ok counts /\
    Forall2 (fun mag c => mag = zpt - 2.5 * log10 (c / qvalue t)) mags counts.
Proof.
  intros self Hin Ht Hpos.
  apply init_zpt_inst_filters in Hin. destruct Hin as [zp Hzp].
  exists zp. eexists. split; [exact Hzp|]. split.
  - apply mag_to_counts_empirical with (z := z); [reflexivity|exact Hzp|exact Ht].
  - induction mags as [|m mags IH]; simpl; constructor; [|exact IH].
    replace (Rpower 10 (0.4 * (zp - m)) * qvalue t / qvalue t)
      with (Rpower 10 (0.4 * (zp - m))) by (field; lra).
    rewrite log10_Rpower. lra.
Qed.

(** The reference imager in band F, for 100 s. *)
Lemma C4_witness :
  ArtImager.zpt_inst Reference.imager = Some {["F" := 25]} /\
  ({["F" := 25]} : gmap string R) !! "F" = Some 25 /\
  to (check_units (Float 100) u_s) u_s
  = Ok {| qvalue := 100 * 1 / 1; qunit := u_s |} /\
  @ArtImager.mag_to_counts Reference.externals Reference.imager [25; 20] "F"
    (Float 100)
  = Ok (map (fun m => Rpower 10 (0.4 * (25 - m)) * (100 * 1 / 1)) [25; 20]).
Proof.
  split; [reflexivity|]. split; [apply lookup_singleton_eq|].
  split; [reflexivity|].
  exact (proj1 (C4_mag_to_counts_empirical (H := Reference.externals))
           Reference.imager {["F" := 25]} 25 [25; 20] "F" (Float 100)
           {| qvalue := 100 * 1 / 1; qunit := u_s |}
           eq_refl (lookup_singleton_eq _ _) eq_refl).
Defined.

Lemma C2_witness :
  ("F" ∈ ArtImager.filters Reference.imager) /\
  to (check_units (Float 100) u_s) u_s
  = Ok {| qvalue := 100 * 1 / 1; qunit := u_s |} /\
  0 < 100 * 1 / 1 /\
  exists (zpt : R) (counts : list R),
    ({["F" := 25]} : gmap string R) !! "F" = Some zpt /\
    @ArtImager.mag_to_counts Reference.externals Reference.imager [25; 20] "F"
      (Float 100) = Ok counts /\
    Forall2 (fun mag c => mag = zpt - 2.5 * log10 (c / (100 * 1 / 1)))
      [25; 20] counts.
Proof.
  assert (Hin : "F" ∈ ArtImager.filters Reference.imager).
  { apply init_zpt_inst_filters. rewrite lookup_singleton_eq. eauto. }
  assert (Hpos : 0 < 100 * 1 / 1) by lra.
  split; [exact Hin|]. split; [reflexivity|]. split; [exact Hpos|].
  exact (C2_mag_to_counts_round_trip (H := Reference.externals)
           (Float 10) 0 (Some 1) ∅ 1 {["F" := 25]} "F" [25; 20] (Float 100)
           {| qvalue := 100 * 1 / 1; qunit := u_s |} Hin eq_refl Hpos).
Defined.

(** ** The noise tail *)

Lemma noise_and_calibration_Ok `{Externals} (self : ArtImager.t)
    (src_counts : ndarray) (sky_counts : R) (bandpass : string)
    (exptime : Quantity) (zpt : R) (g g' : RandomState)
    (raw_counts image_cali var : ndarray) (cali : R) :
  ArtImager.noise_and_calibration self src_counts sky_counts bandpass exptime
    zpt g = (Ok (raw_counts, cali, image_cali, var), g') ->
  ArtImager.gain self <> 0 /\
  ArtImager.calibration self bandpass (Qty exptime) zpt = Ok cali /\
  image_cali = amap (fun v => (v - sky_counts) * cali) raw_counts /\
  var = amap (fun v => v + (ArtImager.read_noise self / ArtImager.gain self) ^ 2)
          raw_counts.
Proof.
  intros Hrun. unfold ArtImager.noise_and_calibration in Hrun.
  step_in Hrun. step_in Hrun. step_in Hrun. step_in Hrun.
  apply ret_Ok in Hrun. destruct Hrun as [[= -> -> -> ->] _].
  unfold py_div in Hstep2.
  destruct (Req_dec_T (ArtImager.gain self) 0); [discriminate|].
  injection Hstep2 as <-. auto.
Qed.

(** ** The stages before the noise *)

Lemma bind_lift {S A B : Type} (r : result A) (k : A -> M S B) (s : S) :
  bind (lift r) k s = match r with Ok a => k a s | Raise e => (Raise e, s) end.
Proof. now destruct r. Qed.

Lemma check_bandpass_Ok (fs : list string) (b : string) :
  b ∈ fs -> Imager._check_bandpass fs b = Ok tt.
Proof. intros Hin. unfold Imager._check_bandpass. now destruct (decide _). Qed.

Lemma check_bandpass_inv (fs : list string) (b : string) (u : unit) :
  Imager._check_bandpass fs b = Ok u -> b ∈ fs.
Proof. unfold Imager._check_bandpass. now destruct (decide _). Qed.

Lemma check_source_inv (o : PyObject) (s : Source.t) :
  Imager._check_source o = Ok s -> o = SourceObject s.
Proof. destruct o; simpl; [now intros [= ->]|discriminate]. Qed.

Lemma getitem_Ok {A : Type} (d : gmap string A) (k : string) (v : A) :
  getitem d k = Ok v <-> d !! k = Some v.
Proof.
  unfold getitem. destruct (d !! k); split; intros [=]; subst; reflexivity.
Qed.

Lemma iadd_shape (a b c : ndarray) : iadd a b = Ok c -> shape c = shape a.
Proof. unfold iadd. destruct (_ && _); [now intros [= <-]|discriminate]. Qed.

(** Whatever its outcome, the smooth-model stage leaves the generator alone
    and changes the source at most by one attribute of its smooth model;
    the image it returns has the shape of the image it was given. *)
Lemma art_inject_smooth_model_store `{Externals} (self : ArtImager.t)
    (image : ndarray) (source : Source.t) (bandpass : string)
    (exptime : Quantity) (zpt : R) (w w' : ArtImager.World)
    (r : result ndarray) :
  ArtImager.the_source w = SourceObject source ->
  ArtImager.inject_smooth_model self image source bandpass (Qty exptime) zpt w
    = (r, w') ->
  ArtImager.the_rng w' = ArtImager.the_rng w /\
  art_update self bandpass exptime zpt
    (ArtImager.the_source w) (ArtImager.the_source w') /\
  (forall image', r = Ok image' -> shape image' = shape image).
Proof.
  intros Hsrc. unfold ArtImager.inject_smooth_model, art_update.
  destruct (Source.smooth_model source) as [[model|]|] eqn:Hm;
    try (unfold ret; intros [= <- <-]; split; [reflexivity|];
         split; [now left|]; now intros ? [= <-]).
  rewrite bind_lift.
  destruct (match Source.sp source with Some _ => _ | None => _ end)
    as [mag|e] eqn:Hmag;
    [|intros [= <- <-]; split; [reflexivity|]; split; [now left|discriminate]].
  rewrite bind_lift.
  destruct (Source.mag_to_image_amplitude source mag zpt)
    as [[[mu amp] name]|e] eqn:Hamp;
    [|intros [= <- <-]; split; [reflexivity|]; split; [now left|discriminate]].
  rewrite bind_lift.
  destruct (ArtImager.sb_to_counts_per_pixel _ _ _ _ _) as [amp_counts|e] eqn:Hsb;
    [|intros [= <- <-]; split; [reflexivity|]; split; [now left|discriminate]].
  unfold bind, ArtImager.put_source, ret. intros [= <- <-]. simpl.
  split; [reflexivity|]. split; [|now intros ? [= <-]].
  right. exists source, model, amp_counts, name.
  rewrite Hsrc. repeat split; try assumption.
  unfold art_amplitude. rewrite Hmag. cbn [rbind]. rewrite Hamp. cbn [rbind].
  now rewrite Hsb.
Qed.

Lemma ideal_inject_smooth_model_store `{Externals}
    (image : ndarray) (source : Source.t) (bandpass : string) (zpt : R)
    (o' : PyObject) (r : result ndarray) :
  IdealImager.inject_smooth_model image source bandpass zpt (SourceObject source)
    = (r, o') ->
  ideal_update bandpass zpt (SourceObject source) o' /\
  (forall image', r = Ok image' -> shape image' = shape image).
Proof.
  unfold IdealImager.inject_smooth_model, ideal_update.
  destruct (Source.smooth_model source) as [[model|]|] eqn:Hm;
    try (unfold ret; intros [= <- <-]; split; [now left|]; now intros ? [= <-]).
  rewrite bind_lift.
  destruct (Source.sp source) as [sp|] eqn:Hsp;
    [|intros [= <- <-]; split; [now left|discriminate]].
  rewrite bind_lift.
  destruct (sp bandpass) as [mag|e] eqn:Hmag;
    [|intros [= <- <-]; split; [now left|discriminate]].
  rewrite bind_lift.
  destruct (Source.mag_to_image_amplitude source mag zpt)
    as [[[mu amp] name]|e] eqn:Hamp;
    [|intros [= <- <-]; split; [now left|discriminate]].
  unfold bind, put, ret. intros [= <- <-]. simpl.
  split; [|now intros ? [= <-]].
  right. exists source, model, amp, name. repeat split; try assumption.
  unfold ideal_amplitude. rewrite Hsp, Hmag. cbn [rbind]. now rewrite Hamp.
Qed.

Lemma noise_free_counts_Ok_inv `{Externals} (self : ArtImager.t)
    (bandpass : string) (exptime : FloatOrQuantity) (psf : option ndarray)
    (zpt : R) (mask : option (list bool)) (bkg_file : option string)
    (bkg_ori : option (Z * Z)) (kwargs : option string)
    (w w1 : ArtImager.World) (source : Source.t) (counts : list R)
    (img : ndarray) :
  ArtImager.noise_free_counts self bandpass exptime psf zpt mask bkg_file
    bkg_ori kwargs w = (Ok (source, counts, img), w1) ->
  bandpass ∈ ArtImager.filters self /\
  ArtImager.the_source w = SourceObject source /\
  exists mags img0 img1 img2,
    Source.mags source !! bandpass = Some mags /\
    ArtImager.mag_to_counts self mags bandpass (Qty (check_units exptime u_s))
      = Ok counts /\
    Imager.inject_stars (Source.x source) (Source.y source) counts
      (Source.xy_dim source) mask = Ok img0 /\
    ArtImager.inject_smooth_model self img0 source bandpass
      (Qty (check_units exptime u_s)) zpt w = (Ok img1, w1) /\
    bkg_stage source (check_units exptime u_s) bkg_file bkg_ori img1 img2 /\
    Imager.apply_seeing img2 psf kwargs = Ok img.
Proof.
  intros Hrun. unfold ArtImager.noise_free_counts in Hrun.
  step_in Hrun. apply check_bandpass_inv in Hstep.
  apply bind_Ok in Hrun. destruct Hrun as (obj & s & Hget & Hrun).
  unfold ArtImager.get_source in Hget. injection Hget as <- <-.
  step_in Hrun. apply check_source_inv in Hstep0.
  step_in Hrun. apply getitem_Ok in Hstep1.
  step_in Hrun. step_in Hrun.
  apply bind_Ok in Hrun. destruct Hrun as (img1 & s1 & Hsmooth & Hrun).
  apply bind_Ok in Hrun. destruct Hrun as (img2 & s2 & Hbkg & Hrun).
  step_in Hrun. apply ret_Ok in Hrun. destruct Hrun as [[= <- <- <-] ->].
  split; [assumption|]. split; [assumption|].
  exists a1, a3, img1, img2. repeat split; try assumption.
  - assert (s2 = s1) as ->; [|exact Hsmooth].
    destruct bkg_file as [file|].
    + step_in Hbkg. now apply lift_Ok in Hbkg.
    + now apply ret_Ok in Hbkg.
  - unfold bkg_stage. destruct bkg_file as [file|].
    + apply bind_Ok in Hbkg. destruct Hbkg as (temp & s3 & Himp & Hbkg).
      apply lift_Ok in Himp. destruct Himp as [Himp ->].
      apply lift_Ok in Hbkg. destruct Hbkg as [Hadd _].
      exists temp. split; [assumption|]. exact Hadd.
    + now apply ret_Ok in Hbkg.
Qed.

(** ** The stages of [ArtImager.observe] *)

Lemma observe_Ok_iff `{Externals} (self : ArtImager.t) (bandpass : string)
    (exptime : FloatOrQuantity) (sky_sb : option R) (psf : option ndarray)
    (zpt : R) (mask : option (list bool)) (bkg_file : option string)
    (bkg_ori : option (Z * Z)) (kwargs : option string)
    (w w' : ArtImager.World) (obs : ArtObservation.t) :
  ArtImager.observe self bandpass exptime sky_sb psf zpt mask bkg_file bkg_ori
    kwargs w = (Ok obs, w')
  <->
  exists source counts img w1 src_counts sky_counts mag_error
         raw_counts cali image_cali var g,
    ArtImager.noise_free_counts self bandpass exptime psf zpt mask bkg_file
      bkg_ori kwargs w = (Ok (source, counts, img), w1) /\
    sky_stage self sky_sb bandpass (check_units exptime u_s) source counts img
      src_counts sky_counts mag_error /\
    ArtImager.noise_and_calibration self src_counts sky_counts bandpass
      (check_units exptime u_s) zpt (ArtImager.the_rng w1)
      = (Ok (raw_counts, cali, image_cali, var), g) /\
    obs = {| ArtObservation.raw_counts := raw_counts;
             ArtObservation.src_counts := src_counts;
             ArtObservation.sky_counts := sky_counts;
             ArtObservation.image := image_cali;
             ArtObservation.var_image := var;
             ArtObservation.calibration := cali;
             ArtObservation.zpt := zpt;
             ArtObservation.bandpass := bandpass;
             ArtObservation.exptime := check_units exptime u_s;
             ArtObservation.mag_error := mag_error |} /\
    w' = {| ArtImager.the_source := ArtImager.the_source w1;
            ArtImager.the_rng := g |}.
Proof.
  split.
  - intros Hrun. unfold ArtImager.observe in Hrun.
    step_in Hrun. destruct a as [[source counts] img].
    step_in Hrun. destruct a as [[src_counts sky_counts] mag_error].
    step_in Hrun. destruct a as [[[raw_counts cali] image_cali] var].
    apply ret_Ok in Hrun. destruct Hrun as [-> ->].
    apply on_rng_Ok in Hstep1. destruct Hstep1 as (g & Hnoise & ->).
    exists source, counts, img, s, src_counts, sky_counts, mag_error,
           raw_counts, cali, image_cali, var, g.
    assert (Hsky : sky_stage self sky_sb bandpass (check_units exptime u_s)
                     source counts img src_counts sky_counts mag_error
                   /\ s0 = s).
    { unfold sky_stage. destruct sky_sb as [sb|].
      - step_in Hstep0. apply ret_Ok in Hstep0.
        destruct Hstep0 as [[= -> -> ->] ->]. auto.
      - apply ret_Ok in Hstep0. destruct Hstep0 as [[= -> -> ->] ->]. auto. }
    destruct Hsky as [Hsky ->]. auto 6.
  - intros (source & counts & img & w1 & src_counts & sky_counts & mag_error
            & raw_counts & cali & image_cali & var & g
            & Hpre & Hsky & Hnoise & -> & ->).
    unfold ArtImager.observe, bind. rewrite Hpre.
    unfold sky_stage in Hsky. destruct sky_sb as [sb|].
    + destruct Hsky as (Hsb & -> & ->). unfold lift. rewrite Hsb.
      unfold ret, ArtImager.on_rng. now rewrite Hnoise.
    + destruct Hsky as (-> & -> & ->).
      unfold ret, ArtImager.on_rng. now rewrite Hnoise.
Qed.

Lemma observe_background_Ok_inv `{Externals} (self : ArtImager.t)
    (bkg_file bandpass : string) (exptime : FloatOrQuantity) (xy_dim : Z * Z)
    (pixel_scale : Quantity) (sky_sb : option R) (psf : option ndarray)
    (zpt : R) (kwargs : option string) (g g' : RandomState)
    (obs : ArtObservation.t) :
  ArtImager.observe_background self bkg_file bandpass exptime xy_dim
    pixel_scale sky_sb psf zpt kwargs g = (Ok obs, g') ->
  exists bkg img src_counts sky_counts raw_counts cali image_cali var,
    ArtImager.import_bkg bkg_file (check_units exptime u_s) = Ok bkg /\
    Imager.apply_seeing bkg psf kwargs = Ok img /\
    match sky_sb with
    | Some sb =>
        ArtImager.sb_to_counts_per_pixel self sb bandpass
          (Qty (check_units exptime u_s)) pixel_scale = Ok sky_counts /\
        src_counts = img
    | None => src_counts = clip_negative img /\ sky_counts = 0
    end /\
    ArtImager.noise_and_calibration self src_counts sky_counts bandpass
      (check_units exptime u_s) zpt g
      = (Ok (raw_counts, cali, image_cali, var), g') /\
    obs = {| ArtObservation.raw_counts := raw_counts;
             ArtObservation.src_counts := src_counts;
             ArtObservation.sky_counts := sky_counts;
             ArtObservation.image := image_cali;
             ArtObservation.var_image := var;
             ArtObservation.calibration := cali;
             ArtObservation.zpt := zpt;
             ArtObservation.bandpass := bandpass;
             ArtObservation.exptime := check_units exptime u_s;
             ArtObservation.mag_error := None |}.
Proof.
  intros Hrun. unfold ArtImager.observe_background in Hrun.
  step_in Hrun. step_in Hrun. step_in Hrun. step_in Hrun.
  destruct a2 as [src_counts sky_counts].
  step_in Hrun. destruct a2 as [[[raw_counts cali] image_cali] var].
  apply ret_Ok in Hrun. destruct Hrun as [-> ->].
  exists a0, a1, src_counts, sky_counts, raw_counts, cali, image_cali, var.
  repeat split; try assumption.
  - destruct sky_sb as [sb|].
    + step_in Hstep2. apply ret_Ok in Hstep2.
      destruct Hstep2 as [[= -> ->] _]. auto.
    + apply ret_Ok in Hstep2. destruct Hstep2 as [[= -> ->] _]. auto.
  - destruct sky_sb as [sb|].
    + step_in Hstep2. apply ret_Ok in Hstep2. destruct Hstep2 as [_ ->].
      exact Hstep3.
    + apply ret_Ok in Hstep2. destruct Hstep2 as [_ ->]. exact Hstep3.
Qed.

(** ** The variance image *)

(** C5.  For every observation returned by the artificial pipeline the
    variance image is the raw-count image plus [(read_noise / gain)^2],
    pixel by pixel; with [read_noise = 0] and [gain = 1] it equals the
    raw-count image. *)
Theorem C5_variance_image `{Externals} (self : ArtImager.t)
    (obs : ArtObservation.t) :
  artificial_observation self obs ->
  shape (ArtObservation.var_image obs) = shape (ArtObservation.raw_counts obs) /\
  (forall i j,
      at_ (ArtObservation.var_image obs) i j
      = at_ (ArtObservation.raw_counts obs) i j
        + (ArtImager.read_noise self / ArtImager.gain self) ^ 2) /\
  (ArtImager.read_noise self = 0 -> ArtImager.gain self = 1 ->
   forall i j,
      at_ (ArtObservation.var_image obs) i j
      = at_ (ArtObservation.raw_counts obs) i j).
Proof.
  intros Hobs.
  assert (Hvar : ArtObservation.var_image obs
                 = amap (fun v => v + (ArtImager.read_noise self
                                       / ArtImager.gain self) ^ 2)
                     (ArtObservation.raw_counts obs)).
  { destruct Hobs as [Hobs|Hobs].
    - destruct Hobs as (bandpass & exptime & sky_sb & psf & zpt & mask
                        & bkg_file & bkg_ori & kwargs & w & w' & Hrun).
      apply observe_Ok_iff in Hrun.
      destruct Hrun as (source & counts & img & w1 & src_counts & sky_counts
                        & mag_error & raw_counts & cali & image_cali & var & g
                        & _ & _ & Hnoise & -> & _).
      apply noise_and_calibration_Ok in Hnoise.
      destruct Hnoise as (_ & _ & _ & ->). reflexivity.
    - destruct Hobs as (bkg_file & bandpass & exptime & xy_dim & pixel_scale
                        & sky_sb & psf & zpt & kwargs & g & g' & Hrun).
      apply observe_background_Ok_inv in Hrun.
      destruct Hrun as (bkg & img & src_counts & sky_counts & raw_counts & cali
                        & image_cali & var & _ & _ & _ & Hnoise & ->).
      apply noise_and_calibration_Ok in Hnoise.
      destruct Hnoise as (_ & _ & _ & ->). reflexivity. }
  rewrite Hvar. split; [reflexivity|]. split; [reflexivity|].
  intros Hrn Hg i j. simpl. rewrite Hrn, Hg. lra.
Qed.

(** ** Running the pipeline *)

(** A source whose [smooth_model] attribute is missing or is [None] is
    left alone by [inject_smooth_model], and so is the image. *)
Lemma art_inject_smooth_model_absent `{Externals} (self : ArtImager.t)
    (image : ndarray) (source : Source.t) (bandpass : string)
    (exptime : FloatOrQuantity) (zpt : R) :
  has_smooth_model (SourceObject source) = false ->
  ArtImager.inject_smooth_model self image source bandpass exptime zpt
  = ret image.
Proof.
  intros Hmodel. unfold ArtImager.inject_smooth_model.
  cbn [has_smooth_model] in Hmodel.
  now destruct (Source.smooth_model source) as [[model|]|].
Qed.

Lemma ideal_inject_smooth_model_absent (image : ndarray) (source : Source.t)
    (bandpass : string) (zpt : R) :
  has_smooth_model (SourceObject source) = false ->
  IdealImager.inject_smooth_model image source bandpass zpt = ret image.
Proof.
  intros Hmodel. unfold IdealImager.inject_smooth_model.
  cbn [has_smooth_model] in Hmodel.
  now destruct (Source.smooth_model source) as [[model|]|].
Qed.

(** The stages before the noise for a source without smooth component and
    without PSF. *)
Lemma noise_free_counts_plain `{Externals} (self : ArtImager.t)
    (bandpass : string) (exptime : FloatOrQuantity) (zpt : R)
    (mask : option (list bool)) (bkg_file : option string)
    (bkg_ori : option (Z * Z)) (kwargs : option string) (w : ArtImager.World)
    (source : Source.t) (mags counts : list R) (img0 img : ndarray) :
  bandpass ∈ ArtImager.filters self ->
  ArtImager.the_source w = SourceObject source ->
  Source.mags source !! bandpass = Some mags ->
  ArtImager.mag_to_counts self mags bandpass (Qty (check_units exptime u_s))
    = Ok counts ->
  Imager.inject_stars (Source.x source) (Source.y source) counts
    (Source.xy_dim source) mask = Ok img0 ->
  has_smooth_model (SourceObject source) = false ->
  bkg_stage source (check_units exptime u_s) bkg_file bkg_ori img0 img ->
  ArtImager.noise_free_counts self bandpass exptime None zpt mask bkg_file
    bkg_ori kwargs w = (Ok (source, counts, img), w).
Proof.
  intros Hin Hsrc Hmags Hcounts Hstars Hmodel Hbkg.
  unfold ArtImager.noise_free_counts.
  rewrite bind_lift, (check_bandpass_Ok _ _ Hin).
  unfold bind at 1, ArtImager.get_source. rewrite Hsrc.
  rewrite bind_lift. simpl Imager._check_source. cbv beta iota.
  apply getitem_Ok in Hmags. rewrite bind_lift, Hmags.
  rewrite bind_lift, Hcounts. rewrite bind_lift, Hstars.
  rewrite (art_inject_smooth_model_absent _ _ _ _ _ _ Hmodel).
  unfold bind at 1, ret at 1.
  unfold bkg_stage in Hbkg. destruct bkg_file as [file|].
  - destruct Hbkg as (temp & Himp & Hadd).
    unfold bind at 1. rewrite bind_lift, Himp. unfold lift at 1.
    cbv zeta in Hadd. simpl fst. simpl snd. rewrite Hadd.
    now rewrite bind_lift.
  - subst img. unfold bind at 1, ret at 1. now rewrite bind_lift.
Qed.

Section ReferenceRuns.

#[local] Existing Instance Reference.externals.

(** With the reference generator and no read noise, the noise tail
    succeeds whenever the gain is not zero and the calibration factor is
    defined; the raw counts are then the expected counts. *)
Lemma reference_noise_and_calibration (self : ArtImager.t)
    (src_counts : ndarray) (sky_counts : R) (bandpass : string)
    (exptime : Quantity) (zpt cali : R) :
  ArtImager.gain self <> 0 ->
  ArtImager.read_noise self = 0 ->
  ArtImager.calibration self bandpass (Qty exptime) zpt = Ok cali ->
  exists raw_counts image_cali var,
    ArtImager.noise_and_calibration self src_counts sky_counts bandpass
      exptime zpt tt = (Ok (raw_counts, cali, image_cali, var), tt) /\
    shape raw_counts = shape src_counts.
Proof.
  intros Hg Hrn Hcali. unfold ArtImager.noise_and_calibration.
  simpl sys_platform. simpl String.eqb. cbv iota.
  rewrite Hrn. destruct (Rlt_dec 0 0) as [Hlt|_]; [lra|].
  unfold py_div. destruct (Req_dec_T (ArtImager.gain self) 0) as [|_];
    [contradiction|].
  unfold bind, ret, lift. simpl rng_poisson. unfold ret. rewrite Hcali.
  eexists _, _, _. split; reflexivity.
Qed.

Lemma reference_imager_filters : "F" ∈ ArtImager.filters Reference.imager.
Proof.
  apply init_zpt_inst_filters. rewrite lookup_singleton_eq. eauto.
Qed.

Lemma reference_counts :
  ArtImager.mag_to_counts Reference.imager [25] "F"
    (Qty {| qvalue := 100; qunit := u_s |}) = Ok [100].
Proof.
  rewrite (mag_to_counts_empirical _ {["F" := 25]} 25 [25] "F" _
             {| qvalue := 100 * 1 / 1; qunit := u_s |});
    [|reflexivity|apply lookup_singleton_eq|reflexivity].
  simpl. do 2 f_equal.
  replace (0.4 * (25 - 25)) with 0 by lra.
  rewrite Rpower_10_0. lra.
Qed.

Lemma reference_sky :
  ArtImager.sb_to_counts_per_pixel Reference.imager 25 "F"
    (Qty {| qvalue := 100; qunit := u_s |})
    {| qvalue := 1; qunit := u_arcsec_per_pix |} = Ok 100.
Proof.
  unfold ArtImager.sb_to_counts_per_pixel, getitem. simpl ArtImager.zpt_inst.
  cbv iota. rewrite lookup_singleton_eq. simpl. f_equal.
  replace (0.4 * (25 - 25)) with 0 by lra.
  rewrite Rpower_10_0. lra.
Qed.

Lemma reference_calibration :
  ArtImager.calibration Reference.imager "F"
    (Qty {| qvalue := 100; qunit := u_s |}) 27
  = Ok (Rpower 10 (0.4 * (27 - 25)) / (100 * 1 / 1)).
Proof.
  unfold ArtImager.calibration, getitem. simpl ArtImager.zpt_inst.
  cbv iota. rewrite lookup_singleton_eq. reflexivity.
Qed.

End ReferenceRuns.

(** ** The sky branch *)

Lemma clip_negative_spec (img : ndarray) (i j : nat) :
  0 <= at_ (clip_negative img) i j /\
  (at_ img i j < 0 -> at_ (clip_negative img) i j = 0) /\
  (0 <= at_ img i j -> at_ (clip_negative img) i j = at_ img i j).
Proof.
  simpl. destruct (Rlt_dec (at_ img i j) 0); repeat split; intros; lra.
Qed.

(** C6.  Without a sky surface brightness, [observe] returns an observation
    exactly when the stages before the sky branch and the noise synthesis
    succeed: the missing sky raises nothing.  The noise is then synthesized
    from the clipped image with a sky level of zero; the observation carries
    the clipped image, which has no negative pixel, [sky_counts = 0] and no
    magnitude error. *)
Theorem C6_observe_without_sky `{Externals} (self : ArtImager.t)
    (bandpass : string) (exptime : FloatOrQuantity) (psf : option ndarray)
    (zpt : R) (mask : option (list bool)) (bkg_file : option string)
    (bkg_ori : option (Z * Z)) (kwargs : option string)
    (w w' : ArtImager.World) (obs : ArtObservation.t) :
  (ArtImager.observe self bandpass exptime None psf zpt mask bkg_file bkg_ori
     kwargs w = (Ok obs, w')
   <->
   exists source counts img w1 raw_counts cali image_cali var g,
     ArtImager.noise_free_counts self bandpass exptime psf zpt mask bkg_file
       bkg_ori kwargs w = (Ok (source, counts, img), w1) /\
     ArtImager.noise_and_calibration self (clip_negative img) 0 bandpass
       (check_units exptime u_s) zpt (ArtImager.the_rng w1)
       = (Ok (raw_counts, cali, image_cali, var), g) /\
     obs = {| ArtObservation.raw_counts := raw_counts;
              ArtObservation.src_counts := clip_negative img;
              ArtObservation.sky_counts := 0;
              ArtObservation.image := image_cali;
              ArtObservation.var_image := var;
              ArtObservation.calibration := cali;
              ArtObservation.zpt := zpt;
              ArtObservation.bandpass := bandpass;
              ArtObservation.exptime := check_units exptime u_s;
              ArtObservation.mag_error := None |} /\
     w' = {| ArtImager.the_source := ArtImager.the_source w1;
             ArtImager.the_rng := g |})
  /\
  (forall img i j,
      0 <= at_ (clip_negative img) i j /\
      (at_ img i j < 0 -> at_ (clip_negative img) i j = 0) /\
      (0 <= at_ img i j -> at_ (clip_negative img) i j = at_ img i j)).
Proof.
  split; [|apply clip_negative_spec].
  rewrite observe_Ok_iff. split.
  - intros (source & counts & img & w1 & src_counts & sky_counts & mag_error
            & raw_counts & cali & image_cali & var & g
            & Hpre & (-> & -> & ->) & Hnoise & -> & ->).
    exists source, counts, img, w1, raw_counts, cali, image_cali, var, g. auto.
  - intros (source & counts & img & w1 & raw_counts & cali & image_cali & var
            & g & Hpre & Hnoise & -> & ->).
    exists source, counts, img, w1, (clip_negative img), 0, None,
           raw_counts, cali, image_cali, var, g.
    unfold sky_stage. auto 7.
Qed.

(** The reference imager observes the reference star without sky. *)
Lemma C6_witness :
  exists obs w',
    @ArtImager.observe Reference.externals Reference.imager "F" (Float 100)
      None None 27 None None None None
      (Reference.world (SourceObject Reference.star)) = (Ok obs, w') /\
    ArtObservation.sky_counts obs = 0 /\
    ArtObservation.mag_error obs = None.
Proof.
  destruct (reference_noise_and_calibration Reference.imager
              (clip_negative
                 (transpose
                    {| nrows := Z.to_nat 3; ncols := Z.to_nat 3;
                       at_ := hist_sum 3 3 (0, IZR (3 - 1)) (0, IZR (3 - 1))
                                [1] [1] [100] |}))
              0 "F" {| qvalue := 100; qunit := u_s |} 27 _
              ltac:(simpl; lra) eq_refl reference_calibration)
    as (raw_counts & image_cali & var & Hnoise & _).
  eexists _, _. split.
  - apply (proj2 (proj1 (C6_observe_without_sky (H := Reference.externals)
                    Reference.imager "F" (Float 100) None 27 None None None None
                    (Reference.world (SourceObject Reference.star)) _ _))).
    eexists _, _, _, _, _, _, _, _, _.
    split; [|split; [|split; reflexivity]].
    + apply noise_free_counts_plain with (mags := [25]) (img0 := transpose
        {| nrows := Z.to_nat 3; ncols := Z.to_nat 3;
           at_ := hist_sum 3 3 (0, IZR (3 - 1)) (0, IZR (3 - 1)) [1] [1] [100] |});
        [apply reference_imager_filters|reflexivity|apply lookup_singleton_eq
        |apply reference_counts
        |apply inject_stars_Ok; [lia|lia|reflexivity|reflexivity]
        |reflexivity|reflexivity].
    + exact Hnoise.
  - split; reflexivity.
Defined.

(** The reference star over the background frame: the stages before the
    noise succeed and leave a negative value in pixel (0, 0). *)
Lemma reference_noise_free_counts_bkg :
  exists img,
    @ArtImager.noise_free_counts Reference.externals Reference.imager "F"
      (Float 100) None 27 None (Some "bkg.fits") None None
      (Reference.world (SourceObject Reference.star))
    = (Ok (Reference.star, [100], img),
       Reference.world (SourceObject Reference.star)) /\
    shape img = (3%nat, 3%nat) /\
    at_ img 0%nat 0%nat < 0.
Proof.
  eexists. split; [|split].
  - apply noise_free_counts_plain with (mags := [25]) (img0 := transpose
      {| nrows := Z.to_nat 3; ncols := Z.to_nat 3;
         at_ := hist_sum 3 3 (0, IZR (3 - 1)) (0, IZR (3 - 1)) [1] [1] [100] |});
      [apply reference_imager_filters|reflexivity|apply lookup_singleton_eq
      |apply reference_counts
      |apply inject_stars_Ok; [lia|lia|reflexivity|reflexivity]
      |reflexivity|].
    unfold bkg_stage. eexists. split; reflexivity.
  - reflexivity.
  - simpl. rewrite (in_bin_interior 3 1 0) by lia. simpl. lra.
Qed.

(** The reference imager observes the reference star over the background
    frame with a sky of 25 mag per square arcsec. *)
Lemma reference_observe_with_sky :
  exists img raw_counts image_cali var,
    @ArtImager.observe Reference.externals Reference.imager "F" (Float 100)
      (Some 25) None 27 None (Some "bkg.fits") None None
      (Reference.world (SourceObject Reference.star))
    = (Ok {| ArtObservation.raw_counts := raw_counts;
             ArtObservation.src_counts := img;
             ArtObservation.sky_counts := 100;
             ArtObservation.image := image_cali;
             ArtObservation.var_image := var;
             ArtObservation.calibration :=
               Rpower 10 (0.4 * (27 - 25)) / (100 * 1 / 1);
             ArtObservation.zpt := 27;
             ArtObservation.bandpass := "F";
             ArtObservation.exptime := {| qvalue := 100; qunit := u_s |};
             ArtObservation.mag_error :=
               Some (ArtImager.mag_error_of Reference.imager 100 [100]) |},
       Reference.world (SourceObject Reference.star)) /\
    shape img = (3%nat, 3%nat) /\
    at_ img 0%nat 0%nat < 0.
Proof.
  destruct reference_noise_free_counts_bkg as (img & Hpre & Hshape & Hneg).
  destruct (reference_noise_and_calibration Reference.imager img 100 "F"
              {| qvalue := 100; qunit := u_s |} 27 _
              ltac:(simpl; lra) eq_refl reference_calibration)
    as (raw_counts & image_cali & var & Hnoise & _).
  exists img, raw_counts, image_cali, var. split; [|split; assumption].
  apply observe_Ok_iff.
  exists Reference.star, [100], img,
         (Reference.world (SourceObject Reference.star)), img, 100,
         (Some (ArtImager.mag_error_of Reference.imager 100 [100])),
         raw_counts, (Rpower 10 (0.4 * (27 - 25)) / (100 * 1 / 1)),
         image_cali, var, tt.
  split; [exact Hpre|]. split; [|split; [exact Hnoise|split; reflexivity]].
  unfold sky_stage. split; [exact reference_sky|]. split; reflexivity.
Qed.

(** C10.  With a sky surface brightness, [observe] hands the noise-free
    image to the noise synthesis as it is and returns it as [src_counts]:
    nothing is clipped.  The same holds for [observe_background].  The
    reference star over a background frame of negative values is returned
    with a negative [src_counts] pixel. *)
Theorem C10_sky_branch_does_not_clip :
  (forall (E : Externals) (self : ArtImager.t) (bandpass : string)
          (exptime : FloatOrQuantity) (sb : R) (psf : option ndarray) (zpt : R)
          (mask : option (list bool)) (bkg_file : option string)
          (bkg_ori : option (Z * Z)) (kwargs : option string)
          (w w' : ArtImager.World) (obs : ArtObservation.t),
      ArtImager.observe self bandpass exptime (Some sb) psf zpt mask bkg_file
        bkg_ori kwargs w = (Ok obs, w')
      <->
      exists source counts img w1 sky_counts raw_counts cali image_cali var g,
        ArtImager.noise_free_counts self bandpass exptime psf zpt mask
          bkg_file bkg_ori kwargs w = (Ok (source, counts, img), w1) /\
        ArtImager.sb_to_counts_per_pixel self sb bandpass
          (Qty (check_units exptime u_s)) (Source.pixel_scale source)
          = Ok sky_counts /\
        ArtImager.noise_and_calibration self img sky_counts bandpass
          (check_units exptime u_s) zpt (ArtImager.the_rng w1)
          = (Ok (raw_counts, cali, image_cali, var), g) /\
        obs = {| ArtObservation.raw_counts := raw_counts;
                 ArtObservation.src_counts := img;
                 ArtObservation.sky_counts := sky_counts;
                 ArtObservation.image := image_cali;
                 ArtObservation.var_image := var;
                 ArtObservation.calibration := cali;
                 ArtObservation.zpt := zpt;
                 ArtObservation.bandpass := bandpass;
                 ArtObservation.exptime := check_units exptime u_s;
                 ArtObservation.mag_error :=
                   Some (ArtImager.mag_error_of self sky_counts counts) |} /\
        w' = {| ArtImager.the_source := ArtImager.the_source w1;
                ArtImager.the_rng := g |})
  /\
  (forall (E : Externals) (self : ArtImager.t) (bkg_file bandpass : string)
          (exptime : FloatOrQuantity) (xy_dim : Z * Z) (pixel_scale : Quantity)
          (sb : R) (psf : option ndarray) (zpt : R) (kwargs : option string)
          (g g' : RandomState) (obs : ArtObservation.t),
      ArtImager.observe_background self bkg_file bandpass exptime xy_dim
        pixel_scale (Some sb) psf zpt kwargs g = (Ok obs, g') ->
      exists bkg,
        ArtImager.import_bkg bkg_file (check_units exptime u_s) = Ok bkg /\
        Imager.apply_seeing bkg psf kwargs = Ok (ArtObservation.src_counts obs))
  /\
  (exists obs w',
      @ArtImager.observe Reference.externals Reference.imager "F" (Float 100)
        (Some 25) None 27 None (Some "bkg.fits") None None
        (Reference.world (SourceObject Reference.star)) = (Ok obs, w') /\
      at_ (ArtObservation.src_counts obs) 0%nat 0%nat < 0).
Proof.
  split; [|split].
  - intros. rewrite observe_Ok_iff. split.
    + intros (source & counts & img & w1 & src_counts & sky_counts & mag_error
              & raw_counts & cali & image_cali & var & g
              & Hpre & (Hsky & -> & ->) & Hnoise & -> & ->).
      exists source, counts, img, w1, sky_counts, raw_counts, cali, image_cali,
             var, g. auto.
    + intros (source & counts & img & w1 & sky_counts & raw_counts & cali
              & image_cali & var & g & Hpre & Hsky & Hnoise & -> & ->).
      exists source, counts, img, w1, img, sky_counts,
             (Some (ArtImager.mag_error_of self sky_counts counts)),
             raw_counts, cali, image_cali, var, g.
      unfold sky_stage. auto 8.
  - intros E self bkg_file bandpass exptime xy_dim pixel_scale sb psf zpt
           kwargs g g' obs Hrun.
    apply observe_background_Ok_inv in Hrun.
    destruct Hrun as (bkg & img & src_counts & sky_counts & raw_counts & cali
                      & image_cali & var & Himp & Hsee & (_ & ->) & _ & ->).
    exists bkg. auto.
  - destruct reference_observe_with_sky
      as (img & raw_counts & image_cali & var & Hrun & _ & Hneg).
    eexists _, _. split; [exact Hrun|exact Hneg].
Qed.

(** The reference run with sky, and its decomposition. *)
Lemma C10_witness :
  exists obs w',
    @ArtImager.observe Reference.externals Reference.imager "F" (Float 100)
      (Some 25) None 27 None (Some "bkg.fits") None None
      (Reference.world (SourceObject Reference.star)) = (Ok obs, w') /\
    exists source counts img w1 sky_counts raw_counts cali image_cali var g,
      @ArtImager.noise_free_counts Reference.externals Reference.imager "F"
        (Float 100) None 27 None (Some "bkg.fits") None None
        (Reference.world (SourceObject Reference.star))
      = (Ok (source, counts, img), w1) /\
      @ArtImager.noise_and_calibration Reference.externals Reference.imager
        img sky_counts "F" {| qvalue := 100; qunit := u_s |} 27
        (ArtImager.the_rng w1)
      = (Ok (raw_counts, cali, image_cali, var), g) /\
      ArtObservation.src_counts obs = img.
Proof.
  destruct reference_observe_with_sky
    as (img & raw_counts & image_cali & var & Hrun & _ & Hneg).
  eexists _, _. split; [exact Hrun|].
  apply (proj1 (proj1 C10_sky_branch_does_not_clip Reference.externals
                  Reference.imager "F" (Float 100) 25 None 27 None
                  (Some "bkg.fits") None None _ _ _)) in Hrun.
  destruct Hrun as (source & counts & img' & w1 & sky_counts & raw_counts'
                    & cali & image_cali' & var' & g & Hpre & Hsky & Hnoise
                    & Hobs & Hw).
  exists source, counts, img', w1, sky_counts, raw_counts', cali, image_cali',
         var', g.
  split; [exact Hpre|]. split; [exact Hnoise|].
  rewrite Hobs. reflexivity.
Defined.

(** ** The magnitude error *)

Lemma mag_to_counts_length `{Externals} (self : ArtImager.t) (mags : list R)
    (bandpass : string) (exptime : FloatOrQuantity) (counts : list R) :
  ArtImager.mag_to_counts self mags bandpass exptime = Ok counts ->
  length counts = length mags.
Proof.
  unfold ArtImager.mag_to_counts. destruct (ArtImager.zpt_inst self).
  - intros Hrun.
    apply rbind_Ok in Hrun. destruct Hrun as (zp & _ & Hrun).
    apply rbind_Ok in Hrun. destruct Hrun as (t & _ & [= <-]).
    now rewrite !length_map.
  - intros Hrun.
    repeat (apply rbind_Ok in Hrun; destruct Hrun as (? & _ & Hrun)).
    injection Hrun as <-. now rewrite !length_map.
Qed.

(** C8, as the code has it.  When a sky surface brightness is supplied, the
    magnitude error of the observation is a 1-D array with one entry per
    star of the source: [2.5 * log10 (1 + n_s)] with
    [n_s = sqrt (read_noise^2 + sky_counts * gain + counts * gain)
           / (counts * gain)],
    where [counts] is the expected count of that star as [mag_to_counts]
    returns it, not a pixel of the noise-free image. *)
Theorem C8_mag_error_per_star `{Externals} (self : ArtImager.t)
    (bandpass : string) (exptime : FloatOrQuantity) (sb : R)
    (psf : option ndarray) (zpt : R) (mask : option (list bool))
    (bkg_file : option string) (bkg_ori : option (Z * Z))
    (kwargs : option string) (w w' : ArtImager.World)
    (obs : ArtObservation.t) :
  ArtImager.observe self bandpass exptime (Some sb) psf zpt mask bkg_file
    bkg_ori kwargs w = (Ok obs, w') ->
  exists source mags counts,
    ArtImager.the_source w = SourceObject source /\
    Source.mags source !! bandpass = Some mags /\
    ArtImager.mag_to_counts self mags bandpass (Qty (check_units exptime u_s))
      = Ok counts /\
    length counts = length mags /\
    ArtImager.sb_to_counts_per_pixel self sb bandpass
      (Qty (check_units exptime u_s)) (Source.pixel_scale source)
      = Ok (ArtObservation.sky_counts obs) /\
    ArtObservation.mag_error obs
    = Some (map (fun c =>
                   2.5 * log10
                     (1 + sqrt (ArtImager.read_noise self ^ 2
                                + ArtObservation.sky_counts obs * ArtImager.gain self
                                + c * ArtImager.gain self)
                          / (c * ArtImager.gain self)))
              counts).
Proof.
  intros Hrun. apply observe_Ok_iff in Hrun.
  destruct Hrun as (source & counts & img & w1 & src_counts & sky_counts
                    & mag_error & raw_counts & cali & image_cali & var & g
                    & Hpre & (Hsky & -> & ->) & _ & -> & _).
  apply noise_free_counts_Ok_inv in Hpre.
  destruct Hpre as (_ & Hsrc & mags & img0 & img1 & img2 & Hmags & Hcounts & _).
  exists source, mags, counts. simpl.
  repeat split; try assumption.
  - now apply mag_to_counts_length in Hcounts.
  - unfold ArtImager.mag_error_of. now rewrite map_map.
Qed.

(** On the reference run the magnitude error has the single entry of the
    single star. *)
Lemma C8_witness :
  exists obs w',
    @ArtImager.observe Reference.externals Reference.imager "F" (Float 100)
      (Some 25) None 27 None (Some "bkg.fits") None None
      (Reference.world (SourceObject Reference.star)) = (Ok obs, w') /\
    exists source mags counts,
      Source.mags source !! "F" = Some mags /\
      length counts = length mags /\
      ArtObservation.mag_error obs
      = Some (map (fun c =>
                     2.5 * log10
                       (1 + sqrt (ArtImager.read_noise Reference.imager ^ 2
                                  + ArtObservation.sky_counts obs
                                    * ArtImager.gain Reference.imager
                                  + c * ArtImager.gain Reference.imager)
                            / (c * ArtImager.gain Reference.imager)))
                counts).
Proof.
  destruct reference_observe_with_sky
    as (img & raw_counts & image_cali & var & Hrun & _ & _).
  eexists _, _. split; [exact Hrun|].
  destruct (C8_mag_error_per_star (H := Reference.externals) _ _ _ _ _ _ _ _ _
              _ _ _ _ Hrun)
    as (source & mags & counts & _ & Hmags & _ & Hlen & _ & Herr).
  exists source, mags, counts. split; [exact Hmags|]. split; [exact Hlen|].
  exact Herr.
Defined.

(** C8 as stated fails: the reference imager observes one star on a 3 x 3
    grid with a sky level; the magnitude error returned has one entry, not
    one per pixel. *)
Lemma C8_counterexample :
  exists obs w',
    @ArtImager.observe Reference.externals Reference.imager "F" (Float 100)
      (Some 25) None 27 None (Some "bkg.fits") None None
      (Reference.world (SourceObject Reference.star)) = (Ok obs, w') /\
    shape (ArtObservation.src_counts obs) = (3%nat, 3%nat) /\
    (exists e, ArtObservation.mag_error obs = Some [e]) /\
    ~ per_pixel_mag_error Reference.imager obs.
Proof.
  destruct reference_observe_with_sky
    as (img & raw_counts & image_cali & var & Hrun & Hshape & _).
  eexists _, _. split; [exact Hrun|]. simpl.
  split; [exact Hshape|]. split; [eexists; reflexivity|].
  unfold per_pixel_mag_error. simpl. intros (me & [= <-] & Hlen & _).
  unfold shape in Hshape. injection Hshape as Hr Hc.
  rewrite Hr, Hc in Hlen. simpl in Hlen. lia.
Qed.

(** ** Shapes *)

Lemma apply_seeing_shape `{Externals} (image : ndarray) (psf : option ndarray)
    (kwargs : option string) (image' : ndarray) :
  shape_preserving _ ->
  Imager.apply_seeing image psf kwargs = Ok image' ->
  shape image' = shape image.
Proof.
  intros (Hconv & _). unfold Imager.apply_seeing. destruct psf as [kernel|].
  - apply Hconv.
  - now intros [= <-].
Qed.

Lemma noise_and_calibration_shape `{Externals} (self : ArtImager.t)
    (src_counts : ndarray) (sky_counts : R) (bandpass : string)
    (exptime : Quantity) (zpt : R) (g g' : RandomState)
    (raw_counts image_cali var : ndarray) (cali : R) :
  shape_preserving _ ->
  ArtImager.noise_and_calibration self src_counts sky_counts bandpass exptime
    zpt g = (Ok (raw_counts, cali, image_cali, var), g') ->
  shape raw_counts = shape src_counts /\
  shape image_cali = shape src_counts /\
  shape var = shape src_counts.
Proof.
  intros (_ & Hpois & Hnorm & _) Hrun.
  destruct (noise_and_calibration_Ok _ _ _ _ _ _ _ _ _ _ _ _ Hrun)
    as (_ & _ & -> & ->).
  assert (Hraw : shape raw_counts = shape src_counts); [|auto].
  unfold ArtImager.noise_and_calibration in Hrun.
  apply bind_Ok in Hrun. destruct Hrun as (raw0 & g0 & Hdraw & Hrun).
  apply bind_Ok in Hrun. destruct Hrun as (raw1 & g1 & Hread & Hrun).
  step_in Hrun. step_in Hrun. apply ret_Ok in Hrun.
  destruct Hrun as [[= <- _] _].
  assert (Hraw0 : shape raw0 = shape src_counts).
  { destruct (String.eqb sys_platform "win32").
    - now apply Hnorm in Hdraw.
    - apply bind_Ok in Hdraw. destruct Hdraw as (p & g2 & Hp & Hret).
      apply ret_Ok in Hret. destruct Hret as [-> _].
      now apply Hpois in Hp. }
  destruct (Rlt_dec 0 (ArtImager.read_noise self)).
  - step_in Hread.
    apply bind_Ok in Hread. destruct Hread as (rn & g3 & _ & Hret).
    apply ret_Ok in Hret. destruct Hret as [-> _]. exact Hraw0.
  - apply ret_Ok in Hread. destruct Hread as [-> _]. exact Hraw0.
Qed.

Lemma ideal_observe_Ok_inv `{Externals} (self : IdealImager.t)
    (bandpass : string) (psf : option ndarray) (zpt : R)
    (mask : option (list bool)) (kwargs : option string) (o o' : PyObject)
    (obs : IdealObservation.t) :
  IdealImager.observe self bandpass psf zpt mask kwargs o = (Ok obs, o') ->
  exists source mags img0 img1,
    o = SourceObject source /\
    Source.mags source !! bandpass = Some mags /\
    Imager.inject_stars (Source.x source) (Source.y source)
      (map (fun m => Rpower 10 (0.4 * (zpt - m))) mags)
      (Source.xy_dim source) mask = Ok img0 /\
    IdealImager.inject_smooth_model img0 source bandpass zpt o = (Ok img1, o') /\
    Imager.apply_seeing img1 psf kwargs = Ok (IdealObservation.image obs) /\
    IdealObservation.zpt obs = zpt /\
    IdealObservation.bandpass obs = bandpass.
Proof.
  intros Hrun. unfold IdealImager.observe in Hrun.
  apply bind_Ok in Hrun. destruct Hrun as (obj & s & Hget & Hrun).
  unfold get in Hget. injection Hget as <- <-.
  apply bind_Ok in Hrun. destruct Hrun as (source & s & Hsrc & Hrun).
  apply lift_Ok in Hsrc. destruct Hsrc as [Hsrc ->].
  apply check_source_inv in Hsrc.
  apply bind_Ok in Hrun. destruct Hrun as (mags & s & Hmags & Hrun).
  apply lift_Ok in Hmags. destruct Hmags as [Hmags ->].
  apply getitem_Ok in Hmags.
  apply bind_Ok in Hrun. destruct Hrun as (img0 & s & Hstars & Hrun).
  apply lift_Ok in Hstars. destruct Hstars as [Hstars ->].
  apply bind_Ok in Hrun. destruct Hrun as (img1 & s & Hsmooth & Hrun).
  apply bind_Ok in Hrun. destruct Hrun as (img2 & s2 & Hsee & Hrun).
  apply lift_Ok in Hsee. destruct Hsee as [Hsee ->].
  apply ret_Ok in Hrun. destruct Hrun as [-> ->].
  exists source, mags, img0, img1. simpl. auto 8.
Qed.

(** C9, as the code has it.  The libraries keeping shapes, every 2-D array
    of the pipeline of a source with [xy_dim = (d0, d1)] has [d1] rows and
    [d0] columns: the rasterized image is the transposed histogram, each
    later stage (smooth model, background cutout, seeing) keeps the shape
    of its input, and so do the image of an ideal observation and the
    source-count, raw-count, calibrated and variance images of an artificial
    one.  The shape is [xy_dim] itself only when [d0 = d1]. *)
Theorem C9_image_shapes `{Externals} :
  shape_preserving _ ->
  (forall x y signal xy_dim mask image,
      Imager.inject_stars x y signal xy_dim mask = Ok image ->
      shape image = (Z.to_nat (snd xy_dim), Z.to_nat (fst xy_dim))) /\
  (forall image source bandpass zpt image' o',
      IdealImager.inject_smooth_model image source bandpass zpt
        (SourceObject source) = (Ok image', o') ->
      shape image' = shape image) /\
  (forall self image source bandpass exptime zpt w image' w',
      ArtImager.the_source w = SourceObject source ->
      ArtImager.inject_smooth_model self image source bandpass exptime zpt w
        = (Ok image', w') ->
      shape image' = shape image) /\
  (forall source exptime bkg_file bkg_ori image image',
      bkg_stage source exptime bkg_file bkg_ori image image' ->
      shape image' = shape image) /\
  (forall image psf kwargs image',
      Imager.apply_seeing image psf kwargs = Ok image' ->
      shape image' = shape image) /\
  (forall self bandpass psf zpt mask kwargs source obs o',
      IdealImager.observe self bandpass psf zpt mask kwargs
        (SourceObject source) = (Ok obs, o') ->
      shape (IdealObservation.image obs)
      = (Z.to_nat (snd (Source.xy_dim source)),
         Z.to_nat (fst (Source.xy_dim source)))) /\
  (forall self bandpass exptime sky_sb psf zpt mask bkg_file bkg_ori kwargs
          w source obs w',
      ArtImager.the_source w = SourceObject source ->
      ArtImager.observe self bandpass exptime sky_sb psf zpt mask bkg_file
        bkg_ori kwargs w = (Ok obs, w') ->
      let s := (Z.to_nat (snd (Source.xy_dim source)),
                Z.to_nat (fst (Source.xy_dim source))) in
      shape (ArtObservation.src_counts obs) = s /\
      shape (ArtObservation.raw_counts obs) = s /\
      shape (ArtObservation.image obs) = s /\
      shape (ArtObservation.var_image obs) = s).
Proof.
  intros Hext.
  assert (Hbkg : forall source exptime bkg_file bkg_ori image image',
             bkg_stage source exptime bkg_file bkg_ori image image' ->
             shape image' = shape image).
  { intros source exptime bkg_file bkg_ori image image'. unfold bkg_stage.
    destruct bkg_file as [file|]; [|now intros ->].
    intros (temp & _ & Hadd). cbv zeta in Hadd. now apply iadd_shape in Hadd. }
  split; [exact inject_stars_shape|].
  split.
  { intros image source bandpass zpt image' o' Hrun.
    now apply (ideal_inject_smooth_model_store _ _ _ _ _ _ Hrun). }
  split.
  { intros self image source bandpass exptime zpt w image' w' Hsrc Hrun.
    now apply (art_inject_smooth_model_store _ _ _ _ _ _ _ _ _ Hsrc Hrun). }
  split; [exact Hbkg|].
  split.
  { intros image psf kwargs image'. now apply apply_seeing_shape. }
  split.
  - intros self bandpass psf zpt mask kwargs source obs o' Hrun.
    apply ideal_observe_Ok_inv in Hrun.
    destruct Hrun as (source' & mags & img0 & img1 & [= <-] & _ & Hstars
                      & Hsmooth & Hsee & _).
    apply inject_stars_shape in Hstars.
    apply (apply_seeing_shape _ _ _ _ Hext) in Hsee.
    apply ideal_inject_smooth_model_store in Hsmooth.
    destruct Hsmooth as [_ Hsmooth]. rewrite Hsee, (Hsmooth _ eq_refl).
    exact Hstars.
  - intros self bandpass exptime sky_sb psf zpt mask bkg_file bkg_ori kwargs
           w source obs w' Hsrc Hrun s.
    apply observe_Ok_iff in Hrun.
    destruct Hrun as (source' & counts & img & w1 & src_counts & sky_counts
                      & mag_error & raw_counts & cali & image_cali & var & g
                      & Hpre & Hsky & Hnoise & -> & _).
    apply noise_free_counts_Ok_inv in Hpre.
    destruct Hpre as (_ & Hsrc' & mags & img0 & img1 & img2 & _ & _ & Hstars
                      & Hsmooth & Hb & Hsee).
    rewrite Hsrc in Hsrc'. injection Hsrc' as <-.
    apply inject_stars_shape in Hstars.
    apply (art_inject_smooth_model_store _ _ _ _ _ _ _ _ _ Hsrc) in Hsmooth.
    destruct Hsmooth as (_ & _ & Hsmooth).
    apply Hbkg in Hb. apply (apply_seeing_shape _ _ _ _ Hext) in Hsee.
    assert (Himg : shape img = s).
    { rewrite Hsee, Hb, (Hsmooth _ eq_refl). exact Hstars. }
    assert (Hsrc_counts : shape src_counts = s).
    { unfold sky_stage in Hsky. destruct sky_sb.
      - destruct Hsky as (_ & -> & _). exact Himg.
      - destruct Hsky as (-> & _). exact Himg. }
    apply (noise_and_calibration_shape _ _ _ _ _ _ _ _ _ _ _ _ Hext) in Hnoise.
    destruct Hnoise as (Hr & Hi & Hv). simpl.
    rewrite Hr, Hi, Hv. auto.
Qed.

Lemma reference_shape_preserving : shape_preserving Reference.externals.
Proof.
  repeat split; simpl.
  - now intros image kernel boundary r [= <-].
  - intros lam g r g'. unfold ret. now intros [= <- _].
  - intros loc scale g r g'. unfold ret. now intros [= <- _].
  - intros scale [n0 n1] g r g'. unfold ret. now intros [= <- _].
Qed.

(** The ideal pipeline for a source without smooth component and without
    PSF. *)
Lemma ideal_observe_plain `{Externals} (self : IdealImager.t)
    (bandpass : string) (zpt : R) (mask : option (list bool))
    (kwargs : option string) (source : Source.t) (mags : list R)
    (img : ndarray) :
  Source.mags source !! bandpass = Some mags ->
  Imager.inject_stars (Source.x source) (Source.y source)
    (map (fun m => Rpower 10 (0.4 * (zpt - m))) mags)
    (Source.xy_dim source) mask = Ok img ->
  has_smooth_model (SourceObject source) = false ->
  IdealImager.observe self bandpass None zpt mask kwargs (SourceObject source)
  = (Ok {| IdealObservation.image := img;
           IdealObservation.zpt := zpt;
           IdealObservation.bandpass := bandpass |},
     SourceObject source).
Proof.
  intros Hmags Hstars Hmodel. unfold IdealImager.observe.
  unfold bind at 1, get. rewrite bind_lift. simpl Imager._check_source.
  cbv beta iota. apply getitem_Ok in Hmags. rewrite bind_lift, Hmags.
  rewrite bind_lift, Hstars.
  rewrite (ideal_inject_smooth_model_absent _ _ _ _ Hmodel).
  unfold bind at 1, ret at 1. now rewrite bind_lift.
Qed.

(** The reference star on the grid [xy_dim = (3, 5)], seen by an ideal
    imager. *)
Lemma reference_ideal_observe_3x5 (self : IdealImager.t) :
  exists img,
    @IdealImager.observe Reference.externals self "F" None 27 None None
      (SourceObject Reference.star_3x5)
    = (Ok {| IdealObservation.image := img;
             IdealObservation.zpt := 27;
             IdealObservation.bandpass := "F" |},
       SourceObject Reference.star_3x5) /\
    shape img = (5%nat, 3%nat).
Proof.
  eexists. split.
  - apply ideal_observe_plain with (mags := [25]);
      [apply lookup_singleton_eq
      |apply inject_stars_Ok; [lia|lia|reflexivity|reflexivity]
      |reflexivity].
  - reflexivity.
Qed.

(** C9 as stated fails: for [xy_dim = (3, 5)] the ideal observation has an
    image of shape (5, 3), which is not [xy_dim]. *)
Lemma C9_counterexample :
  exists obs o',
    @IdealImager.observe Reference.externals
      {| IdealImager.filters := None |} "F" None 27 None None
      (SourceObject Reference.star_3x5) = (Ok obs, o') /\
    Source.xy_dim Reference.star_3x5 = (3, 5)%Z /\
    shape (IdealObservation.image obs) = (5%nat, 3%nat) /\
    shape (IdealObservation.image obs) <> (3%nat, 5%nat).
Proof.
  destruct (reference_ideal_observe_3x5 {| IdealImager.filters := None |})
    as (img & Hrun & Hshape).
  eexists _, _. split; [exact Hrun|]. split; [reflexivity|]. simpl.
  split; [exact Hshape|]. rewrite Hshape. discriminate.
Qed.

(** With the reference libraries, the (3, 5) source gives a (5, 3) image. *)
Lemma C9_witness :
  shape_preserving Reference.externals /\
  exists obs o',
    @IdealImager.observe Reference.externals
      {| IdealImager.filters := None |} "F" None 27 None None
      (SourceObject Reference.star_3x5) = (Ok obs, o') /\
    shape (IdealObservation.image obs) = (Z.to_nat 5, Z.to_nat 3).
Proof.
  split; [exact reference_shape_preserving|].
  destruct (reference_ideal_observe_3x5 {| IdealImager.filters := None |})
    as (img & Hrun & _).
  eexists _, _. split; [exact Hrun|].
  exact (proj1 (proj2 (proj2 (proj2 (proj2 (proj2
           (C9_image_shapes (H := Reference.externals)
              reference_shape_preserving))))))
           _ _ _ _ _ _ _ _ _ Hrun).
Defined.

(** ** The caller's source *)

Lemma ideal_update_without_model (bandpass : string) (zpt : R) (o o' : PyObject) :
  has_smooth_model o = false -> ideal_update bandpass zpt o o' -> o' = o.
Proof.
  intros Hno [->|(s & model & amp & name & -> & Hm & _)];
    [reflexivity|].
  simpl in Hno. rewrite Hm in Hno. discriminate.
Qed.

Lemma art_update_without_model `{Externals} (self : ArtImager.t)
    (bandpass : string) (exptime : Quantity) (zpt : R) (o o' : PyObject) :
  has_smooth_model o = false -> art_update self bandpass exptime zpt o o' ->
  o' = o.
Proof.
  intros Hno [->|(s & model & amp_counts & name & -> & Hm & _)];
    [reflexivity|].
  simpl in Hno. rewrite Hm in Hno. discriminate.
Qed.

Lemma ideal_observe_store `{Externals} (self : IdealImager.t)
    (bandpass : string) (psf : option ndarray) (zpt : R)
    (mask : option (list bool)) (kwargs : option string) (o o' : PyObject)
    (r : result IdealObservation.t) :
  IdealImager.observe self bandpass psf zpt mask kwargs o = (r, o') ->
  ideal_update bandpass zpt o o'.
Proof.
  unfold IdealImager.observe. unfold bind at 1, get. rewrite bind_lift.
  destruct o as [source|ty]; simpl Imager._check_source; cbv beta iota;
    [|intros [= _ <-]; now left].
  rewrite bind_lift.
  destruct (getitem _ _) as [mags|e]; [|intros [= _ <-]; now left].
  rewrite bind_lift.
  destruct (Imager.inject_stars _ _ _ _ _) as [img0|e];
    [|intros [= _ <-]; now left].
  unfold bind at 1.
  destruct (IdealImager.inject_smooth_model _ _ _ _ _) as [[img1|e] o1] eqn:Hs;
    apply ideal_inject_smooth_model_store in Hs; destruct Hs as [Hs _].
  - rewrite bind_lift. destruct (Imager.apply_seeing _ _ _).
    + unfold ret. now intros [= _ <-].
    + now intros [= _ <-].
  - now intros [= _ <-].
Qed.

Lemma noise_free_counts_store `{Externals} (self : ArtImager.t)
    (bandpass : string) (exptime : FloatOrQuantity) (psf : option ndarray)
    (zpt : R) (mask : option (list bool)) (bkg_file : option string)
    (bkg_ori : option (Z * Z)) (kwargs : option string)
    (w w' : ArtImager.World) (r : result (Source.t * list R * ndarray)) :
  ArtImager.noise_free_counts self bandpass exptime psf zpt mask bkg_file
    bkg_ori kwargs w = (r, w') ->
  art_update self bandpass (check_units exptime u_s) zpt
    (ArtImager.the_source w) (ArtImager.the_source w').
Proof.
  unfold ArtImager.noise_free_counts. rewrite bind_lift.
  destruct (Imager._check_bandpass _ _); [|intros [= _ <-]; now left].
  unfold bind at 1, ArtImager.get_source. rewrite bind_lift.
  destruct (Imager._check_source _) as [source|e] eqn:Hsrc;
    [|intros [= _ <-]; now left].
  apply check_source_inv in Hsrc.
  rewrite bind_lift.
  destruct (getitem _ _) as [mags|e]; [|intros [= _ <-]; now left].
  rewrite bind_lift.
  destruct (ArtImager.mag_to_counts _ _ _ _) as [counts|e];
    [|intros [= _ <-]; now left].
  rewrite bind_lift.
  destruct (Imager.inject_stars _ _ _ _ _) as [img0|e];
    [|intros [= _ <-]; now left].
  unfold bind at 1.
  destruct (ArtImager.inject_smooth_model _ _ _ _ _ _ _) as [[img1|e] w1] eqn:Hs;
    apply (art_inject_smooth_model_store _ _ _ _ _ _ _ _ _ Hsrc) in Hs;
    destruct Hs as (_ & Hs & _); [|now intros [= _ <-]].
  assert (Hrest : forall c : M ArtImager.World ndarray,
             (forall r1 w2, c w1 = (r1, w2) -> w2 = w1) ->
             bind c (fun src_counts =>
               bind (lift (Imager.apply_seeing src_counts psf kwargs))
                    (fun src_counts0 => ret (source, counts, src_counts0)))
               w1 = (r, w') -> w' = w1).
  { intros c Hc. unfold bind at 1.
    pose proof (Hc (fst (c w1)) (snd (c w1)) (surjective_pairing _)) as Hw.
    destruct (c w1) as [[img2|e2] w2]; simpl in Hw; subst w2;
      [|now intros [= _ <-]].
    rewrite bind_lift. destruct (Imager.apply_seeing _ _ _);
      unfold ret; now intros [= _ <-]. }
  intros Hrun. apply Hrest in Hrun; [now subst w'|].
  intros r1 w2. destruct bkg_file as [file|].
  - rewrite bind_lift. destruct (ArtImager.import_bkg _ _).
    + apply lift_store.
    + now intros [= _ <-].
  - unfold ret. now intros [= _ <-].
Qed.

Lemma art_observe_store `{Externals} (self : ArtImager.t) (bandpass : string)
    (exptime : FloatOrQuantity) (sky_sb : option R) (psf : option ndarray)
    (zpt : R) (mask : option (list bool)) (bkg_file : option string)
    (bkg_ori : option (Z * Z)) (kwargs : option string)
    (w w' : ArtImager.World) (r : result ArtObservation.t) :
  ArtImager.observe self bandpass exptime sky_sb psf zpt mask bkg_file bkg_ori
    kwargs w = (r, w') ->
  art_update self bandpass (check_units exptime u_s) zpt
    (ArtImager.the_source w) (ArtImager.the_source w').
Proof.
  unfold ArtImager.observe. unfold bind at 1.
  destruct (ArtImager.noise_free_counts _ _ _ _ _ _ _ _ _ _)
    as [[[[source counts] img]|e] w1] eqn:Hpre;
    apply noise_free_counts_store in Hpre; [|now intros [= _ <-]].
  assert (Htail : forall (src_counts : ndarray) (sky_counts : R)
                         (mag_error : option (list R)),
             bind (ArtImager.on_rng
                     (ArtImager.noise_and_calibration self src_counts
                        sky_counts bandpass (check_units exptime u_s) zpt))
               (fun '(raw_counts, cali, image_cali, var) =>
                  ret {| ArtObservation.raw_counts := raw_counts;
                         ArtObservation.src_counts := src_counts;
                         ArtObservation.sky_counts := sky_counts;
                         ArtObservation.image := image_cali;
                         ArtObservation.var_image := var;
                         ArtObservation.calibration := cali;
                         ArtObservation.zpt := zpt;
                         ArtObservation.bandpass := bandpass;
                         ArtObservation.exptime := check_units exptime u_s;
                         ArtObservation.mag_error := mag_error |})
               w1 = (r, w') ->
             ArtImager.the_source w' = ArtImager.the_source w1).
  { intros src_counts sky_counts mag_error. unfold bind, ArtImager.on_rng.
    destruct (ArtImager.noise_and_calibration _ _ _ _ _ _ _)
      as [[[[[raw_counts cali] image_cali] var]|e] g];
      unfold ret; now intros [= _ <-]. }
  destruct sky_sb as [sb|].
  - unfold bind at 1. rewrite bind_lift.
    destruct (ArtImager.sb_to_counts_per_pixel _ _ _ _ _) as [sky_counts|e].
    + unfold ret at 1. intros Hrun. apply Htail in Hrun. now rewrite Hrun.
    + now intros [= _ <-].
  - unfold bind at 1, ret at 1. intros Hrun. apply Htail in Hrun.
    now rewrite Hrun.
Qed.

(** The smooth-model stage on a source that has a smooth model: the
    attribute is set exactly when the amplitude could be computed. *)
Lemma ideal_inject_smooth_model_written `{Externals} (image : ndarray)
    (s : Source.t) (model : SmoothModel) (bandpass : string) (zpt : R) :
  Source.smooth_model s = Some (Some model) ->
  IdealImager.inject_smooth_model image s bandpass zpt (SourceObject s)
  = match ideal_amplitude s bandpass zpt with
    | Ok (amp, name) =>
        (Ok (azip Rplus image
               (evaluate_on_grid (setattr model name amp) (nrows image)
                  (ncols image))),
         SourceObject (Source.set_smooth_model s (setattr model name amp)))
    | Raise e => (Raise e, SourceObject s)
    end.
Proof.
  intros Hmodel. unfold IdealImager.inject_smooth_model, ideal_amplitude.
  rewrite Hmodel. rewrite bind_lift.
  destruct (Source.sp s) as [sp|]; [|reflexivity].
  rewrite bind_lift. destruct (sp bandpass) as [mag|e]; [|reflexivity].
  cbn [rbind]. rewrite bind_lift.
  destruct (Source.mag_to_image_amplitude s mag zpt) as [[[mu amp] name]|e];
    reflexivity.
Qed.

Lemma art_inject_smooth_model_written `{Externals} (self : ArtImager.t)
    (image : ndarray) (s : Source.t) (model : SmoothModel) (bandpass : string)
    (exptime : Quantity) (zpt : R) (w : ArtImager.World) :
  Source.smooth_model s = Some (Some model) ->
  ArtImager.inject_smooth_model self image s bandpass (Qty exptime) zpt w
  = match art_amplitude self s bandpass exptime zpt with
    | Ok (amp_counts, name) =>
        (Ok (azip Rplus image
               (evaluate_on_grid (setattr model name amp_counts)
                  (nrows image) (ncols image))),
         {| ArtImager.the_source :=
              SourceObject
                (Source.set_smooth_model s (setattr model name amp_counts));
            ArtImager.the_rng := ArtImager.the_rng w |})
    | Raise e => (Raise e, w)
    end.
Proof.
  intros Hmodel. unfold ArtImager.inject_smooth_model, art_amplitude.
  rewrite Hmodel. rewrite bind_lift.
  destruct (match Source.sp s with Some _ => _ | None => _ end) as [mag|e];
    [|reflexivity].
  cbn [rbind]. rewrite bind_lift.
  destruct (Source.mag_to_image_amplitude s mag zpt) as [[[mu amp] name]|e];
    [|reflexivity].
  cbn [rbind]. rewrite bind_lift.
  destruct (ArtImager.sb_to_counts_per_pixel _ _ _ _ _) as [amp_counts|e];
    reflexivity.
Qed.

(** The ideal [observe] on a source with a smooth model. *)
Lemma ideal_observe_written `{Externals} (self : IdealImager.t)
    (bandpass : string) (psf : option ndarray) (zpt : R)
    (mask : option (list bool)) (kwargs : option string) (s : Source.t)
    (model : SmoothModel) (r : result IdealObservation.t) (o' : PyObject) :
  Source.smooth_model s = Some (Some model) ->
  IdealImager.observe self bandpass psf zpt mask kwargs (SourceObject s)
  = (r, o') ->
  amplitude_written s model (ideal_stars s bandpass zpt mask)
    (ideal_amplitude s bandpass zpt) r o'.
Proof.
  intros Hmodel. unfold IdealImager.observe, ideal_stars, amplitude_written.
  unfold bind at 1, get. rewrite bind_lift. cbn [Imager._check_source].
  rewrite bind_lift.
  destruct (getitem (Source.mags s) bandpass) as [mags|e]; cbn [rbind];
    [|now intros [= <- <-]].
  rewrite bind_lift.
  destruct (Imager.inject_stars _ _ _ _ _) as [img0|e];
    [|now intros [= <- <-]].
  unfold bind at 1.
  rewrite (ideal_inject_smooth_model_written _ _ model) by exact Hmodel.
  destruct (ideal_amplitude s bandpass zpt) as [[amp name]|e];
    [|now intros [= <- <-]].
  rewrite bind_lift. destruct (Imager.apply_seeing _ _ _);
    unfold ret; now intros [= _ <-].
Qed.

(** The stages of the artificial [observe] up to the seeing, on a source
    with a smooth model. *)
Lemma noise_free_counts_written `{Externals} (self : ArtImager.t)
    (bandpass : string) (exptime : FloatOrQuantity) (psf : option ndarray)
    (zpt : R) (mask : option (list bool)) (bkg_file : option string)
    (bkg_ori : option (Z * Z)) (kwargs : option string)
    (w w' : ArtImager.World) (s : Source.t) (model : SmoothModel)
    (r : result (Source.t * list R * ndarray)) :
  ArtImager.the_source w = SourceObject s ->
  Source.smooth_model s = Some (Some model) ->
  ArtImager.noise_free_counts self bandpass exptime psf zpt mask bkg_file
    bkg_ori kwargs w = (r, w') ->
  amplitude_written s model
    (art_stars self s bandpass (check_units exptime u_s) mask)
    (art_amplitude self s bandpass (check_units exptime u_s) zpt)
    r (ArtImager.the_source w').
Proof.
  intros Hsrc Hmodel.
  unfold ArtImager.noise_free_counts, art_stars, amplitude_written.
  rewrite bind_lift.
  destruct (Imager._check_bandpass _ _); cbn [rbind];
    [|now intros [= <- <-]].
  unfold bind at 1, ArtImager.get_source. rewrite Hsrc.
  rewrite bind_lift. cbn [Imager._check_source]. rewrite bind_lift.
  destruct (getitem (Source.mags s) bandpass) as [mags|e]; cbn [rbind];
    [|now intros [= <- <-]].
  rewrite bind_lift.
  destruct (ArtImager.mag_to_counts _ _ _ _) as [counts|e]; cbn [rbind];
    [|now intros [= <- <-]].
  rewrite bind_lift.
  destruct (Imager.inject_stars _ _ _ _ _) as [img0|e];
    [|now intros [= <- <-]].
  unfold bind at 1.
  rewrite (art_inject_smooth_model_written _ _ _ model) by exact Hmodel.
  destruct (art_amplitude _ _ _ _ _) as [[amp_counts name]|e];
    [|now intros [= <- <-]].
  unfold bind at 1.
  destruct bkg_file as [file|].
  - rewrite bind_lift. destruct (ArtImager.import_bkg _ _) as [temp|e];
      [|now intros [= _ <-]].
    unfold lift at 1. destruct (iadd _ _) as [img2|e]; [|now intros [= _ <-]].
    rewrite bind_lift. destruct (Imager.apply_seeing _ _ _);
      unfold ret; now intros [= _ <-].
  - unfold ret at 1. rewrite bind_lift.
    destruct (Imager.apply_seeing _ _ _); unfold ret; now intros [= _ <-].
Qed.

(** After the noise-free stages [observe] does not touch the source, and
    an exception of these stages is the exception of the call. *)
Lemma art_observe_after_noise_free `{Externals} (self : ArtImager.t)
    (bandpass : string) (exptime : FloatOrQuantity) (sky_sb : option R)
    (psf : option ndarray) (zpt : R) (mask : option (list bool))
    (bkg_file : option string) (bkg_ori : option (Z * Z))
    (kwargs : option string) (w w' : ArtImager.World)
    (r : result ArtObservation.t) :
  ArtImager.observe self bandpass exptime sky_sb psf zpt mask bkg_file bkg_ori
    kwargs w = (r, w') ->
  exists r1 w1,
    ArtImager.noise_free_counts self bandpass exptime psf zpt mask bkg_file
      bkg_ori kwargs w = (r1, w1) /\
    ArtImager.the_source w' = ArtImager.the_source w1 /\
    forall e, r1 = Raise e -> r = Raise e.
Proof.
  unfold ArtImager.observe. unfold bind at 1.
  destruct (ArtImager.noise_free_counts _ _ _ _ _ _ _ _ _ _)
    as [[[[source counts] img]|e] w1] eqn:Hpre;
    [|intros [= <- <-]; exists (Raise e), w1;
      split; [reflexivity|]; split; [reflexivity|]; now intros ? [= <-]].
  intros Hrun. eexists _, w1. split; [reflexivity|].
  split; [|discriminate].
  assert (Htail : forall (src_counts : ndarray) (sky_counts : R)
                         (mag_error : option (list R)),
             bind (ArtImager.on_rng
                     (ArtImager.noise_and_calibration self src_counts
                        sky_counts bandpass (check_units exptime u_s) zpt))
               (fun '(raw_counts, cali, image_cali, var) =>
                  ret {| ArtObservation.raw_counts := raw_counts;
                         ArtObservation.src_counts := src_counts;
                         ArtObservation.sky_counts := sky_counts;
                         ArtObservation.image := image_cali;
                         ArtObservation.var_image := var;
                         ArtObservation.calibration := cali;
                         ArtObservation.zpt := zpt;
                         ArtObservation.bandpass := bandpass;
                         ArtObservation.exptime := check_units exptime u_s;
                         ArtObservation.mag_error := mag_error |})
               w1 = (r, w') ->
             ArtImager.the_source w' = ArtImager.the_source w1).
  { intros src_counts sky_counts mag_error. unfold bind, ArtImager.on_rng.
    destruct (ArtImager.noise_and_calibration _ _ _ _ _ _ _)
      as [[[[[raw_counts cali] image_cali] var]|e] g];
      unfold ret; now intros [= _ <-]. }
  revert Hrun. destruct sky_sb as [sb|].
  - unfold bind at 1. rewrite bind_lift.
    destruct (ArtImager.sb_to_counts_per_pixel _ _ _ _ _) as [sky_counts|e].
    + unfold ret at 1. apply Htail.
    + now intros [= _ <-].
  - unfold bind at 1, ret at 1. apply Htail.
Qed.

(** C7, as the code has it.  Whatever its outcome, a call of [observe],
    ideal or artificial, leaves the caller's source as it was, except that
    the smooth model of a source that has one gets one attribute set: the
    amplitude parameter, under the name that [source.mag_to_image_amplitude]
    returns, receives the amplitude computed for the observation.  A source
    without smooth model, and an object that is not a source, are left
    unchanged.  For a source with a smooth model the attribute is set as
    soon as the stages before the smooth model and the computation of the
    amplitude have succeeded, whatever happens afterwards, and in
    particular whenever [observe] returns an observation; when one of them
    raises, the call raises the same exception and the source is as it
    was. *)
Theorem C7_source_changes_only_in_amplitude `{Externals} :
  (forall self bandpass psf zpt mask kwargs o r o',
      IdealImager.observe self bandpass psf zpt mask kwargs o = (r, o') ->
      ideal_update bandpass zpt o o' /\
      (has_smooth_model o = false -> o' = o) /\
      (forall s model,
          o = SourceObject s ->
          Source.smooth_model s = Some (Some model) ->
          amplitude_written s model (ideal_stars s bandpass zpt mask)
            (ideal_amplitude s bandpass zpt) r o' /\
          (forall obs, r = Ok obs ->
             exists amp name,
               ideal_amplitude s bandpass zpt = Ok (amp, name) /\
               o' = SourceObject
                      (Source.set_smooth_model s (setattr model name amp))))) /\
  (forall self bandpass exptime sky_sb psf zpt mask bkg_file bkg_ori kwargs
          w r w',
      ArtImager.observe self bandpass exptime sky_sb psf zpt mask bkg_file
        bkg_ori kwargs w = (r, w') ->
      art_update self bandpass (check_units exptime u_s) zpt
        (ArtImager.the_source w) (ArtImager.the_source w') /\
      (has_smooth_model (ArtImager.the_source w) = false ->
       ArtImager.the_source w' = ArtImager.the_source w) /\
      (forall s model,
          ArtImager.the_source w = SourceObject s ->
          Source.smooth_model s = Some (Some model) ->
          amplitude_written s model
            (art_stars self s bandpass (check_units exptime u_s) mask)
            (art_amplitude self s bandpass (check_units exptime u_s) zpt)
            r (ArtImager.the_source w') /\
          (forall obs, r = Ok obs ->
             exists amp_counts name,
               art_amplitude self s bandpass (check_units exptime u_s) zpt
               = Ok (amp_counts, name) /\
               ArtImager.the_source w'
               = SourceObject
                   (Source.set_smooth_model s
                      (setattr model name amp_counts))))).
Proof.
  split.
  - intros self bandpass psf zpt mask kwargs o r o' Hrun.
    pose proof (ideal_observe_store _ _ _ _ _ _ _ _ _ Hrun) as Hupd.
    split; [exact Hupd|]. split.
    { intros Hno. now apply ideal_update_without_model in Hupd. }
    intros s model -> Hmodel.
    pose proof (ideal_observe_written _ _ _ _ _ _ _ _ _ _ Hmodel Hrun) as Hw.
    split; [exact Hw|]. intros obs ->. unfold amplitude_written in Hw.
    destruct (ideal_stars s bandpass zpt mask) as [img|e];
      [|now destruct Hw as [_ [=]]].
    destruct (ideal_amplitude s bandpass zpt) as [[amp name]|e];
      [eauto|now destruct Hw as [_ [=]]].
  - intros self bandpass exptime sky_sb psf zpt mask bkg_file bkg_ori kwargs
           w r w' Hrun.
    pose proof (art_observe_store _ _ _ _ _ _ _ _ _ _ _ _ _ Hrun) as Hupd.
    split; [exact Hupd|]. split.
    { intros Hno. now apply art_update_without_model in Hupd. }
    intros s model Hsrc Hmodel.
    apply art_observe_after_noise_free in Hrun.
    destruct Hrun as (r1 & w1 & Hpre & Hsame & Hraise).
    pose proof (noise_free_counts_written _ _ _ _ _ _ _ _ _ _ _ _ _ _
                  Hsrc Hmodel Hpre) as Hw.
    rewrite <- Hsame in Hw. unfold amplitude_written in *.
    destruct (art_stars self s bandpass (check_units exptime u_s) mask)
      as [img|e].
    + destruct (art_amplitude self s bandpass (check_units exptime u_s) zpt)
        as [[amp_counts name]|e].
      * split; [exact Hw|]. intros obs _. eauto.
      * destruct Hw as [Hw Hr1]. rewrite (Hraise e Hr1).
        split; [auto|discriminate].
    + destruct Hw as [Hw Hr1]. rewrite (Hraise e Hr1).
      split; [auto|discriminate].
Qed.

(** The ideal pipeline on the reference star with its flat profile: the
    call succeeds and leaves the profile with the amplitude 5. *)
Lemma reference_ideal_observe_with_model (self : IdealImager.t) :
  exists img,
    @IdealImager.observe Reference.externals self "F" None 27 None None
      (SourceObject Reference.star_with_model)
    = (Ok {| IdealObservation.image := img;
             IdealObservation.zpt := 27;
             IdealObservation.bandpass := "F" |},
       SourceObject
         (Source.set_smooth_model Reference.star_with_model
            (setattr Reference.flat_model "amplitude" 5))).
Proof.
  eexists. unfold IdealImager.observe.
  unfold bind at 1, get. rewrite bind_lift. simpl Imager._check_source.
  cbv beta iota. rewrite bind_lift.
  replace (getitem (Source.mags Reference.star_with_model) "F")
    with (Ok [25]) by (symmetry; apply getitem_Ok, lookup_singleton_eq).
  rewrite bind_lift.
  rewrite (inject_stars_Ok [1] [1] _ 3 3) by (try lia; reflexivity).
  unfold bind at 1. unfold IdealImager.inject_smooth_model.
  change (Source.smooth_model Reference.star_with_model)
    with (Some (Some Reference.flat_model)).
  change (Source.sp Reference.star_with_model)
    with (Some (fun _ : string => Ok 20)).
  cbv iota. rewrite !bind_lift.
  change (Source.mag_to_image_amplitude Reference.star_with_model 20 27)
    with (Ok (25, 5, "amplitude") : result (R * R * string)).
  cbv beta iota.
  unfold bind at 1, put at 1, ret at 1.
  rewrite bind_lift. simpl Imager.apply_seeing. unfold ret. reflexivity.
Qed.

(** C7 as stated fails: the ideal imager observes the reference star with
    its flat profile; the ["amplitude"] attribute of the caller's smooth
    model is 1 before the call and 5 after it. *)
Lemma C7_counterexample :
  exists obs o',
    @IdealImager.observe Reference.externals
      {| IdealImager.filters := None |} "F" None 27 None None
      (SourceObject Reference.star_with_model) = (Ok obs, o') /\
    amplitude_of (SourceObject Reference.star_with_model) = Some 1 /\
    amplitude_of o' = Some 5 /\
    o' <> SourceObject Reference.star_with_model.
Proof.
  destruct (reference_ideal_observe_with_model
              {| IdealImager.filters := None |}) as (img & Hrun).
  eexists _, _. split; [exact Hrun|].
  assert (H1 : amplitude_of (SourceObject Reference.star_with_model) = Some 1)
    by apply lookup_singleton_eq.
  assert (H5 : amplitude_of
                 (SourceObject
                    (Source.set_smooth_model Reference.star_with_model
                       (setattr Reference.flat_model "amplitude" 5))) = Some 5)
    by apply lookup_insert_eq.
  split; [exact H1|]. split; [exact H5|].
  intros Heq. rewrite Heq, H1 in H5. injection H5 as H5. lra.
Qed.

(** The reference star without smooth model is returned unchanged; the
    star with its flat profile has received the amplitude computed for the
    observation when the call returns. *)
Lemma C7_witness :
  (exists r o',
      @IdealImager.observe Reference.externals
        {| IdealImager.filters := None |} "F" None 27 None None
        (SourceObject Reference.star_3x5) = (r, o') /\
      has_smooth_model (SourceObject Reference.star_3x5) = false /\
      o' = SourceObject Reference.star_3x5) /\
  (exists obs o' amp name,
      @IdealImager.observe Reference.externals
        {| IdealImager.filters := None |} "F" None 27 None None
        (SourceObject Reference.star_with_model) = (Ok obs, o') /\
      ideal_amplitude Reference.star_with_model "F" 27 = Ok (amp, name) /\
      o' = SourceObject
             (Source.set_smooth_model Reference.star_with_model
                (setattr Reference.flat_model name amp))).
Proof.
  split.
  - destruct (reference_ideal_observe_3x5 {| IdealImager.filters := None |})
      as (img & Hrun & _).
    eexists _, _. split; [exact Hrun|]. split; [reflexivity|].
    exact (proj1 (proj2 (proj1 (C7_source_changes_only_in_amplitude
                                  (H := Reference.externals))
                           _ _ _ _ _ _ _ _ _ Hrun)) eq_refl).
  - destruct (reference_ideal_observe_with_model
                {| IdealImager.filters := None |}) as (img & Hrun).
    destruct (proj2 (proj2 (proj1 (C7_source_changes_only_in_amplitude
                                     (H := Reference.externals))
                              _ _ _ _ _ _ _ _ _ Hrun))
                Reference.star_with_model Reference.flat_model eq_refl eq_refl)
      as [_ Hobs].
    destruct (Hobs _ eq_refl) as (amp & name & Hamp & Ho').
    eexists _, _, amp, name. split; [exact Hrun|]. split; [exact Hamp|].
    exact Ho'.
Defined.

(** ** Validation in the ideal pipeline *)

(** C1, as the code has it.  The ideal [observe] validates the type of the
    source before anything else: for an object that is not a Source it
    raises at once, whatever the other arguments, and leaves the object
    untouched.  It does not validate the bandpass against a filter set: its
    outcome does not depend on the imager at all, and a bandpass is refused
    only where the source has no magnitudes for it, by the [KeyError] of
    the lookup [source.mags[bandpass]], after the source check and before
    the conversion to flux and the rasterization. *)
Theorem C1_ideal_observe_checks_the_source_only `{Externals} :
  (forall self bandpass psf zpt mask kwargs tyname,
      IdealImager.observe self bandpass psf zpt mask kwargs (OtherObject tyname)
      = (Raise (NotAValidSource tyname), OtherObject tyname)) /\
  (forall self self' bandpass psf zpt mask kwargs o,
      IdealImager.observe self bandpass psf zpt mask kwargs o
      = IdealImager.observe self' bandpass psf zpt mask kwargs o) /\
  (forall self bandpass psf zpt mask kwargs source,
      Source.mags source !! bandpass = None ->
      IdealImager.observe self bandpass psf zpt mask kwargs (SourceObject source)
      = (Raise (KeyError bandpass), SourceObject source)).
Proof.
  split; [|split].
  - reflexivity.
  - reflexivity.
  - intros self bandpass psf zpt mask kwargs source Hnone.
    unfold IdealImager.observe. unfold bind at 1, get. rewrite bind_lift.
    simpl Imager._check_source. cbv beta iota. rewrite bind_lift.
    unfold getitem. now rewrite Hnone.
Qed.

(** The reference star has no magnitudes in band g. *)
Lemma C1_witness :
  Source.mags Reference.star !! "g" = None /\
  @IdealImager.observe Reference.externals
    {| IdealImager.filters := Some ["g"] |} "g" None 27 None None
    (SourceObject Reference.star)
  = (Raise (KeyError "g"), SourceObject Reference.star).
Proof.
  assert (Hnone : Source.mags Reference.star !! "g" = None).
  { apply lookup_singleton_ne. discriminate. }
  split; [exact Hnone|].
  exact (proj2 (proj2 (C1_ideal_observe_checks_the_source_only
                         (H := Reference.externals)))
           _ "g" None 27 None None Reference.star Hnone).
Defined.

(** C1 as stated fails: an ideal imager whose filter set is [['g']]
    observes the reference star in band F, which is not in the set, and
    returns an observation. *)
Lemma C1_counterexample :
  ("F" ∉ ["g"]) /\
  exists obs o',
    @IdealImager.observe Reference.externals
      {| IdealImager.filters := Some ["g"] |} "F" None 27 None None
      (SourceObject Reference.star) = (Ok obs, o').
Proof.
  split.
  - rewrite list_elem_of_singleton. discriminate.
  - eexists _, _.
    apply ideal_observe_plain with (mags := [25]);
      [apply lookup_singleton_eq
      |apply inject_stars_Ok; [lia|lia|reflexivity|reflexivity]
      |reflexivity].
Qed.

(** ** The reference observation without sky *)

Lemma reference_observe_without_sky :
  exists obs w',
    @ArtImager.observe Reference.externals Reference.imager "F" (Float 100)
      None None 27 None None None None
      (Reference.world (SourceObject Reference.star)) = (Ok obs, w').
Proof.
  destruct (reference_noise_and_calibration Reference.imager
              (clip_negative
                 (transpose
                    {| nrows := Z.to_nat 3; ncols := Z.to_nat 3;
                       at_ := hist_sum 3 3 (0, IZR (3 - 1)) (0, IZR (3 - 1))
                                [1] [1] [100] |}))
              0 "F" {| qvalue := 100; qunit := u_s |} 27 _
              ltac:(simpl; lra) eq_refl reference_calibration)
    as (raw_counts & image_cali & var & Hnoise & _).
  eexists _, _. apply observe_Ok_iff.
  eexists _, _, _, _, _, _, _, _, _, _, _, _.
  split; [|split; [|split; [|split; reflexivity]]].
  - apply noise_free_counts_plain with (mags := [25]) (img0 := transpose
      {| nrows := Z.to_nat 3; ncols := Z.to_nat 3;
         at_ := hist_sum 3 3 (0, IZR (3 - 1)) (0, IZR (3 - 1)) [1] [1] [100] |});
      [apply reference_imager_filters|reflexivity|apply lookup_singleton_eq
      |apply reference_counts
      |apply inject_stars_Ok; [lia|lia|reflexivity|reflexivity]
      |reflexivity|reflexivity].
  - unfold sky_stage. split; [reflexivity|]. split; reflexivity.
  - exact Hnoise.
Qed.

(** The variance image of the reference observation: no read noise, unit
    gain. *)
Lemma C5_witness :
  exists obs,
    @artificial_observation Reference.externals Reference.imager obs /\
    forall i j,
      at_ (ArtObservation.var_image obs) i j
      = at_ (ArtObservation.raw_counts obs) i j.
Proof.
  destruct reference_observe_without_sky as (obs & w' & Hrun).
  assert (Hobs : @artificial_observation Reference.externals
                   Reference.imager obs).
  { left. now exists "F", (Float 100), None, None, 27, None, None, None, None,
                 (Reference.world (SourceObject Reference.star)), w'. }
  exists obs. split; [exact Hobs|].
  exact (proj2 (proj2 (C5_variance_image (H := Reference.externals)
                         Reference.imager obs Hobs)) eq_refl eq_refl).
Defined.

(** * Further properties *)

(** ** Calibration against the conversion to counts *)

Lemma Rpower_10_log10 (v : R) : 0 < v -> Rpower 10 (log10 v) = v.
Proof.
  intros Hv. unfold Rpower, log10.
  replace (ln v / ln 10 * ln 10) with (ln v) by (field; apply ln_10_neq_0).
  now apply exp_ln.
Qed.

Lemma Rpower_10_pos (e : R) : 0 < Rpower 10 e.
Proof. unfold Rpower. apply exp_pos. Qed.

Lemma Rpower_10_minus_1 : Rpower 10 (-1) = / 10.
Proof.
  replace (-1) with (- (1)) by lra.
  rewrite Rpower_Ropp, Rpower_1 by lra. reflexivity.
Qed.

Lemma area_cm2_Ok `{Externals} (self : ArtImager.t) (area : R) :
  ArtImager.area_cm2 self = Ok area ->
  dimension (qunit (ArtImager.diameter self)) = Length /\
  area = PI * (qvalue (ArtImager.diameter self) / 2) ^ 2
         * scale (qunit (ArtImager.diameter self)) ^ 2.
Proof.
  unfold ArtImager.area_cm2. destruct (decide _); [|discriminate].
  now intros [= <-].
Qed.

Lemma scale_pos (u : Unit) : 0 < scale u.
Proof. destruct u; simpl; try lra; apply Rinv_0_lt_compat; lra. Qed.

Lemma to_Ok (q t : Quantity) (u : Unit) :
  to q u = Ok t ->
  dimension (qunit q) = dimension u /\
  t = {| qvalue := qvalue q * scale (qunit q) / scale u; qunit := u |}.
Proof. unfold to. destruct (decide _); [now intros [= <-]|discriminate]. Qed.

(** X1.  In empirical mode the calibration factor undoes the conversion to
    counts: the counts of a star of magnitude [mag], multiplied by the
    calibration factor at the zero point [zpt], are [10^(0.4 (zpt - mag))],
    the flux that the ideal imager gives the star. *)
Theorem calibration_inverts_mag_to_counts_empirical `{Externals}
    (self : ArtImager.t) (z : gmap string R) (zp : R) (mags : list R)
    (bandpass : string) (exptime t : Quantity) (zpt : R) :
  ArtImager.zpt_inst self = Some z ->
  z !! bandpass = Some zp ->
  to exptime u_s = Ok t ->
  qvalue t <> 0 ->
  exists counts cali,
    ArtImager.mag_to_counts self mags bandpass (Qty exptime) = Ok counts /\
    ArtImager.calibration self bandpass (Qty exptime) zpt = Ok cali /\
    map (fun c => c * cali) counts
    = map (fun mag => Rpower 10 (0.4 * (zpt - mag))) mags.
Proof.
  intros Hz Hzp Ht Hne.
  exists (map (fun m => Rpower 10 (0.4 * (zp - m)) * qvalue t) mags),
         (Rpower 10 (0.4 * (zpt - zp)) / qvalue t).
  split; [now apply mag_to_counts_empirical with (z := z)|]. split.
  - unfold ArtImager.calibration, getitem. rewrite Hz, Hzp. simpl.
    now rewrite Ht.
  - rewrite map_map. apply map_ext. intros m.
    replace (Rpower 10 (0.4 * (zp - m)) * qvalue t
             * (Rpower 10 (0.4 * (zpt - zp)) / qvalue t))
      with (Rpower 10 (0.4 * (zp - m)) * Rpower 10 (0.4 * (zpt - zp)))
      by (field; exact Hne).
    rewrite <- Rpower_plus. f_equal. lra.
Qed.

(** The reference imager in band F for 100 s, calibrated to 27. *)
Lemma calibration_inverts_mag_to_counts_empirical_witness :
  exists counts cali,
    @ArtImager.mag_to_counts Reference.externals Reference.imager [25; 26] "F"
      (Qty {| qvalue := 100; qunit := u_s |}) = Ok counts /\
    @ArtImager.calibration Reference.externals Reference.imager "F"
      (Qty {| qvalue := 100; qunit := u_s |}) 27 = Ok cali /\
    map (fun c => c * cali) counts
    = map (fun mag => Rpower 10 (0.4 * (27 - mag))) [25; 26].
Proof.
  apply (@calibration_inverts_mag_to_counts_empirical Reference.externals
           Reference.imager {["F" := 25]} 25 [25; 26] "F"
           {| qvalue := 100; qunit := u_s |}
           {| qvalue := 100 * 1 / 1; qunit := u_s |} 27).
  - reflexivity.
  - apply lookup_singleton_eq.
  - reflexivity.
  - simpl. lra.
Defined.

Lemma getitem_opt_Ok {A : Type} (d : option (gmap string A)) (k : string) (v : A) :
  getitem_opt d k = Ok v <-> exists m, d = Some m /\ m !! k = Some v.
Proof.
  unfold getitem_opt. destruct d as [m|].
  - rewrite getitem_Ok. split; [eauto|]. now intros (m' & [= <-] & Hm).
  - split; [discriminate|]. now intros (m & [=] & _).
Qed.

Lemma length_cm_Ok `{Externals} (q : Quantity) (err : PyError) (v : R) :
  ArtImager.length_cm q err = Ok v ->
  dimension (qunit q) = Length /\ v = qvalue q * scale (qunit q).
Proof.
  unfold ArtImager.length_cm. destruct (decide _); [now intros [= <-]|discriminate].
Qed.

(** What a successful radiometric conversion computed. *)
Lemma mag_to_counts_radiometric_Ok `{Externals} (self : ArtImager.t)
    (mags : list R) (bandpass : string) (exptime : Quantity)
    (counts : list R) :
  ArtImager.zpt_inst self = None ->
  ArtImager.mag_to_counts self mags bandpass (Qty exptime) = Ok counts ->
  exists dlam lam_eff area t eff,
    getitem_opt (ArtImager.dlam self) bandpass = Ok dlam /\
    getitem_opt (ArtImager.lam_eff self) bandpass = Ok lam_eff /\
    ArtImager.area_cm2 self = Ok area /\
    to exptime u_s = Ok t /\
    dimension (qunit dlam) = dimension (qunit lam_eff) /\
    ArtImager.efficiency self !! bandpass = Some eff /\
    counts = map (fun mag =>
                    qvalue dlam * scale (qunit dlam)
                    / (qvalue lam_eff * scale (qunit lam_eff))
                    * fnu_from_AB_mag mag / planck_h * area * qvalue t
                    * (eff * ArtImager.transparency self)
                    / ArtImager.gain self) mags.
Proof.
  intros Hz Hrun. unfold ArtImager.mag_to_counts in Hrun. rewrite Hz in Hrun.
  simpl check_units in Hrun.
  apply rbind_Ok in Hrun. destruct Hrun as (dlam & Hd & Hrun).
  apply rbind_Ok in Hrun. destruct Hrun as (lam_eff & Hl & Hrun).
  apply rbind_Ok in Hrun. destruct Hrun as (area & Ha & Hrun).
  apply rbind_Ok in Hrun. destruct Hrun as (t & Ht & Hrun).
  apply rbind_Ok in Hrun. destruct Hrun as (ratio & Hratio & Hrun).
  apply rbind_Ok in Hrun. destruct Hrun as (eff & He & Hrun).
  injection Hrun as <-.
  unfold ArtImager.dimensionless_ratio in Hratio.
  destruct (decide _) as [Hdim|]; [|discriminate]. injection Hratio as <-.
  apply getitem_Ok in He.
  exists dlam, lam_eff, area, t, eff. repeat split; try assumption.
  rewrite !map_map. reflexivity.
Qed.

Lemma fnu_times_zero_point (mag zpt : R) :
  fnu_from_AB_mag mag * (Rpower 10 (0.4 * zpt) * Rpower 10 (0.4 * mAB_0))
  = Rpower 10 (0.4 * (zpt - mag)).
Proof.
  unfold fnu_from_AB_mag. rewrite <- !Rpower_plus. f_equal.
  unfold mAB_0. lra.
Qed.

(** X2.  In radiometric mode counts times calibration is [10^(0.4 (zpt - mag))]
    times the ratio of the units in which the filter width and the
    effective wavelength are held: [mag_to_counts] converts both to one
    unit, [calibration] divides their bare values.  The ratio is 1 when both
    are in one unit, as they are when given as floats. *)
Theorem calibration_inverts_mag_to_counts_radiometric `{Externals}
    (self : ArtImager.t) (mags counts : list R) (bandpass : string)
    (exptime : Quantity) (zpt cali : R) (dlam lam_eff : Quantity) :
  ArtImager.zpt_inst self = None ->
  ArtImager.mag_to_counts self mags bandpass (Qty exptime) = Ok counts ->
  ArtImager.calibration self bandpass (Qty exptime) zpt = Ok cali ->
  getitem_opt (ArtImager.dlam self) bandpass = Ok dlam ->
  getitem_opt (ArtImager.lam_eff self) bandpass = Ok lam_eff ->
  qvalue dlam <> 0 -> qvalue lam_eff <> 0 ->
  qvalue exptime <> 0 ->
  qvalue (ArtImager.diameter self) <> 0 ->
  ArtImager.gain self <> 0 ->
  ArtImager.transparency self <> 0 ->
  ArtImager.efficiency self !! bandpass <> Some 0 ->
  planck_h <> 0 ->
  map (fun c => c * cali) counts
  = map (fun mag => scale (qunit dlam) / scale (qunit lam_eff)
                    * Rpower 10 (0.4 * (zpt - mag))) mags /\
  (qunit dlam = qunit lam_eff ->
   map (fun c => c * cali) counts
   = map (fun mag => Rpower 10 (0.4 * (zpt - mag))) mags).
Proof.
  intros Hz Hcounts Hcali Hd Hl Hdv Hlv Htv Hdiam Hg Htr Heff Hh.
  apply (mag_to_counts_radiometric_Ok _ _ _ _ _ Hz) in Hcounts.
  destruct Hcounts as (dlam' & lam_eff' & area & t & eff & Hd' & Hl' & Ha & Ht
                       & _ & He & ->).
  rewrite Hd in Hd'. injection Hd' as <-.
  rewrite Hl in Hl'. injection Hl' as <-.
  unfold ArtImager.calibration in Hcali. rewrite Hz, Hd, Hl in Hcali.
  simpl in Hcali. rewrite Ht, Ha in Hcali. simpl in Hcali.
  unfold getitem in Hcali. rewrite He in Hcali. injection Hcali as <-.
  apply area_cm2_Ok in Ha. destruct Ha as [_ Ha].
  apply to_Ok in Ht. destruct Ht as [_ ->]. simpl qvalue.
  assert (Hsl := scale_pos (qunit lam_eff)).
  assert (Hsdl := scale_pos (qunit dlam)).
  assert (Hs := scale_pos (qunit exptime)).
  assert (Hsd := scale_pos (qunit (ArtImager.diameter self))).
  assert (Harea : area <> 0).
  { rewrite Ha. assert (Hpi := PI_RGT_0).
    apply Rmult_integral_contrapositive_currified;
      [apply Rmult_integral_contrapositive_currified; [lra|]|];
      apply pow_nonzero; lra. }
  assert (Heff0 : eff <> 0) by (intros ->; now apply Heff).
  split; [|intros Hunit]; rewrite map_map; apply map_ext; intros mag;
    rewrite <- (fnu_times_zero_point mag zpt); simpl scale;
    try rewrite Hunit; field; repeat split; try assumption; try lra.
Qed.

Lemma planck_h_reference_neq_0 : @planck_h Reference.externals <> 0.
Proof.
  change (@planck_h Reference.externals) with (6.62607015 / 10 ^ 27).
  apply Rmult_integral_contrapositive_currified; [lra|].
  apply Rinv_neq_0_compat. apply pow_nonzero. lra.
Qed.

Lemma radiometric_counts (mags : list R) :
  @ArtImager.mag_to_counts Reference.externals radiometric_imager mags "F"
    (Qty {| qvalue := 100; qunit := u_s |})
  = Ok (map (fun c => c / 1)
          (map (fun c => c * (1 * 1))
             (map (fun f => 1000 * / 100000000 / (5000 * / 100000000) * f
                            / @planck_h Reference.externals
                            * (PI * (10 / 2) ^ 2 * 100 ^ 2) * (100 * 1 / 1))
                (map fnu_from_AB_mag mags)))).
Proof.
  unfold ArtImager.mag_to_counts, getitem_opt, getitem.
  simpl ArtImager.zpt_inst. cbv iota.
  simpl ArtImager.dlam. simpl ArtImager.lam_eff. simpl ArtImager.efficiency.
  rewrite !lookup_singleton_eq. reflexivity.
Qed.

Lemma radiometric_calibration (zpt : R) :
  @ArtImager.calibration Reference.externals radiometric_imager "F"
    (Qty {| qvalue := 100; qunit := u_s |}) zpt
  = Ok (Rpower 10 (0.4 * zpt) * Rpower 10 (0.4 * mAB_0)
        / (1000 / 5000 / @planck_h Reference.externals)
        / (100 * 1 / 1) / (PI * (10 / 2) ^ 2 * 100 ^ 2) / (1 * 1) * 1).
Proof.
  unfold ArtImager.calibration, getitem_opt, getitem.
  simpl ArtImager.zpt_inst. cbv iota.
  simpl ArtImager.dlam. simpl ArtImager.lam_eff. simpl ArtImager.efficiency.
  rewrite !lookup_singleton_eq. reflexivity.
Qed.

Lemma radiometric_dlam :
  getitem_opt (ArtImager.dlam radiometric_imager) "F"
  = Ok {| qvalue := 1000; qunit := u_angstrom |}.
Proof.
  change (ArtImager.dlam radiometric_imager)
    with (Some ({["F" := {| qvalue := 1000; qunit := u_angstrom |}]}
                : gmap string Quantity)).
  unfold getitem_opt, getitem. now rewrite lookup_singleton_eq.
Qed.

Lemma radiometric_lam_eff :
  getitem_opt (ArtImager.lam_eff radiometric_imager) "F"
  = Ok {| qvalue := 5000; qunit := u_angstrom |}.
Proof.
  change (ArtImager.lam_eff radiometric_imager)
    with (Some ({["F" := {| qvalue := 5000; qunit := u_angstrom |}]}
                : gmap string Quantity)).
  unfold getitem_opt, getitem. now rewrite lookup_singleton_eq.
Qed.

Lemma radiometric_efficiency :
  ArtImager.efficiency radiometric_imager !! "F" = Some 1.
Proof. apply lookup_singleton_eq. Qed.

(** The radiometric imager in band F for 100 s, calibrated to 27. *)
Lemma calibration_inverts_mag_to_counts_radiometric_witness :
  exists counts cali,
    @ArtImager.mag_to_counts Reference.externals radiometric_imager [25; 26] "F"
      (Qty {| qvalue := 100; qunit := u_s |}) = Ok counts /\
    @ArtImager.calibration Reference.externals radiometric_imager "F"
      (Qty {| qvalue := 100; qunit := u_s |}) 27 = Ok cali /\
    map (fun c => c * cali) counts
    = map (fun mag => Rpower 10 (0.4 * (27 - mag))) [25; 26].
Proof.
  eexists. eexists. split; [apply radiometric_counts|].
  split; [apply radiometric_calibration|].
  apply (proj2 (@calibration_inverts_mag_to_counts_radiometric
                  Reference.externals radiometric_imager [25; 26] _ "F"
                  {| qvalue := 100; qunit := u_s |} 27 _
                  {| qvalue := 1000; qunit := u_angstrom |}
                  {| qvalue := 5000; qunit := u_angstrom |}
                  eq_refl (radiometric_counts [25; 26])
                  (radiometric_calibration 27)
                  radiometric_dlam radiometric_lam_eff
                  ltac:(simpl; lra) ltac:(simpl; lra) ltac:(simpl; lra)
                  ltac:(simpl; lra) ltac:(simpl; lra) ltac:(simpl; lra)
                  ltac:(rewrite radiometric_efficiency; intros [= Heq]; lra)
                  planck_h_reference_neq_0)).
  reflexivity.
Defined.

(** ** Surface brightness against magnitudes *)

(** X3.  A surface brightness is converted like the magnitude of a star.  In
    empirical mode the counts per pixel of a surface brightness [sb] are the
    counts of a star of magnitude [sb], whatever the pixel scale, which is
    not read.  In radiometric mode, for an effective wavelength that is a
    length, they are the counts of that star times the square of the pixel
    scale in arcsec per pixel.  ([mag_to_counts] also returns counts when
    [dlam] and [lam_eff] share another dimension; [sb_to_counts_per_pixel]
    then fails to convert the photon energy.) *)
Theorem sb_counts_are_star_counts_per_pixel `{Externals} (self : ArtImager.t)
    (sb : R) (bandpass : string) (exptime : FloatOrQuantity) :
  (forall z pixel_scale v,
      ArtImager.zpt_inst self = Some z ->
      (ArtImager.sb_to_counts_per_pixel self sb bandpass exptime pixel_scale
       = Ok v
       <-> ArtImager.mag_to_counts self [sb] bandpass exptime = Ok [v])) /\
  (forall pixel_scale p c lam_eff,
      ArtImager.zpt_inst self = None ->
      ArtImager.mag_to_counts self [sb] bandpass exptime = Ok [c] ->
      to pixel_scale u_arcsec_per_pix = Ok p ->
      getitem_opt (ArtImager.lam_eff self) bandpass = Ok lam_eff ->
      dimension (qunit lam_eff) = Length ->
      qvalue lam_eff <> 0 ->
      speed_of_light <> 0 ->
      planck_h <> 0 ->
      ArtImager.sb_to_counts_per_pixel self sb bandpass exptime pixel_scale
      = Ok (c * qvalue p ^ 2)) /\
  (forall pixel_scale lam_eff,
      ArtImager.zpt_inst self = None ->
      getitem_opt (ArtImager.lam_eff self) bandpass = Ok lam_eff ->
      dimension (qunit lam_eff) <> Length ->
      forall v,
        ArtImager.sb_to_counts_per_pixel self sb bandpass exptime pixel_scale
        <> Ok v).
Proof.
  split; [|split].
  - intros z pixel_scale v Hz.
    unfold ArtImager.sb_to_counts_per_pixel, ArtImager.mag_to_counts.
    rewrite Hz. destruct (getitem z bandpass) as [zp|e]; simpl; [|easy].
    destruct (to (check_units exptime u_s) u_s) as [t|e]; simpl; [|easy].
    split; intros [= <-]; reflexivity.
  - intros pixel_scale p c lam_eff Hz Hcounts Hp Hl Hld Hlv Hc Hh.
    assert (Hcounts' : ArtImager.mag_to_counts self [sb] bandpass
                         (Qty (check_units exptime u_s)) = Ok [c]).
    { destruct exptime; exact Hcounts. }
    apply (mag_to_counts_radiometric_Ok _ _ _ _ _ Hz) in Hcounts'.
    destruct Hcounts' as (dlam & lam_eff' & area & t & eff & Hd & Hl' & Ha & Ht
                          & Hdd & He & Heq).
    rewrite Hl in Hl'. injection Hl' as <-. rewrite Hld in Hdd.
    unfold ArtImager.sb_to_counts_per_pixel. rewrite Hz, Hd, Hl. simpl.
    rewrite Hp. simpl. unfold ArtImager.length_cm.
    destruct (decide (dimension (qunit lam_eff) = Length)); [|contradiction].
    destruct (decide (dimension (qunit dlam) = Length)); [|contradiction].
    simpl. rewrite Ht, Ha. simpl. unfold getitem. rewrite He.
    injection Heq as ->. cbn [rbind]. f_equal.
    assert (Hs := scale_pos (qunit lam_eff)).
    match goal with
    | |- ?n1 / ?g = ?n2 / ?g * ?pp =>
        replace (n2 / g * pp) with (n2 * pp / g) by (unfold Rdiv; ring);
        f_equal
    end.
    field. repeat split; try assumption; lra.
  - intros pixel_scale lam_eff Hz Hl Hld v.
    unfold ArtImager.sb_to_counts_per_pixel. rewrite Hz, Hl.
    destruct (getitem_opt (ArtImager.dlam self) bandpass); [|discriminate].
    cbn [rbind]. destruct (to pixel_scale u_arcsec_per_pix); [|discriminate].
    cbn [rbind]. unfold ArtImager.length_cm at 1.
    destruct (decide (dimension (qunit lam_eff) = Length)); [contradiction|].
    discriminate.
Qed.

(** A sky of 25 mag per square arcsec on the reference imager: the counts
    per pixel are the counts of a star of magnitude 25.  On the
    radiometric imager, with pixels of 0.2 arcsec, they are the counts of
    that star times 0.2^2. *)
Lemma sb_counts_are_star_counts_per_pixel_witness :
  @ArtImager.mag_to_counts Reference.externals Reference.imager [25] "F"
    (Qty {| qvalue := 100; qunit := u_s |}) = Ok [100] /\
  exists c,
    @ArtImager.mag_to_counts Reference.externals radiometric_imager [25] "F"
      (Qty {| qvalue := 100; qunit := u_s |}) = Ok [c] /\
    @ArtImager.sb_to_counts_per_pixel Reference.externals radiometric_imager
      25 "F" (Qty {| qvalue := 100; qunit := u_s |})
      {| qvalue := 0.2; qunit := u_arcsec_per_pix |}
    = Ok (c * (0.2 * 1 / 1) ^ 2).
Proof.
  split.
  - apply (proj1 (@sb_counts_are_star_counts_per_pixel Reference.externals
                    Reference.imager 25 "F"
                    (Qty {| qvalue := 100; qunit := u_s |}))
             {["F" := 25]} {| qvalue := 1; qunit := u_arcsec_per_pix |} 100
             eq_refl).
    apply reference_sky.
  - pose proof (radiometric_counts [25]) as Hc. cbn [map] in Hc.
    eexists. split; [exact Hc|].
    apply (proj1 (proj2 (@sb_counts_are_star_counts_per_pixel
                           Reference.externals radiometric_imager 25 "F"
                           (Qty {| qvalue := 100; qunit := u_s |})))
             {| qvalue := 0.2; qunit := u_arcsec_per_pix |}
             {| qvalue := 0.2 * 1 / 1; qunit := u_arcsec_per_pix |} _
             {| qvalue := 5000; qunit := u_angstrom |}
             eq_refl Hc eq_refl radiometric_lam_eff eq_refl).
    + cbn [qvalue]. lra.
    + change (@speed_of_light Reference.externals) with 29979245800. lra.
    + apply planck_h_reference_neq_0.
Defined.

(** ** Scaling of the counts *)

Lemma fnu_from_AB_mag_shift (mag dm : R) :
  fnu_from_AB_mag (mag + dm) = fnu_from_AB_mag mag * Rpower 10 (-0.4 * dm).
Proof.
  unfold fnu_from_AB_mag. rewrite <- Rpower_plus. f_equal. lra.
Qed.

(** X4.  In both calibration modes the counts are proportional to the exposure
    time, and making every star fainter by [dm] magnitudes multiplies its
    counts by [10^(-0.4 dm)]: 2.5 magnitudes are a factor of 10. *)
Theorem mag_to_counts_scaling `{Externals} (self : ArtImager.t)
    (mags counts : list R) (bandpass : string) (exptime : Quantity) :
  ArtImager.mag_to_counts self mags bandpass (Qty exptime) = Ok counts ->
  (forall k,
      ArtImager.mag_to_counts self mags bandpass
        (Qty {| qvalue := k * qvalue exptime; qunit := qunit exptime |})
      = Ok (map (fun c => k * c) counts)) /\
  (forall dm,
      ArtImager.mag_to_counts self (map (fun mag => mag + dm) mags) bandpass
        (Qty exptime)
      = Ok (map (fun c => c * Rpower 10 (-0.4 * dm)) counts)) /\
  ArtImager.mag_to_counts self (map (fun mag => mag + 2.5) mags) bandpass
    (Qty exptime)
  = Ok (map (fun c => c / 10) counts).
Proof.
  intros Hrun.
  assert (Hdm : forall dm,
             ArtImager.mag_to_counts self (map (fun mag => mag + dm) mags)
               bandpass (Qty exptime)
             = Ok (map (fun c => c * Rpower 10 (-0.4 * dm)) counts)).
  { intros dm. revert Hrun. unfold ArtImager.mag_to_counts. simpl check_units.
    destruct (ArtImager.zpt_inst self) as [z|].
    - destruct (getitem z bandpass) as [zp|]; simpl; [|discriminate].
      destruct (to exptime u_s) as [t|]; simpl; [|discriminate].
      intros [= <-]. f_equal. rewrite !map_map. apply map_ext. intros m.
      replace (0.4 * (zp - (m + dm))) with (0.4 * (zp - m) + -0.4 * dm) by lra.
      rewrite Rpower_plus. ring.
    - destruct (getitem_opt (ArtImager.dlam self) bandpass); simpl;
        [|discriminate].
      destruct (getitem_opt (ArtImager.lam_eff self) bandpass); simpl;
        [|discriminate].
      destruct (ArtImager.area_cm2 self); simpl; [|discriminate].
      destruct (to exptime u_s) as [t|]; simpl; [|discriminate].
      destruct (ArtImager.dimensionless_ratio _ _); simpl; [|discriminate].
      destruct (getitem _ _); simpl; [|discriminate].
      intros [= <-]. f_equal. rewrite !map_map. apply map_ext. intros m.
      rewrite fnu_from_AB_mag_shift. unfold Rdiv. ring. }
  split; [|split; [exact Hdm|]].
  - intros k. revert Hrun. unfold ArtImager.mag_to_counts, to.
    simpl check_units. simpl qunit. simpl qvalue.
    destruct (ArtImager.zpt_inst self) as [z|].
    + destruct (getitem z bandpass) as [zp|]; simpl; [|discriminate].
      destruct (decide _); simpl; [|discriminate].
      intros [= <-]. f_equal. rewrite !map_map. apply map_ext. intros m.
      unfold Rdiv. ring.
    + destruct (getitem_opt (ArtImager.dlam self) bandpass); simpl;
        [|discriminate].
      destruct (getitem_opt (ArtImager.lam_eff self) bandpass); simpl;
        [|discriminate].
      destruct (ArtImager.area_cm2 self); simpl; [|discriminate].
      destruct (decide _); simpl; [|discriminate].
      destruct (ArtImager.dimensionless_ratio _ _); simpl; [|discriminate].
      destruct (getitem _ _); simpl; [|discriminate].
      intros [= <-]. f_equal. rewrite !map_map. apply map_ext. intros m.
      unfold Rdiv. ring.
  - rewrite Hdm. f_equal. apply map_ext. intros c.
    replace (-0.4 * 2.5) with (-1) by lra. rewrite Rpower_10_minus_1.
    reflexivity.
Qed.

(** A star 2.5 mag fainter than the reference star gives a tenth of its
    counts. *)
Lemma mag_to_counts_scaling_witness :
  @ArtImager.mag_to_counts Reference.externals Reference.imager
    (map (fun mag => mag + 2.5) [25]) "F"
    (Qty {| qvalue := 100; qunit := u_s |})
  = Ok (map (fun c => c / 10) [100]).
Proof.
  apply (@mag_to_counts_scaling Reference.externals Reference.imager [25] [100]
           "F" {| qvalue := 100; qunit := u_s |} reference_counts).
Defined.

(** ** Odd dimensions *)

Lemma even_test_odd (v : Z) : (v mod 2 =? 0)%Z = negb (Z.odd v).
Proof.
  rewrite Zmod_odd. destruct (Z.odd v); reflexivity.
Qed.

Lemma existsb_even_false (l : list Z) :
  existsb (fun v => (v mod 2 =? 0)%Z) l = false
  <-> Forall (fun v => Z.odd v = true) l.
Proof.
  induction l as [|v l IH]; simpl.
  - split; [constructor|reflexivity].
  - rewrite orb_false_iff, IH, even_test_odd, negb_false_iff. split.
    + intros [Hv Hl]. now constructor.
    + intros Hall. inversion Hall; subst. auto.
Qed.

(** X5.  On dimensions that fit [int64], [check_xy_dim] with [force_odd]
    returns exactly when every dimension is odd, and then returns the
    dimensions it was given, an int [n] standing for [(n, n)]; otherwise it
    raises [Exception('xy dimensions must be odd')].  Without [force_odd]
    it returns the dimensions unchecked. *)
Theorem check_xy_dim_returns_odd_dimensions (xy_dim : IntOrList)
    (dims : list Z) :
  dims = match xy_dim with
         | AnInt n => [n; n]
         | AList l => l
         end ->
  forallb int64 dims = true ->
  (Forall (fun d => Z.odd d = true) dims ->
   check_xy_dim xy_dim true = Some (Returns dims)) /\
  (~ Forall (fun d => Z.odd d = true) dims ->
   check_xy_dim xy_dim true
   = Some (RaisesException "xy dimensions must be odd")) /\
  check_xy_dim xy_dim false = Some (Returns dims).
Proof.
  intros Hdims Hfit. unfold check_xy_dim, check_odd. rewrite <- Hdims, Hfit.
  destruct (existsb _ dims) eqn:E.
  - split; [|split; [reflexivity|reflexivity]].
    intros Hodd. apply existsb_even_false in Hodd. congruence.
  - split; [reflexivity|]. split; [|reflexivity].
    intros Hnot. exfalso. apply Hnot. now apply existsb_even_false.
Qed.

(** Odd dimensions are returned as a list. *)
Lemma check_xy_dim_returns_odd_dimensions_witness :
  check_xy_dim (AnInt 501) true = Some (Returns [501; 501]%Z) /\
  check_xy_dim (AList [500; 501]%Z) true
  = Some (RaisesException "xy dimensions must be odd").
Proof.
  split.
  - apply (proj1 (check_xy_dim_returns_odd_dimensions (AnInt 501) _
                    eq_refl eq_refl)).
    repeat constructor.
  - apply (proj1 (proj2 (check_xy_dim_returns_odd_dimensions
                           (AList [500; 501]%Z) _ eq_refl eq_refl))).
    intros Hall. inversion Hall as [|? ? Hodd _]. discriminate Hodd.
Defined.

(** ** Embedding a model array into an image *)

Lemma odd_halves (m : Z) : Z.odd m = true -> (m = 2 * (m / 2) + 1)%Z.
Proof.
  intros Hodd. rewrite (Z.div_mod m 2) at 1 by lia.
  rewrite Zmod_odd, Hodd. reflexivity.
Qed.

Lemma wrap64_small (v : Z) : (- 2 ^ 63 <= v < 2 ^ 63)%Z -> wrap64 v = v.
Proof.
  intros Hv. unfold wrap64. rewrite Z.mod_small by lia. lia.
Qed.

Lemma int64_small (v : Z) : small_int v -> int64 v = true.
Proof.
  unfold small_int, int64. intros Hv.
  apply andb_true_iff. split; [apply Z.leb_le|apply Z.ltb_lt]; lia.
Qed.

(** A window [start : start + n] that lies inside an axis of length [len]. *)
Lemma slice_inside_axis (len : nat) (start n : Z) :
  (0 <= start)%Z -> (0 <= n)%Z -> (start + n <= Z.of_nat len)%Z ->
  slice len start (start + n) = (Z.to_nat start, Z.to_nat n).
Proof.
  intros Hs Hn Hfit. unfold slice, slice_norm.
  destruct (Z.ltb_spec start 0); [lia|].
  destruct (Z.ltb_spec (start + n) 0); [lia|].
  rewrite !Z.min_l by lia. f_equal. f_equal. lia.
Qed.

(** Remove the wrap-around of the results that fit. *)
Ltac unwrap64 :=
  repeat match goal with
         | |- context [wrap64 ?z] =>
             lazymatch z with
             | context [wrap64 _] => fail
             | _ => rewrite (wrap64_small z) by lia
             end
         end.

(** On one axis, for small values and an odd model length that overlaps
    the image, the bounds that [embed_slices] computes are those of the
    overlap of the footprint of the model with the image, and of the part
    of the model that falls on it. *)
Lemma embed_axis_spec (c m s : Z) :
  small_int c -> small_int m -> small_int s ->
  Z.odd m = true ->
  (0 <= c + m / 2)%Z -> (c - m / 2 <= s - 1)%Z -> (0 < m)%Z -> (0 < s)%Z ->
  embed_axis c m s
  = ((Z.max 0 (c - m / 2), Z.min s (c + m / 2 + 1)),
     (Z.max 0 (c - m / 2) - (c - m / 2),
      Z.min s (c + m / 2 + 1) - (c - m / 2)))%Z.
Proof.
  unfold small_int. intros Hc Hm Hs Hodd Hlo Hhi Hm0 Hs0.
  apply odd_halves in Hodd. unfold embed_axis, add64, sub64, mul64, neg64.
  set (h := (m / 2)%Z) in *.
  unwrap64. rewrite Z.gtb_ltb.
  destruct (Z.ltb_spec (c - h) 0);
    destruct (Z.leb_spec (c + h) (s - 1));
    destruct (Z.ltb_spec (s - 1) (c + h)); try lia;
    cbn [Z.b2z]; unwrap64; f_equal; f_equal; lia.
Qed.

Lemma aligned_slices_overlap (c m s : Z) :
  Z.odd m = true ->
  (0 <= c + m / 2)%Z -> (c - m / 2 <= s - 1)%Z -> (0 < m)%Z -> (0 < s)%Z ->
  aligned_slices c m s
    (Z.max 0 (c - m / 2), Z.min s (c + m / 2 + 1))%Z
    (Z.max 0 (c - m / 2) - (c - m / 2),
     Z.min s (c + m / 2 + 1) - (c - m / 2))%Z.
Proof.
  intros Hodd Hlo Hhi Hm0 Hs0. apply odd_halves in Hodd.
  unfold aligned_slices. cbn [fst snd]. set (h := (m / 2)%Z) in *.
  exists (Z.to_nat (Z.min s (c + h + 1) - Z.max 0 (c - h))).
  split; [|split; [|split; [|split]]].
  - replace (Z.min s (c + h + 1))
      with (Z.max 0 (c - h) + (Z.min s (c + h + 1) - Z.max 0 (c - h)))%Z
      at 1 by lia.
    rewrite slice_inside_axis by lia. reflexivity.
  - replace (Z.min s (c + h + 1) - (c - h))%Z
      with (Z.max 0 (c - h) - (c - h)
            + (Z.min s (c + h + 1) - Z.max 0 (c - h)))%Z by lia.
    rewrite slice_inside_axis by lia. reflexivity.
  - lia.
  - lia.
  - split; lia.
Qed.

(** X6.  For integers that are small enough for the arithmetic of
    [embed_slices] not to wrap around: the function returns exactly when
    both lengths of the model are odd, and otherwise raises
    [Exception('embed_slices array shape must be odd')].  On an axis where
    the model overlaps the (non-empty) image, the image slice and the
    model slice it returns select the same number of elements, at least
    one, the first inside the image and the second inside the model; the
    image slice is the whole overlap of the footprint
    [center - shape//2 .. center + shape//2] of the model with the image,
    and element [k] of the model slice is the element of the model that the
    footprint puts on element [k] of the image slice. *)
Theorem embed_slices_returns_matching_slices
    (center model_shape image_shape : Z * Z) :
  Forall small_int [fst center; snd center; fst model_shape; snd model_shape;
                    fst image_shape; snd image_shape] ->
  (Z.odd (fst model_shape) = true -> Z.odd (snd model_shape) = true ->
   exists i0 i1 a0 a1,
     embed_slices center model_shape image_shape
     = Some (Returns ((i0, i1), (a0, a1))) /\
     ((0 <= fst center + fst model_shape / 2)%Z ->
      (fst center - fst model_shape / 2 <= fst image_shape - 1)%Z ->
      (0 < fst model_shape)%Z -> (0 < fst image_shape)%Z ->
      aligned_slices (fst center) (fst model_shape) (fst image_shape) i0 a0) /\
     ((0 <= snd center + snd model_shape / 2)%Z ->
      (snd center - snd model_shape / 2 <= snd image_shape - 1)%Z ->
      (0 < snd model_shape)%Z -> (0 < snd image_shape)%Z ->
      aligned_slices (snd center) (snd model_shape) (snd image_shape) i1 a1)) /\
  (Z.odd (fst model_shape) = false \/ Z.odd (snd model_shape) = false ->
   embed_slices center model_shape image_shape
   = Some (RaisesException "embed_slices array shape must be odd")).
Proof.
  intros Hsmall.
  inversion Hsmall as [|? ? Hc0 Hs1]; subst.
  inversion Hs1 as [|? ? Hc1 Hs2]; subst.
  inversion Hs2 as [|? ? Hm0 Hs3]; subst.
  inversion Hs3 as [|? ? Hm1 Hs4]; subst.
  inversion Hs4 as [|? ? Hi0 Hs5]; subst.
  inversion Hs5 as [|? ? Hi1 _]; subst.
  assert (Hfit : forallb int64
                   [fst center; snd center; fst model_shape; snd model_shape;
                    fst image_shape; snd image_shape] = true).
  { cbn [forallb]. now rewrite !int64_small by assumption. }
  assert (Hfit' : forallb int64 [fst model_shape; snd model_shape] = true).
  { cbn [forallb]. now rewrite !int64_small by assumption. }
  split.
  - intros H0 H1. unfold embed_slices, check_odd. rewrite Hfit, Hfit'.
    assert (Hnone : existsb (fun v => (v mod 2 =? 0)%Z)
                      [fst model_shape; snd model_shape] = false).
    { apply existsb_even_false. repeat constructor; assumption. }
    rewrite Hnone.
    destruct (embed_axis (fst center) (fst model_shape) (fst image_shape))
      as [[imin0 imax0] [amin0 amax0]] eqn:E0.
    destruct (embed_axis (snd center) (snd model_shape) (snd image_shape))
      as [[imin1 imax1] [amin1 amax1]] eqn:E1.
    exists (imin0, imax0), (imin1, imax1), (amin0, amax0), (amin1, amax1).
    split; [reflexivity|]. split.
    + intros Hlo Hhi Hpos Hspos.
      rewrite embed_axis_spec in E0 by assumption. injection E0 as <- <- <- <-.
      now apply aligned_slices_overlap.
    + intros Hlo Hhi Hpos Hspos.
      rewrite embed_axis_spec in E1 by assumption. injection E1 as <- <- <- <-.
      now apply aligned_slices_overlap.
  - intros Heven. unfold embed_slices, check_odd. rewrite Hfit, Hfit'.
    assert (Hsome : existsb (fun v => (v mod 2 =? 0)%Z)
                      [fst model_shape; snd model_shape] = true).
    { simpl. rewrite !even_test_odd.
      destruct Heven as [-> | ->]; simpl; [reflexivity|].
      now rewrite orb_true_r. }
    now rewrite Hsome.
Qed.

(** A 5 x 5 model centred on the corner pixel of a 9 x 9 image: rows and
    columns 0 to 2 of the image receive rows and columns 2 to 4 of the
    model. *)
Lemma embed_slices_returns_matching_slices_witness :
  exists i0 i1 a0 a1,
    embed_slices (0, 0)%Z (5, 5)%Z (9, 9)%Z
    = Some (Returns ((i0, i1), (a0, a1))) /\
    aligned_slices 0 5 9 i0 a0 /\ aligned_slices 0 5 9 i1 a1.
Proof.
  destruct (proj1 (embed_slices_returns_matching_slices (0, 0)%Z (5, 5)%Z
                     (9, 9)%Z
                     ltac:(repeat constructor; unfold small_int; cbn; lia))
              eq_refl eq_refl)
    as (i0 & i1 & a0 & a1 & Hrun & Hin0 & Hin1).
  exists i0, i1, a0, a1. split; [exact Hrun|]. split.
  - apply Hin0; now vm_compute.
  - apply Hin1; now vm_compute.
Defined.

(** Without overlap the bounds are not those of matching slices: a model
    of 3 rows centred on row -5 of an image of 10 rows gives [image[0:-3]],
    7 rows, against [model[6:3]], none. *)
Example embed_slices_without_overlap :
  fst (embed_axis (-5) 3 10) = (0, -3)%Z /\
  snd (embed_axis (-5) 3 10) = (6, 3)%Z /\
  slice 10 0 (-3) = (0%nat, 7%nat) /\
  slice 3 6 3 = (3%nat, 0%nat).
Proof. repeat split. Qed.

(** ** Seeds *)



(** ** The amplitude of a Sersic profile *)

Lemma Rpower_10_minus_log10 (v : R) :
  0 < v -> Rpower 10 (- log10 v) = / v.
Proof.
  intros Hv. rewrite Rpower_Ropp, Rpower_10_log10 by assumption. reflexivity.
Qed.

(** X8.  [mag_to_image_amplitude] normalises the profile to the total magnitude:
    with [b_n] and the flux factor [f_n] of the profile positive and
    [area = pi r_circ^2] in square arcsec, the amplitude times
    [2 area f_n] is [10^(0.4 (zpt - m_tot))] times the square of the bare
    pixel scale.  The surface brightness [mu_e] does not depend on the zero
    point or on the pixel scale, and the parameter name is always
    ["amplitude"]. *)
Theorem mag_to_image_amplitude_normalisation
    (gammaincinv : R -> R -> R) (gamma : R -> R)
    (m_tot : R) (r_sky : Angle) (n ellip zpt : R) (pixel_scale : Quantity)
    (b_n f_n area mu_e amplitude : R) (name : string) :
  b_n = gammaincinv (2.0 * n) 0.5 ->
  f_n = gamma (2 * n) * n * exp b_n / Rpower b_n (2 * n) ->
  area = PI * (avalue r_sky * sqrt (1 - ellip) * arcsec_in (aunit r_sky)) ^ 2 ->
  0 < b_n -> 0 < f_n -> avalue r_sky <> 0 -> ellip < 1 ->
  mag_to_image_amplitude gammaincinv gamma m_tot r_sky n ellip zpt pixel_scale
  = (mu_e, amplitude, name) ->
  amplitude * (2 * area * f_n)
  = Rpower 10 (0.4 * (zpt - m_tot)) * qvalue pixel_scale ^ 2 /\
  name = "amplitude" /\
  (forall zpt' pixel_scale',
      fst (fst (mag_to_image_amplitude gammaincinv gamma m_tot r_sky n ellip
                  zpt' pixel_scale')) = mu_e).
Proof.
  intros Hb Hfn Ha Hb0 Hf Hr He. unfold mag_to_image_amplitude.
  rewrite <- Hb, <- Hfn, <- Ha. intros [= <- <- <-].
  assert (Harea : 0 < area).
  { rewrite Ha. apply Rmult_lt_0_compat; [apply PI_RGT_0|].
    assert (0 < sqrt (1 - ellip)) by (apply sqrt_lt_R0; lra).
    assert (0 < arcsec_in (aunit r_sky)) by (destruct (aunit r_sky); simpl; lra).
    set (r := avalue r_sky * sqrt (1 - ellip) * arcsec_in (aunit r_sky)).
    assert (Hr0 : r <> 0).
    { unfold r. apply Rmult_integral_contrapositive_currified;
        [apply Rmult_integral_contrapositive_currified|]; lra. }
    pose proof (pow2_ge_0 r). pose proof (pow_nonzero r 2 Hr0). lra. }
  split; [|split; reflexivity].
  replace (0.4 * (zpt - (m_tot + 2.5 * log10 (2 * area) + 2.5 * log10 f_n)))
    with (0.4 * (zpt - m_tot) + (- log10 (2 * area) + - log10 f_n)) by lra.
  rewrite !Rpower_plus, !Rpower_10_minus_log10 by lra.
  field. lra.
Qed.

(** A profile with [b_n = 1], [gamma = 1] and index 1, of radius 1 arcsec. *)
Lemma mag_to_image_amplitude_normalisation_witness :
  let gammaincinv := fun _ _ : R => 1 in
  let gamma := fun _ : R => 1 in
  let r_sky := {| avalue := 1; aunit := u_arcsec |} in
  let pixel_scale := {| qvalue := 0.2; qunit := u_arcsec_per_pix |} in
  let f_n := 1 * 1 * exp 1 / Rpower 1 (2 * 1) in
  let area := PI * (1 * sqrt (1 - 0) * 1) ^ 2 in
  0 < f_n /\
  snd (fst (mag_to_image_amplitude gammaincinv gamma 20 r_sky 1 0 27 pixel_scale))
  * (2 * area * f_n)
  = Rpower 10 (0.4 * (27 - 20)) * 0.2 ^ 2.
Proof.
  intros gammaincinv gamma r_sky pixel_scale f_n area.
  assert (Hf : 0 < f_n).
  { unfold f_n. apply Rdiv_lt_0_compat.
    - pose proof (exp_pos 1). lra.
    - unfold Rpower. apply exp_pos. }
  split; [exact Hf|].
  exact (proj1 (mag_to_image_amplitude_normalisation gammaincinv gamma 20 r_sky
                  1 0 27 pixel_scale 1 f_n area _ _ _
                  eq_refl eq_refl eq_refl Rlt_0_1 Hf R1_neq_R0 Rlt_0_1 eq_refl)).
Defined.

(** ** The rasterizer: linearity and the mask *)

Lemma hist_sum_app (nx ny : Z) (xr yr : R * R) (x1 y1 w1 x2 y2 w2 : list R)
    (i j : nat) :
  length y1 = length x1 -> length w1 = length x1 ->
  hist_sum nx ny xr yr (x1 ++ x2) (y1 ++ y2) (w1 ++ w2) i j
  = hist_sum nx ny xr yr x1 y1 w1 i j + hist_sum nx ny xr yr x2 y2 w2 i j.
Proof.
  revert y1 w1. induction x1 as [|tx x1 IH]; intros y1 w1 Hy Hw.
  - destruct y1; [|discriminate]. destruct w1; [|discriminate]. simpl. lra.
  - destruct y1 as [|ty y1]; [discriminate|].
    destruct w1 as [|tw w1]; [discriminate|].
    simpl in Hy, Hw. cbn [app hist_sum]. rewrite IH by lia. lra.
Qed.

Lemma hist_sum_scale (nx ny : Z) (xr yr : R * R) (x y w : list R) (k : R)
    (i j : nat) :
  hist_sum nx ny xr yr x y (map (fun v => v * k) w) i j
  = hist_sum nx ny xr yr x y w i j * k.
Proof.
  revert y w. induction x as [|tx x IH]; intros y w; [simpl; lra|].
  destruct y as [|ty y]; [simpl; lra|]. destruct w as [|tw w]; [simpl; lra|].
  cbn [map hist_sum]. rewrite IH.
  destruct (_ && _); lra.
Qed.

Lemma hist_sum_nonneg (nx ny : Z) (xr yr : R * R) (x y w : list R) (i j : nat) :
  Forall (fun v => 0 <= v) w -> 0 <= hist_sum nx ny xr yr x y w i j.
Proof.
  intros Hw. revert x y. induction Hw as [|tw w Htw _ IH]; intros x y.
  - destruct x; [simpl; lra|]. destruct y; simpl; lra.
  - destruct x as [|tx x]; [simpl; lra|]. destruct y as [|ty y]; [simpl; lra|].
    cbn [hist_sum]. specialize (IH x y). destruct (_ && _); lra.
Qed.

(** What a successful call without mask says about its arguments. *)
Lemma inject_stars_None_inv (x y s : list R) (d0 d1 : Z) (image : ndarray) :
  Imager.inject_stars x y s (d0, d1) None = Ok image ->
  (2 <= d0)%Z /\ (2 <= d1)%Z /\ length y = length x /\ length s = length x /\
  image = transpose {| nrows := Z.to_nat d0; ncols := Z.to_nat d1;
                       at_ := hist_sum d0 d1 (0, IZR (d0 - 1)) (0, IZR (d1 - 1))
                                x y s |}.
Proof.
  unfold Imager.inject_stars. cbn [rbind fst snd]. unfold histogram2d.
  cbn [fst snd].
  destruct (Rle_dec (IZR (d0 - 1)) 0) as [|H0]; [discriminate|].
  destruct (Rle_dec (IZR (d1 - 1)) 0) as [|H1]; [discriminate|].
  destruct (Z.leb_spec d0 0); [discriminate|].
  destruct (Z.leb_spec d1 0); [discriminate|].
  destruct (Nat.eqb_spec (length y) (length x)) as [Hy|]; [|discriminate].
  destruct (Nat.eqb_spec (length s) (length x)) as [Hs|]; [|discriminate].
  cbn [andb negb rbind]. intros [= <-].
  assert (0 < IZR (d0 - 1)) by lra. assert (0 < IZR (d1 - 1)) by lra.
  assert (0 < d0 - 1)%Z by now apply lt_IZR.
  assert (0 < d1 - 1)%Z by now apply lt_IZR.
  repeat split; try assumption; lia.
Qed.

(** ** The rasterizer: weights are kept *)

Lemma sum_upto_plus (n : nat) (f g : nat -> R) :
  sum_upto n (fun i => f i + g i) = sum_upto n f + sum_upto n g.
Proof. induction n as [|n IH]; simpl; [lra|rewrite IH; lra]. Qed.

Lemma sum_upto_zero (n : nat) : sum_upto n (fun _ => 0) = 0.
Proof. induction n as [|n IH]; simpl; [reflexivity|rewrite IH; lra]. Qed.

Lemma sum_upto_ext (n : nat) (f g : nat -> R) :
  (forall i, f i = g i) -> sum_upto n f = sum_upto n g.
Proof. intros Hfg. induction n as [|n IH]; simpl; [reflexivity|now rewrite IH, Hfg]. Qed.

(** A sum that meets the index [k] once. *)
Lemma sum_upto_indicator (n : nat) (k : Z) (c : R) :
  sum_upto n (fun j => if Z.eqb k (Z.of_nat j) then c else 0)
  = if (0 <=? k)%Z && (k <? Z.of_nat n)%Z then c else 0.
Proof.
  induction n as [|n IH].
  - cbn [sum_upto]. change (Z.of_nat 0) with 0%Z.
    destruct (Z.leb_spec 0 k); [|reflexivity].
    destruct (Z.ltb_spec k 0); [lia|reflexivity].
  - cbn [sum_upto]. rewrite IH.
    destruct (Z.eqb_spec k (Z.of_nat n)) as [->|Hne].
    + replace (0 <=? Z.of_nat n)%Z with true by (symmetry; apply Z.leb_le; lia).
      replace (Z.of_nat n <? Z.of_nat n)%Z with false
        by (symmetry; apply Z.ltb_ge; lia).
      replace (Z.of_nat n <? Z.of_nat (S n))%Z with true
        by (symmetry; apply Z.ltb_lt; lia).
      simpl. lra.
    + destruct (0 <=? k)%Z; simpl; [|lra].
      destruct (Z.ltb_spec k (Z.of_nat n)); destruct (Z.ltb_spec k (Z.of_nat (S n)));
        try lia; lra.
Qed.

(** A sample of the half-open range falls in one of the [n] bins. *)
Lemma bin_index_in_range (n : Z) (tmax t : R) :
  (0 < n)%Z -> 0 <= t -> t < tmax ->
  (0 <= bin_index n 0 tmax t < n)%Z.
Proof.
  intros Hn H0 Hlt. unfold bin_index.
  assert (Hn' : 0 < IZR n) by (apply IZR_lt; lia).
  assert (Hv0 : 0 <= (t - 0) * (IZR n / (tmax - 0))).
  { apply Rmult_le_pos; [lra|]. apply Rmult_le_pos; [lra|].
    left. apply Rinv_0_lt_compat. lra. }
  assert (Hv1 : (t - 0) * (IZR n / (tmax - 0)) < IZR n).
  { replace ((t - 0) * (IZR n / (tmax - 0))) with (IZR n * (t / tmax))
      by (field; lra).
    rewrite <- (Rmult_1_r (IZR n)) at 2. apply Rmult_lt_compat_l; [lra|].
    apply Rmult_lt_reg_r with tmax; [lra|].
    unfold Rdiv. rewrite Rmult_assoc, Rinv_l by lra. lra. }
  destruct (Zfloor_bound ((t - 0) * (IZR n / (tmax - 0)))) as [Hlo Hhi].
  split.
  - apply Zfloor_lub. exact Hv0.
  - apply lt_IZR. lra.
Qed.

Lemma sum_upto_in_bin (n : Z) (tmax t c : R) :
  (0 < n)%Z ->
  sum_upto (Z.to_nat n) (fun j => if in_bin n 0 tmax t j then c else 0)
  = if Rle_dec 0 t then if Rlt_dec t tmax then c else 0 else 0.
Proof.
  intros Hn. unfold in_bin.
  destruct (Rle_dec 0 t) as [H0|H0]; [|apply sum_upto_zero].
  destruct (Rlt_dec t tmax) as [H1|H1]; [|apply sum_upto_zero].
  rewrite sum_upto_indicator.
  destruct (bin_index_in_range n tmax t Hn H0 H1) as [Hlo Hhi].
  replace (0 <=? bin_index n 0 tmax t)%Z with true
    by (symmetry; apply Z.leb_le; lia).
  replace (bin_index n 0 tmax t <? Z.of_nat (Z.to_nat n))%Z with true
    by (symmetry; apply Z.ltb_lt; lia).
  reflexivity.
Qed.

Lemma sum_upto_zero2 (n m : nat) :
  sum_upto n (fun _ => sum_upto m (fun _ => 0)) = 0.
Proof. rewrite sum_upto_zero. apply sum_upto_zero. Qed.

Lemma asum_hist_sum (nx ny : Z) (xmax ymax : R) (x y w : list R) :
  (0 < nx)%Z -> (0 < ny)%Z ->
  sum_upto (Z.to_nat ny) (fun i =>
    sum_upto (Z.to_nat nx) (fun j =>
      hist_sum nx ny (0, xmax) (0, ymax) x y w j i))
  = (fix total (x y w : list R) : R :=
       match x, y, w with
       | tx :: x', ty :: y', tw :: w' =>
           (if Rle_dec 0 tx then
              if Rlt_dec tx xmax then
                if Rle_dec 0 ty then
                  if Rlt_dec ty ymax then tw else 0
                else 0
              else 0
            else 0)
           + total x' y' w'
       | _, _, _ => 0
       end) x y w.
Proof.
  intros Hnx Hny. revert y w.
  induction x as [|tx x IH]; intros y w.
  - cbn [hist_sum]. apply sum_upto_zero2.
  - destruct y as [|ty y]; [|destruct w as [|tw w]];
      try (cbn [hist_sum]; apply sum_upto_zero2).
    cbn [hist_sum fst snd].
    rewrite (sum_upto_ext _ _ (fun i =>
      sum_upto (Z.to_nat nx) (fun j =>
        if in_bin nx 0 xmax tx j && in_bin ny 0 ymax ty i then tw else 0)
      + sum_upto (Z.to_nat nx) (fun j =>
          hist_sum nx ny (0, xmax) (0, ymax) x y w j i)))
      by (intros i; apply sum_upto_plus).
    rewrite sum_upto_plus, IH. f_equal.
    rewrite (sum_upto_ext _ _ (fun i =>
      if in_bin ny 0 ymax ty i
      then (if Rle_dec 0 tx then if Rlt_dec tx xmax then tw else 0 else 0)
      else 0)).
    + rewrite sum_upto_in_bin by assumption.
      destruct (Rle_dec 0 tx); destruct (Rlt_dec tx xmax);
        destruct (Rle_dec 0 ty); destruct (Rlt_dec ty ymax); reflexivity.
    + intros i. destruct (in_bin ny 0 ymax ty i).
      * rewrite <- (sum_upto_in_bin nx xmax tx tw Hnx).
        apply sum_upto_ext. intros j. now rewrite andb_true_r.
      * rewrite (sum_upto_ext _ _ (fun _ => 0));
          [apply sum_upto_zero|intros j; now rewrite andb_false_r].
Qed.

(** The image of a call without mask sums to the weight of the points of
    the range. *)
Lemma inject_stars_weight (x y signal : list R) (xy_dim : Z * Z) (image : ndarray) :
  Imager.inject_stars x y signal xy_dim None = Ok image ->
  asum image = weight_in_range xy_dim x y signal.
Proof.
  destruct xy_dim as [d0 d1]. intros Hrun.
  apply inject_stars_None_inv in Hrun.
  destruct Hrun as (H0 & H1 & _ & _ & ->).
  unfold asum. cbn [nrows ncols transpose at_].
  rewrite asum_hist_sum by lia.
  clear. revert y signal. induction x as [|tx x IH]; intros y signal;
    [reflexivity|].
  destruct y as [|ty y]; [reflexivity|]. destruct signal as [|tw w];
    [reflexivity|].
  cbn [weight_in_range fst snd]. now rewrite IH.
Qed.

Lemma weight_in_range_all (xy_dim : Z * Z) (x y w : list R) :
  length y = length x -> length w = length x ->
  Forall (fun t => 0 <= t < IZR (fst xy_dim - 1)) x ->
  Forall (fun t => 0 <= t < IZR (snd xy_dim - 1)) y ->
  weight_in_range xy_dim x y w = rsum w.
Proof.
  intros Hy Hw Hx. revert y w Hy Hw.
  induction Hx as [|tx x Htx _ IH]; intros y w Hy Hw Hys.
  - destruct w; [reflexivity|discriminate].
  - destruct y as [|ty y]; [discriminate|]. destruct w as [|tw w]; [discriminate|].
    inversion Hys as [|? ? Hty Hys']; subst.
    cbn [weight_in_range rsum fold_right]. fold (rsum w).
    rewrite (IH y w) by (simpl in *; auto; lia).
    destruct (Rle_dec 0 tx); [|lra]. destruct (Rlt_dec tx _); [|lra].
    destruct (Rle_dec 0 ty); [|lra]. destruct (Rlt_dec ty _); [|lra].
    reflexivity.
Qed.

(** X9.  [inject_stars] keeps the weights: the sum of the image is the total
    signal of the points that lie in the range [0 <= x < xy_dim[0] - 1],
    [0 <= y < xy_dim[1] - 1]; the points outside it, those of the last
    pixel index included, add nothing to any pixel.  When every point lies
    in the range, the image sums to the sum of the signal. *)
Theorem inject_stars_sum (x y signal : list R) (xy_dim : Z * Z) (image : ndarray) :
  Imager.inject_stars x y signal xy_dim None = Ok image ->
  asum image = weight_in_range xy_dim x y signal /\
  (Forall (fun t => 0 <= t < IZR (fst xy_dim - 1)) x ->
   Forall (fun t => 0 <= t < IZR (snd xy_dim - 1)) y ->
   asum image = rsum signal).
Proof.
  intros Hrun. pose proof (inject_stars_weight _ _ _ _ _ Hrun) as Hsum.
  split; [exact Hsum|]. intros Hx Hy. rewrite Hsum.
  destruct xy_dim as [d0 d1]. apply inject_stars_None_inv in Hrun.
  destruct Hrun as (_ & _ & Hly & Hls & _).
  now apply weight_in_range_all.
Qed.

(** The reference star on its 3 x 3 grid: the image sums to its signal. *)
Lemma inject_stars_sum_witness :
  asum (transpose {| nrows := Z.to_nat 3; ncols := Z.to_nat 3;
                     at_ := hist_sum 3 3 (0, IZR (3 - 1)) (0, IZR (3 - 1))
                              [1] [1] [100] |})
  = rsum [100].
Proof.
  apply (proj2 (inject_stars_sum [1] [1] [100] (3, 3)%Z _
                  (inject_stars_Ok [1] [1] [100] 3 3 ltac:(lia) ltac:(lia)
                     eq_refl eq_refl)));
    (constructor; [cbn [fst snd]; change (3 - 1)%Z with 2%Z; lra|constructor]).
Defined.

Lemma select_map {A B : Type} (f : A -> B) (a : list A) (m : list bool) :
  select (map f a) m = map f (select a m).
Proof.
  revert m. induction a as [|v a IH]; intros [|b m]; try reflexivity.
  cbn [map select]. destruct b; cbn [map]; now rewrite IH.
Qed.

Lemma select_all {A : Type} (a : list A) :
  select a (repeat true (length a)) = a.
Proof. induction a as [|v a IH]; [reflexivity|]. simpl. now rewrite IH. Qed.

Lemma select_length {A B : Type} (a : list A) (b : list B) (m : list bool) :
  length a = length m -> length b = length m ->
  length (select a m) = length (select b m).
Proof.
  revert a b. induction m as [|c m IH]; intros a b Ha Hb.
  - destruct a; [|discriminate]. now destruct b.
  - destruct a as [|va a]; [discriminate|]. destruct b as [|vb b]; [discriminate|].
    simpl in Ha, Hb. cbn [select]. destruct c; cbn [length]; rewrite (IH a b);
      auto.
Qed.

(** The masked call is the call on the selected points. *)
Lemma inject_stars_masked (x y s : list R) (xy_dim : Z * Z) (m : list bool)
    (image : ndarray) :
  Imager.inject_stars x y s xy_dim (Some m) = Ok image ->
  length m = length x /\ length m = length y /\ length m = length s /\
  Imager.inject_stars (select x m) (select y m) (select s m) xy_dim None
  = Ok image.
Proof.
  unfold Imager.inject_stars, bool_index.
  destruct (Nat.eqb_spec (length m) (length x)); [|discriminate].
  destruct (Nat.eqb_spec (length m) (length y)); [|discriminate].
  destruct (Nat.eqb_spec (length m) (length s)); [|discriminate].
  cbn [rbind]. auto.
Qed.

(** [inject_stars] is linear in the signal, with or without mask: scaling
    every weight by [k] scales every pixel by [k]. *)
Lemma inject_stars_scale (x y s : list R) (xy_dim : Z * Z)
    (mask : option (list bool)) (k : R) (a : ndarray) :
  Imager.inject_stars x y s xy_dim mask = Ok a ->
  exists c,
    Imager.inject_stars x y (map (fun v => v * k) s) xy_dim mask = Ok c /\
    shape c = shape a /\
    forall i j, at_ c i j = at_ a i j * k.
Proof.
  destruct xy_dim as [d0 d1]. destruct mask as [m|].
  - intros Hrun. apply inject_stars_masked in Hrun.
    destruct Hrun as (Hx & Hy & Hs & Hrun).
    apply inject_stars_None_inv in Hrun.
    destruct Hrun as (H0 & H1 & Hly & Hls & ->).
    eexists. split.
    + unfold Imager.inject_stars, bool_index.
      rewrite length_map, <- Hx, <- Hy, <- Hs, !Nat.eqb_refl. cbn [rbind].
      rewrite select_map.
      change (rbind (histogram2d ?a ?b ?c ?d ?e) ?k)
        with (Imager.inject_stars a b d c None).
      fold (Imager.inject_stars (select x m) (select y m)
              (map (fun v => v * k) (select s m)) (d0, d1) None).
      apply inject_stars_Ok; try assumption; now rewrite length_map.
    + split; [reflexivity|]. intros i j. cbn [transpose at_].
      apply hist_sum_scale.
  - intros Hrun. apply inject_stars_None_inv in Hrun.
    destruct Hrun as (H0 & H1 & Hly & Hls & ->).
    eexists. split.
    + apply inject_stars_Ok; try assumption; now rewrite length_map.
    + split; [reflexivity|]. intros i j. cbn [transpose at_].
      apply hist_sum_scale.
Qed.

(** X10.  The image of two catalogues put together is the sum of their images,
    pixel by pixel, and scaling every weight of a catalogue by [k] scales
    every pixel of its image by [k]: [inject_stars] is linear in the
    signal. *)
Theorem inject_stars_linear (x1 y1 s1 x2 y2 s2 : list R) (xy_dim : Z * Z)
    (k : R) (a b : ndarray) :
  Imager.inject_stars x1 y1 s1 xy_dim None = Ok a ->
  Imager.inject_stars x2 y2 s2 xy_dim None = Ok b ->
  (exists c,
      Imager.inject_stars (x1 ++ x2) (y1 ++ y2) (s1 ++ s2) xy_dim None = Ok c /\
      shape c = shape a /\
      forall i j, at_ c i j = at_ a i j + at_ b i j) /\
  (exists c,
      Imager.inject_stars x1 y1 (map (fun v => v * k) s1) xy_dim None = Ok c /\
      shape c = shape a /\
      forall i j, at_ c i j = at_ a i j * k).
Proof.
  intros Ha Hb. split; [|now apply inject_stars_scale].
  destruct xy_dim as [d0 d1].
  apply inject_stars_None_inv in Ha. destruct Ha as (H0 & H1 & Hy1 & Hs1 & ->).
  apply inject_stars_None_inv in Hb. destruct Hb as (_ & _ & Hy2 & Hs2 & ->).
  eexists. split.
  - apply inject_stars_Ok; try assumption; rewrite !length_app; congruence.
  - split; [reflexivity|]. intros i j. cbn [transpose at_].
    now apply hist_sum_app.
Qed.

(** Two stars of one pixel add up. *)
Lemma inject_stars_linear_witness :
  exists c,
    Imager.inject_stars ([1] ++ [1]) ([1] ++ [1]) ([100] ++ [50]) (3, 3)%Z None
    = Ok c /\
    at_ c 1%nat 1%nat
    = hist_sum 3 3 (0, IZR (3 - 1)) (0, IZR (3 - 1)) [1] [1] [100] 1 1
      + hist_sum 3 3 (0, IZR (3 - 1)) (0, IZR (3 - 1)) [1] [1] [50] 1 1.
Proof.
  destruct (proj1 (inject_stars_linear [1] [1] [100] [1] [1] [50] (3, 3)%Z 1 _ _
                     (inject_stars_Ok [1] [1] [100] 3 3 ltac:(lia) ltac:(lia)
                        eq_refl eq_refl)
                     (inject_stars_Ok [1] [1] [50] 3 3 ltac:(lia) ltac:(lia)
                        eq_refl eq_refl)))
    as (c & Hc & _ & Hat).
  exists c. split; [exact Hc|]. apply Hat.
Defined.

(** X11.  With a mask, [inject_stars] rasterizes the selected points and nothing
    else: its image is the image of the selection, and sums to the weight
    of the selected points that lie in the range.  A mask whose length is
    not that of the coordinates is refused with [IndexError], and a mask
    that selects every point gives what the call without mask gives. *)
Theorem inject_stars_mask (x y s : list R) (xy_dim : Z * Z) (m : list bool) :
  (forall image,
      Imager.inject_stars x y s xy_dim (Some m) = Ok image ->
      Imager.inject_stars (select x m) (select y m) (select s m) xy_dim None
      = Ok image /\
      asum image
      = weight_in_range xy_dim (select x m) (select y m) (select s m)) /\
  (length m <> length x ->
   exists msg,
     Imager.inject_stars x y s xy_dim (Some m) = Raise (IndexError msg)) /\
  (length y = length x -> length s = length x ->
   Imager.inject_stars x y s xy_dim (Some (repeat true (length x)))
   = Imager.inject_stars x y s xy_dim None).
Proof.
  split; [|split].
  - intros image Hrun. apply inject_stars_masked in Hrun.
    destruct Hrun as (_ & _ & _ & Hrun). split; [exact Hrun|].
    now apply inject_stars_weight.
  - intros Hlen. eexists. unfold Imager.inject_stars, bool_index.
    destruct (Nat.eqb_spec (length m) (length x)); [contradiction|].
    reflexivity.
  - intros Hy Hs.
    assert (Ey : select y (repeat true (length x)) = y)
      by (rewrite <- Hy; apply select_all).
    assert (Es : select s (repeat true (length x)) = s)
      by (rewrite <- Hs; apply select_all).
    unfold Imager.inject_stars, bool_index.
    rewrite repeat_length, Hy, Hs, !Nat.eqb_refl. cbn [rbind].
    now rewrite select_all, Ey, Es.
Qed.

(** Two stars, of which the mask keeps the first. *)
Lemma inject_stars_mask_witness :
  exists msg,
    Imager.inject_stars [1; 1] [1; 1] [100; 50] (3, 3)%Z (Some [true])
    = Raise (IndexError msg).
Proof.
  apply (proj1 (proj2 (inject_stars_mask [1; 1] [1; 1] [100; 50] (3, 3)%Z
                         [true]))).
  simpl. lia.
Defined.

(** ** The artificial pipeline: validation and calibration *)

(** X12.  [ArtImager.observe] validates the bandpass against the filter set
    before it looks at the source: a bandpass outside the set is refused
    whatever the source object is, and only then is an object that is not a
    Source refused.  [observe_background] refuses such a bandpass before it
    opens the background file or draws from the generator.  In each case
    the store is left as it was. *)
Theorem art_observe_checks_bandpass_then_source `{Externals}
    (self : ArtImager.t) (bandpass : string) (exptime : FloatOrQuantity)
    (sky_sb : option R) (psf : option ndarray) (zpt : R)
    (mask : option (list bool)) (bkg_file : option string)
    (bkg_ori : option (Z * Z)) (kwargs : option string) (w : ArtImager.World) :
  (bandpass ∉ ArtImager.filters self ->
   ArtImager.observe self bandpass exptime sky_sb psf zpt mask bkg_file
     bkg_ori kwargs w = (Raise (NoFilterProperties bandpass), w)) /\
  (bandpass ∈ ArtImager.filters self ->
   forall ty, ArtImager.the_source w = OtherObject ty ->
   ArtImager.observe self bandpass exptime sky_sb psf zpt mask bkg_file
     bkg_ori kwargs w = (Raise (NotAValidSource ty), w)) /\
  (bandpass ∉ ArtImager.filters self ->
   forall file xy_dim pixel_scale g,
   ArtImager.observe_background self file bandpass exptime xy_dim pixel_scale
     sky_sb psf zpt kwargs g = (Raise (NoFilterProperties bandpass), g)).
Proof.
  split; [|split].
  - intros Hout. unfold ArtImager.observe, ArtImager.noise_free_counts.
    unfold bind at 1. unfold bind at 1. unfold lift at 1.
    unfold Imager._check_bandpass. now destruct (decide _).
  - intros Hin ty Hsrc. unfold ArtImager.observe, ArtImager.noise_free_counts.
    unfold bind at 1. unfold bind at 1. unfold lift at 1.
    unfold Imager._check_bandpass. destruct (decide _); [|contradiction].
    unfold bind at 1. unfold ArtImager.get_source at 1.
    unfold bind at 1. unfold lift at 1. rewrite Hsrc. reflexivity.
  - intros Hout file xy_dim pixel_scale g. unfold ArtImager.observe_background.
    unfold bind at 1. unfold lift at 1.
    unfold Imager._check_bandpass. now destruct (decide _).
Qed.

Lemma reference_imager_no_g : "g" ∉ ArtImager.filters Reference.imager.
Proof.
  intros Hin. apply init_zpt_inst_filters in Hin. destruct Hin as [v Hv].
  rewrite lookup_singleton_ne in Hv; discriminate.
Qed.

(** The reference imager has no band g: the reference star is refused in
    that band. *)
Lemma art_observe_checks_bandpass_then_source_witness :
  @ArtImager.observe Reference.externals Reference.imager "g" (Float 100)
    None None 27 None None None None
    (Reference.world (SourceObject Reference.star))
  = (Raise (NoFilterProperties "g"),
     Reference.world (SourceObject Reference.star)).
Proof.
  apply (proj1 (@art_observe_checks_bandpass_then_source Reference.externals
                  Reference.imager "g" (Float 100) None None 27 None None None
                  None (Reference.world (SourceObject Reference.star)))).
  exact reference_imager_no_g.
Defined.

Lemma Rpower_10_plus (a b : R) : Rpower 10 a * Rpower 10 b = Rpower 10 (a + b).
Proof. symmetry. apply Rpower_plus. Qed.

Lemma calibration_empirical `{Externals} (self : ArtImager.t)
    (z : gmap string R) (zp : R) (bandpass : string) (exptime t : Quantity)
    (zpt : R) :
  ArtImager.zpt_inst self = Some z ->
  z !! bandpass = Some zp ->
  to exptime u_s = Ok t ->
  ArtImager.calibration self bandpass (Qty exptime) zpt
  = Ok (Rpower 10 (0.4 * (zpt - zp)) / qvalue t).
Proof.
  intros Hz Hb Ht. unfold ArtImager.calibration, getitem.
  rewrite Hz, Hb. cbn [rbind]. rewrite Ht. reflexivity.
Qed.

Lemma sb_to_counts_per_pixel_empirical `{Externals} (self : ArtImager.t)
    (z : gmap string R) (zp sb : R) (bandpass : string)
    (exptime : FloatOrQuantity) (t pixel_scale : Quantity) :
  ArtImager.zpt_inst self = Some z ->
  z !! bandpass = Some zp ->
  to (check_units exptime u_s) u_s = Ok t ->
  ArtImager.sb_to_counts_per_pixel self sb bandpass exptime pixel_scale
  = Ok (Rpower 10 (0.4 * (zp - sb)) * qvalue t).
Proof.
  intros Hz Hb Ht. unfold ArtImager.sb_to_counts_per_pixel, getitem.
  rewrite Hz, Hb. cbn [rbind]. rewrite Ht. reflexivity.
Qed.

(** The noise tail when the Poisson draw returns its mean, whatever it
    does to the generator, and there is no read noise: the raw counts are
    the expected counts. *)
Lemma noise_and_calibration_mean `{Externals} (self : ArtImager.t)
    (src_counts : ndarray) (sky_counts : R) (bandpass : string)
    (exptime : Quantity) (zpt cali : R) (g : RandomState) :
  (forall lam g, fst (rng_poisson lam g) = Ok lam) ->
  sys_platform <> "win32" ->
  ArtImager.read_noise self <= 0 ->
  ArtImager.gain self <> 0 ->
  ArtImager.calibration self bandpass (Qty exptime) zpt = Ok cali ->
  exists raw_counts image_cali var g',
    ArtImager.noise_and_calibration self src_counts sky_counts bandpass
      exptime zpt g = (Ok (raw_counts, cali, image_cali, var), g') /\
    shape image_cali = shape src_counts /\
    forall i j, at_ image_cali i j = at_ src_counts i j * cali.
Proof.
  intros Hpois Hplat Hrn Hg Hcali. unfold ArtImager.noise_and_calibration.
  destruct (String.eqb_spec sys_platform "win32") as [|_]; [contradiction|].
  destruct (Rlt_dec 0 (ArtImager.read_noise self)) as [|_]; [lra|].
  unfold py_div. destruct (Req_dec_T (ArtImager.gain self) 0) as [|_];
    [contradiction|].
  unfold bind, ret, lift.
  specialize (Hpois (amap (fun v => (v + sky_counts) * ArtImager.gain self)
                       src_counts) g).
  destruct (rng_poisson _ g) as [p g']. cbn [fst] in Hpois. subst p.
  rewrite Hcali.
  eexists _, _, _, _. split; [reflexivity|]. split; [reflexivity|].
  intros i j. cbn [amap at_]. field. exact Hg.
Qed.

Lemma flux_nonneg (zpt : R) (mags : list R) :
  Forall (fun v => 0 <= v) (map (fun m => Rpower 10 (0.4 * (zpt - m))) mags).
Proof.
  induction mags as [|m mags IH]; constructor;
    [left; apply Rpower_10_pos|exact IH].
Qed.

(** X13.  Calibration undoes the conversion to counts on whole images.  Take an
    empirical-mode imager without read noise, a source whose
    [smooth_model] is missing or [None], no background file and no PSF,
    and let the Poisson draw return its mean, whatever it does to the
    generator.  Whenever the ideal imager returns an observation of the
    source, the artificial imager returns one too, with or without sky, and
    its calibrated image is the ideal image, pixel by pixel; the source is
    as it was. *)
Theorem art_observation_calibrates_to_ideal `{Externals}
    (self : ArtImager.t) (iself : IdealImager.t) (z : gmap string R) (zp : R)
    (bandpass : string) (exptime : FloatOrQuantity) (t : Quantity)
    (sky_sb : option R) (zpt : R) (mask : option (list bool))
    (kwargs : option string) (w : ArtImager.World) (s : Source.t)
    (iobs : IdealObservation.t) (o' : PyObject) :
  (forall lam g, fst (rng_poisson lam g) = Ok lam) ->
  sys_platform <> "win32" ->
  ArtImager.read_noise self <= 0 ->
  ArtImager.gain self <> 0 ->
  ArtImager.zpt_inst self = Some z ->
  z !! bandpass = Some zp ->
  bandpass ∈ ArtImager.filters self ->
  to (check_units exptime u_s) u_s = Ok t ->
  0 < qvalue t ->
  ArtImager.the_source w = SourceObject s ->
  has_smooth_model (SourceObject s) = false ->
  IdealImager.observe iself bandpass None zpt mask kwargs (SourceObject s)
  = (Ok iobs, o') ->
  exists aobs w',
    ArtImager.observe self bandpass exptime sky_sb None zpt mask None None
      kwargs w = (Ok aobs, w') /\
    ArtImager.the_source w' = SourceObject s /\
    shape (ArtObservation.image aobs) = shape (IdealObservation.image iobs) /\
    forall i j,
      at_ (ArtObservation.image aobs) i j
      = at_ (IdealObservation.image iobs) i j.
Proof.
  intros Hpois Hplat Hrn Hg Hz Hb Hin Ht Htpos Hsrc Hmodel Hideal.
  apply ideal_observe_Ok_inv in Hideal.
  destruct Hideal as (s' & mags & img0 & img1 & [= <-] & Hmags & Hinj & Hsm
                      & Hsee & _ & _).
  rewrite (ideal_inject_smooth_model_absent _ _ _ _ Hmodel) in Hsm.
  apply ret_Ok in Hsm. destruct Hsm as [-> _].
  injection Hsee as Himg.
  set (k := Rpower 10 (0.4 * (zp - zpt)) * qvalue t).
  destruct (inject_stars_scale _ _ _ _ _ k _ Hinj) as (c & Hc & Hshape & Hat).
  rewrite map_map in Hc.
  assert (Hcounts :
    ArtImager.mag_to_counts self mags bandpass (Qty (check_units exptime u_s))
    = Ok (map (fun m => Rpower 10 (0.4 * (zpt - m)) * k) mags)).
  { rewrite (mag_to_counts_empirical self z zp mags bandpass
               (Qty (check_units exptime u_s)) t Hz Hb Ht).
    f_equal. apply map_ext. intros m. unfold k.
    rewrite <- Rmult_assoc, Rpower_10_plus. do 2 f_equal. lra. }
  assert (Hpre :
    ArtImager.noise_free_counts self bandpass exptime None zpt mask None None
      kwargs w
    = (Ok (s, map (fun m => Rpower 10 (0.4 * (zpt - m)) * k) mags, c), w)).
  { apply noise_free_counts_plain with (mags := mags) (img0 := c);
      try assumption. reflexivity. }
  assert (Hcali := calibration_empirical self z zp bandpass
                     (check_units exptime u_s) t zpt Hz Hb Ht).
  assert (Hnonneg : forall i j, 0 <= at_ c i j).
  { intros i j. rewrite Hat.
    apply Rmult_le_pos;
      [|unfold k; apply Rmult_le_pos; [left; apply Rpower_10_pos|lra]].
    clear - Hinj. destruct (Source.xy_dim s) as [d0 d1].
    destruct mask as [m|].
    - apply inject_stars_masked in Hinj. destruct Hinj as (_ & _ & _ & Hinj).
      apply inject_stars_None_inv in Hinj.
      destruct Hinj as (_ & _ & _ & _ & ->). cbn [transpose at_].
      apply hist_sum_nonneg. rewrite select_map. apply flux_nonneg.
    - apply inject_stars_None_inv in Hinj.
      destruct Hinj as (_ & _ & _ & _ & ->). cbn [transpose at_].
      apply hist_sum_nonneg. apply flux_nonneg. }
  assert (Hk : k * (Rpower 10 (0.4 * (zpt - zp)) / qvalue t) = 1).
  { unfold k. replace (Rpower 10 (0.4 * (zp - zpt)) * qvalue t
                       * (Rpower 10 (0.4 * (zpt - zp)) / qvalue t))
      with (Rpower 10 (0.4 * (zp - zpt)) * Rpower 10 (0.4 * (zpt - zp)))
      by (field; lra).
    rewrite Rpower_10_plus. replace (0.4 * (zp - zpt) + 0.4 * (zpt - zp)) with 0
      by lra. apply Rpower_10_0. }
  destruct sky_sb as [sb|].
  - destruct (noise_and_calibration_mean self c
                (Rpower 10 (0.4 * (zp - sb)) * qvalue t) bandpass
                (check_units exptime u_s) zpt _ (ArtImager.the_rng w)
                Hpois Hplat Hrn Hg Hcali)
      as (raw & image_cali & var & g' & Hnoise & Hsh & Hpix).
    eexists _, _. split; [|split].
    + apply observe_Ok_iff.
      exists s, (map (fun m => Rpower 10 (0.4 * (zpt - m)) * k) mags), c, w, c,
             (Rpower 10 (0.4 * (zp - sb)) * qvalue t),
             (Some (ArtImager.mag_error_of self
                      (Rpower 10 (0.4 * (zp - sb)) * qvalue t)
                      (map (fun m => Rpower 10 (0.4 * (zpt - m)) * k) mags))),
             raw, (Rpower 10 (0.4 * (zpt - zp)) / qvalue t), image_cali, var,
             g'.
      split; [exact Hpre|]. split.
      { cbn [sky_stage]. split; [|split; reflexivity].
        now apply sb_to_counts_per_pixel_empirical with (z := z). }
      split; [exact Hnoise|]. split; reflexivity.
    + exact Hsrc.
    + cbn [ArtObservation.image]. rewrite Hsh, <- Himg.
      split; [exact Hshape|]. intros i j. rewrite Hpix, Hat, Rmult_assoc, Hk.
      lra.
  - destruct (noise_and_calibration_mean self (clip_negative c) 0 bandpass
                (check_units exptime u_s) zpt _ (ArtImager.the_rng w)
                Hpois Hplat Hrn Hg Hcali)
      as (raw & image_cali & var & g' & Hnoise & Hsh & Hpix).
    eexists _, _. split; [|split].
    + apply observe_Ok_iff.
      exists s, (map (fun m => Rpower 10 (0.4 * (zpt - m)) * k) mags), c, w,
             (clip_negative c), 0, None,
             raw, (Rpower 10 (0.4 * (zpt - zp)) / qvalue t), image_cali, var,
             g'.
      split; [exact Hpre|]. split; [now cbn [sky_stage]|].
      split; [exact Hnoise|]. split; reflexivity.
    + exact Hsrc.
    + cbn [ArtObservation.image]. rewrite Hsh, <- Himg.
      split; [exact Hshape|]. intros i j. rewrite Hpix.
      destruct (clip_negative_spec c i j) as (_ & _ & Hkeep).
      rewrite (Hkeep (Hnonneg i j)), Hat, Rmult_assoc, Hk. lra.
Qed.

Lemma reference_ideal_observe (self : IdealImager.t) :
  @IdealImager.observe Reference.externals self "F" None 27 None None
    (SourceObject star_model_None)
  = (Ok {| IdealObservation.image :=
             transpose {| nrows := Z.to_nat 3; ncols := Z.to_nat 3;
                          at_ := hist_sum 3 3 (0, IZR (3 - 1)) (0, IZR (3 - 1))
                                   [1] [1] [Rpower 10 (0.4 * (27 - 25))] |};
           IdealObservation.zpt := 27;
           IdealObservation.bandpass := "F" |},
     SourceObject star_model_None).
Proof.
  apply ideal_observe_plain with (mags := [25]);
    [apply lookup_singleton_eq
    |apply inject_stars_Ok; [lia|lia|reflexivity|reflexivity]
    |reflexivity].
Qed.

(** The reference imager, with a sky of 25 mag per square arcsec, returns
    the ideal image of the reference star, here with a [smooth_model] that
    is [None]. *)
Lemma art_observation_calibrates_to_ideal_witness :
  exists aobs w',
    @ArtImager.observe Reference.externals Reference.imager "F" (Float 100)
      (Some 25) None 27 None None None None
      (Reference.world (SourceObject star_model_None))
    = (Ok aobs, w') /\
    ArtImager.the_source w' = SourceObject star_model_None /\
    forall i j,
      at_ (ArtObservation.image aobs) i j
      = hist_sum 3 3 (0, IZR (3 - 1)) (0, IZR (3 - 1))
          [1] [1] [Rpower 10 (0.4 * (27 - 25))] j i.
Proof.
  destruct (@art_observation_calibrates_to_ideal Reference.externals
              Reference.imager {| IdealImager.filters := None |}
              {["F" := 25]} 25 "F" (Float 100)
              {| qvalue := 100 * 1 / 1; qunit := u_s |} (Some 25) 27 None None
              (Reference.world (SourceObject star_model_None)) star_model_None
              _ _
              ltac:(reflexivity) ltac:(discriminate) ltac:(simpl; lra)
              ltac:(simpl; lra) eq_refl ltac:(apply lookup_singleton_eq)
              reference_imager_filters eq_refl ltac:(simpl; lra)
              eq_refl eq_refl
              (reference_ideal_observe {| IdealImager.filters := None |}))
    as (aobs & w' & Hrun & Hsrc & _ & Hat).
  exists aobs, w'. split; [exact Hrun|]. split; [exact Hsrc|exact Hat].
Defined.

(** ** What an artificial observation records *)

(** X14.  The fields of an observation returned by [observe] or by
    [observe_background] fit together: the gain of the imager is not zero,
    the recorded calibration factor is what [calibration] gives for the
    recorded bandpass, exposure time and zero point, and every pixel of the
    calibrated image is the raw count minus the sky level, times that
    factor. *)
Theorem art_observation_is_consistent `{Externals} (self : ArtImager.t)
    (obs : ArtObservation.t) :
  artificial_observation self obs ->
  ArtImager.gain self <> 0 /\
  ArtImager.calibration self (ArtObservation.bandpass obs)
    (Qty (ArtObservation.exptime obs)) (ArtObservation.zpt obs)
  = Ok (ArtObservation.calibration obs) /\
  shape (ArtObservation.image obs) = shape (ArtObservation.raw_counts obs) /\
  forall i j,
    at_ (ArtObservation.image obs) i j
    = (at_ (ArtObservation.raw_counts obs) i j - ArtObservation.sky_counts obs)
      * ArtObservation.calibration obs.
Proof.
  intros [Hobs|Hobs].
  - destruct Hobs as (bandpass & exptime & sky_sb & psf & zpt & mask & bkg_file
                      & bkg_ori & kwargs & w & w' & Hrun).
    apply observe_Ok_iff in Hrun.
    destruct Hrun as (source & counts & img & w1 & src_counts & sky_counts
                      & mag_error & raw_counts & cali & image_cali & var & g
                      & _ & _ & Hnoise & -> & _).
    apply noise_and_calibration_Ok in Hnoise.
    destruct Hnoise as (Hg & Hcali & -> & _). cbn.
    repeat split; assumption.
  - destruct Hobs as (bkg_file & bandpass & exptime & xy_dim & pixel_scale
                      & sky_sb & psf & zpt & kwargs & g & g' & Hrun).
    unfold ArtImager.observe_background in Hrun.
    step_in Hrun. step_in Hrun. step_in Hrun.
    apply bind_Ok in Hrun. destruct Hrun as ([src sky] & g1 & _ & Hrun).
    apply bind_Ok in Hrun.
    destruct Hrun as ([[[raw_counts cali] image_cali] var] & g2 & Hnoise & Hrun).
    apply ret_Ok in Hrun. destruct Hrun as [-> _].
    apply noise_and_calibration_Ok in Hnoise.
    destruct Hnoise as (Hg & Hcali & -> & _). cbn.
    repeat split; assumption.
Qed.

(** ** The ideal image and the flux of the stars *)

(** X15.  For a source whose [smooth_model] is missing or [None], and
    without PSF, the image of an ideal observation sums to the flux [10^(0.4 (zpt - m))] of the stars that the
    mask keeps and that lie in the range of the rasterizer. *)
Theorem ideal_image_sums_to_flux `{Externals} (self : IdealImager.t)
    (bandpass : string) (zpt : R) (mask : option (list bool))
    (kwargs : option string) (s : Source.t) (mags : list R)
    (obs : IdealObservation.t) (o' : PyObject) :
  has_smooth_model (SourceObject s) = false ->
  Source.mags s !! bandpass = Some mags ->
  IdealImager.observe self bandpass None zpt mask kwargs (SourceObject s)
  = (Ok obs, o') ->
  let flux := map (fun m => Rpower 10 (0.4 * (zpt - m))) mags in
  asum (IdealObservation.image obs)
  = match mask with
    | None => weight_in_range (Source.xy_dim s) (Source.x s) (Source.y s) flux
    | Some m =>
        weight_in_range (Source.xy_dim s) (select (Source.x s) m)
          (select (Source.y s) m) (select flux m)
    end.
Proof.
  intros Hmodel Hmags Hrun flux.
  apply ideal_observe_Ok_inv in Hrun.
  destruct Hrun as (s' & mags' & img0 & img1 & [= <-] & Hmags' & Hinj & Hsm
                    & Hsee & _ & _).
  rewrite Hmags in Hmags'. injection Hmags' as <-.
  rewrite (ideal_inject_smooth_model_absent _ _ _ _ Hmodel) in Hsm.
  apply ret_Ok in Hsm. destruct Hsm as [-> _].
  injection Hsee as <-.
  destruct mask as [m|].
  - apply inject_stars_masked in Hinj. destruct Hinj as (_ & _ & _ & Hinj).
    now apply inject_stars_weight.
  - now apply inject_stars_weight.
Qed.

(** The reference star, with a [smooth_model] that is [None], lies in the
    range: the image sums to its flux. *)
Lemma ideal_image_sums_to_flux_witness :
  asum (transpose {| nrows := Z.to_nat 3; ncols := Z.to_nat 3;
                     at_ := hist_sum 3 3 (0, IZR (3 - 1)) (0, IZR (3 - 1))
                              [1] [1] [Rpower 10 (0.4 * (27 - 25))] |})
  = weight_in_range (3, 3)%Z [1] [1] [Rpower 10 (0.4 * (27 - 25))].
Proof.
  apply (@ideal_image_sums_to_flux Reference.externals
           {| IdealImager.filters := None |} "F" 27 None None star_model_None
           [25] _ _ eq_refl ltac:(apply lookup_singleton_eq)
           (reference_ideal_observe {| IdealImager.filters := None |})).
Defined.

(** The consistency of the reference observation. *)
Lemma art_observation_is_consistent_witness :
  exists obs,
    @artificial_observation Reference.externals Reference.imager obs /\
    forall i j,
      at_ (ArtObservation.image obs) i j
      = (at_ (ArtObservation.raw_counts obs) i j - ArtObservation.sky_counts obs)
        * ArtObservation.calibration obs.
Proof.
  destruct reference_observe_without_sky as (obs & w' & Hrun).
  assert (Hart : @artificial_observation Reference.externals Reference.imager obs).
  { left. do 11 eexists. exact Hrun. }
  exists obs. split; [exact Hart|].
  apply (@art_observation_is_consistent Reference.externals Reference.imager
           obs Hart).
Defined.

(** ** The background frame *)

Lemma import_bkg_Ok `{Externals} (file : string) (exptime : Quantity)
    (temp : ndarray) :
  ArtImager.import_bkg file exptime = Ok temp ->
  exists frame t,
    fits_data file = Ok frame /\ to exptime u_s = Ok t /\
    temp = amap (fun v => v * qvalue t) frame.
Proof.
  unfold ArtImager.import_bkg. intros Hrun.
  apply rbind_Ok in Hrun. destruct Hrun as (frame & Hframe & Hrun).
  apply rbind_Ok in Hrun. destruct Hrun as (t & Ht & [= <-]). eauto.
Qed.

(** The stars stage gives an image of [xy_dim[1]] rows and [xy_dim[0]]
    columns, for dimensions of at least 2. *)
Lemma inject_stars_dims (x y s : list R) (xy_dim : Z * Z)
    (mask : option (list bool)) (image : ndarray) :
  Imager.inject_stars x y s xy_dim mask = Ok image ->
  (2 <= fst xy_dim)%Z /\ (2 <= snd xy_dim)%Z /\
  nrows image = Z.to_nat (snd xy_dim) /\ ncols image = Z.to_nat (fst xy_dim).
Proof.
  intros Hrun. destruct xy_dim as [d0 d1].
  assert (Hnone : exists x' y' s',
             Imager.inject_stars x' y' s' (d0, d1) None = Ok image).
  { destruct mask as [m|]; [|eauto].
    apply inject_stars_masked in Hrun. destruct Hrun as (_ & _ & _ & Hrun).
    eauto. }
  destruct Hnone as (x' & y' & s' & Hnone).
  apply inject_stars_None_inv in Hnone.
  destruct Hnone as (H0 & H1 & _ & _ & ->). auto.
Qed.

(** X16.  [observe] cuts the window [ori[0] : ori[0] + xy_dim[0]] of the rows and
    [ori[1] : ori[1] + xy_dim[1]] of the columns of the background frame,
    while the image of the stars has [xy_dim[1]] rows and [xy_dim[0]]
    columns.  For a source that is not square and a window that lies inside
    the frame the two shapes do not match: [observe] with a background
    file never returns an observation of such a source. *)
Theorem background_needs_square_source `{Externals} (self : ArtImager.t)
    (bandpass : string) (exptime : FloatOrQuantity) (sky_sb : option R)
    (psf : option ndarray) (zpt : R) (mask : option (list bool))
    (file : string) (bkg_ori : option (Z * Z)) (kwargs : option string)
    (w : ArtImager.World) (source : Source.t) (frame : ndarray)
    (ori : Z * Z) :
  ArtImager.the_source w = SourceObject source ->
  fits_data file = Ok frame ->
  ori = match bkg_ori with
        | None =>
            ((Z.of_nat (nrows frame) / 2 - fst (Source.xy_dim source) / 2)%Z,
             (Z.of_nat (ncols frame) / 2 - snd (Source.xy_dim source) / 2)%Z)
        | Some o => o
        end ->
  (0 <= fst ori)%Z ->
  (fst ori + fst (Source.xy_dim source) <= Z.of_nat (nrows frame))%Z ->
  (0 <= snd ori)%Z ->
  (snd ori + snd (Source.xy_dim source) <= Z.of_nat (ncols frame))%Z ->
  fst (Source.xy_dim source) <> snd (Source.xy_dim source) ->
  forall obs w',
    ArtImager.observe self bandpass exptime sky_sb psf zpt mask (Some file)
      bkg_ori kwargs w <> (Ok obs, w').
Proof.
  intros Hsrc Hframe Hori Hr0 Hr1 Hc0 Hc1 Hne obs w' Hrun.
  apply observe_Ok_iff in Hrun.
  destruct Hrun as (source' & counts & img & w1 & src_counts & sky_counts
                    & mag_error & raw_counts & cali & image_cali & var & g
                    & Hpre & _).
  apply noise_free_counts_Ok_inv in Hpre.
  destruct Hpre as (_ & Hsrc' & mags & img0 & img1 & img2 & _ & _ & Hinj & Hsm
                    & Hbkg & _).
  rewrite Hsrc in Hsrc'. injection Hsrc' as <-.
  apply inject_stars_dims in Hinj. destruct Hinj as (Hd0 & Hd1 & Hrows & Hcols).
  destruct (art_inject_smooth_model_store _ _ _ _ _ _ _ _ _ Hsrc Hsm)
    as (_ & _ & Hshape).
  specialize (Hshape img1 eq_refl). injection Hshape as Hrows1 Hcols1.
  cbn [bkg_stage] in Hbkg. destruct Hbkg as (temp & Himp & Hadd).
  apply import_bkg_Ok in Himp.
  destruct Himp as (frame' & t & Hframe' & _ & ->).
  rewrite Hframe in Hframe'. injection Hframe' as <-.
  cbn [amap nrows ncols] in Hadd. rewrite <- Hori in Hadd.
  unfold slice2 in Hadd. cbn [amap nrows ncols] in Hadd.
  rewrite (slice_inside_axis (nrows frame)) in Hadd by lia.
  rewrite (slice_inside_axis (ncols frame)) in Hadd by lia.
  unfold iadd, broadcast_axis in Hadd. cbn [nrows ncols] in Hadd.
  rewrite Hrows1, Hrows in Hadd.
  destruct (Nat.eqb_spec (Z.to_nat (fst (Source.xy_dim source)))
              (Z.to_nat (snd (Source.xy_dim source)))) as [Heq|_]; [lia|].
  destruct (Nat.eqb_spec (Z.to_nat (fst (Source.xy_dim source))) 1)
    as [Heq|_]; [lia|].
  discriminate Hadd.
Qed.


(** A 2 x 3 source over the 3 x 3 reference frame. *)
Lemma background_needs_square_source_witness :
  ~ exists obs w',
      @ArtImager.observe Reference.externals Reference.imager "F" (Float 100)
        None None 27 None (Some "bkg.fits") (Some (0, 0)%Z) None
        (Reference.world (SourceObject star_2x3))
      = (Ok obs, w').
Proof.
  intros (obs & w' & Hrun). revert Hrun.
  apply (@background_needs_square_source Reference.externals Reference.imager
           "F" (Float 100) None None 27 None "bkg.fits" (Some (0, 0)%Z) None
           (Reference.world (SourceObject star_2x3)) star_2x3
           (Reference.constant_array 3 3 (-1)) (0, 0)%Z
           eq_refl eq_refl eq_refl);
    now vm_compute.
Defined.


(** ** The constructor of [ArtImager] *)

Lemma map_fst_fmap {A B : Type} (l : list (A * B)) : map fst l = l.*1.
Proof. induction l as [|p l IH]; [reflexivity|]. simpl. now rewrite IH. Qed.

Lemma first_missing_None {A : Type} (keys : list string) (d : gmap string A) :
  (forall k, k ∈ keys -> is_Some (d !! k)) -> first_missing keys d = None.
Proof.
  intros Hall. unfold first_missing.
  induction keys as [|k keys IH]; [reflexivity|]. cbn [find].
  destruct (Hall k) as [v Hv]; [left|]. rewrite Hv.
  rewrite bool_decide_eq_false_2 by discriminate.
  apply IH. intros k' Hk'. apply Hall. now right.
Qed.

Lemma first_missing_Some {A : Type} (keys : list string) (d : gmap string A) :
  (exists k, k ∈ keys /\ d !! k = None) ->
  exists k, first_missing keys d = Some k /\ k ∈ keys /\ d !! k = None.
Proof.
  intros (k0 & Hin & Hnone). unfold first_missing.
  induction keys as [|k keys IH]; [inversion Hin|]. cbn [find].
  destruct (d !! k) as [v|] eqn:Hk.
  - rewrite bool_decide_eq_false_2 by discriminate.
    destruct IH as (k' & Hfind & Hin' & Hnone').
    + apply elem_of_cons in Hin. destruct Hin as [->|Hin]; [congruence|exact Hin].
    + exists k'. split; [exact Hfind|]. split; [now right|exact Hnone'].
  - rewrite bool_decide_eq_true_2 by reflexivity.
    exists k. split; [reflexivity|]. split; [left|exact Hk].
Qed.

(** X18.  A zero-point table makes an empirical-mode imager, whatever is passed
    as [dlam], [lam_eff] or [filter_system]: these are ignored.  This
    holds for every efficiency that [__init__] accepts, a dict or a float
    (the default), and every seed that [check_random_state] accepts.  The
    filter set is the key set of the table, and [mag_to_counts] succeeds
    in every band of it, for any exposure time given as a float. *)
Theorem art_imager_init_empirical {G : Type} `{NumpyRandom G} `{Externals}
    (names : result (list string)) (diameter : FloatOrQuantity)
    (read_noise : R) (gain : option R) (efficiency : EfficiencyArg)
    (eff : gmap string R)
    (transparency : R) (dlam : option (list (string * FloatOrQuantity)))
    (lam_eff : option (gmap string FloatOrQuantity))
    (filter_system : option FilterSystemArg) (z : gmap string R)
    (seed : Seed G) (rng : G) :
  efficiency_table names efficiency = Returns eff ->
  check_random_state seed = Ok rng ->
  exists self,
    art_imager_init names diameter read_noise gain efficiency transparency
      dlam lam_eff filter_system (Some z) seed = Returns (self, rng) /\
    self = ArtImager.init_zpt_inst diameter read_noise gain eff transparency z /\
    (forall bandpass,
        bandpass ∈ ArtImager.filters self <-> is_Some (z !! bandpass)) /\
    (forall bandpass zp mags e,
        z !! bandpass = Some zp ->
        ArtImager.mag_to_counts self mags bandpass (Float e)
        = Ok (map (fun m => Rpower 10 (0.4 * (zp - m)) * e) mags)).
Proof.
  intros Heff Hseed. eexists. split; [|split; [reflexivity|split]].
  - unfold art_imager_init. rewrite Heff, Hseed. reflexivity.
  - intros bandpass. apply init_zpt_inst_filters.
  - intros bandpass zp mags e Hzp.
    rewrite (mag_to_counts_empirical _ z zp mags bandpass (Float e)
               {| qvalue := e * 1 / 1; qunit := u_s |});
      [|reflexivity|exact Hzp|reflexivity].
    f_equal. apply map_ext. intros m. cbn [qvalue]. field.
Qed.

(** The reference imager is what the constructor returns for the default
    efficiency, a float, when the package knows no filter. *)
Lemma art_imager_init_empirical_witness :
  exists self,
    @art_imager_init unit reference_random (Ok []) (Float 10) 0 (Some 1)
      (EffFloat 1) 1
      (Some [("F", Float 1000)]) None None (Some {["F" := 25]}) SeedNone
    = Returns (self, tt) /\
    self = Reference.imager.
Proof.
  destruct (@art_imager_init_empirical unit reference_random
              Reference.externals (Ok [])
              (Float 10) 0 (Some 1) (EffFloat 1) ∅ 1
              (Some [("F", Float 1000)]) None None
              {["F" := 25]} SeedNone tt eq_refl eq_refl)
    as (self & Hrun & Hself & _).
  exists self. split; [exact Hrun|exact Hself].
Defined.

(** X19.  Without zero-point table, [dlam] and [lam_eff] make a radiometric
    imager when [lam_eff] has an entry for every key of [dlam], for every
    efficiency that [__init__] accepts and every seed that
    [check_random_state] accepts: the filter set is the key list of
    [dlam], and in each band the two lengths are held as quantities, a bare
    float being read in angstrom.  When [lam_eff] lacks a key of [dlam] the
    constructor raises [KeyError] for such a key, and when [lam_eff] is not
    given at all the assertion fails. *)
Theorem art_imager_init_radiometric {G : Type} `{NumpyRandom G}
    (names : result (list string)) (diameter : FloatOrQuantity)
    (read_noise : R) (gain : option R) (efficiency : EfficiencyArg)
    (eff : gmap string R)
    (transparency : R) (d : list (string * FloatOrQuantity))
    (filter_system : option FilterSystemArg)
    (seed : Seed G) (rng : G) :
  efficiency_table names efficiency = Returns eff ->
  check_random_state seed = Ok rng ->
  NoDup (map fst d) ->
  (forall l : gmap string FloatOrQuantity,
      (forall k, k ∈ map fst d -> is_Some (l !! k)) ->
      exists self,
        art_imager_init names diameter read_noise gain efficiency
          transparency (Some d) (Some l) filter_system None seed
        = Returns (self, rng) /\
        ArtImager.zpt_inst self = None /\
        ArtImager.filters self = map fst d /\
        ArtImager.efficiency self = eff /\
        forall k v v',
          (k, v) ∈ d -> l !! k = Some v' ->
          getitem_opt (ArtImager.dlam self) k = Ok (check_units v u_angstrom) /\
          getitem_opt (ArtImager.lam_eff self) k
          = Ok (check_units v' u_angstrom)) /\
  (forall l : gmap string FloatOrQuantity,
      (exists k, k ∈ map fst d /\ l !! k = None) ->
      exists k,
        k ∈ map fst d /\ l !! k = None /\
        art_imager_init names diameter read_noise gain efficiency
          transparency (Some d) (Some l) filter_system None seed
        = Raises (KeyError k)) /\
  art_imager_init names diameter read_noise gain efficiency transparency
    (Some d) None filter_system None seed = Raises AssertionError.
Proof.
  intros Heff Hseed Hnodup. split; [|split].
  - intros l Hall. eexists. split.
    { unfold art_imager_init. rewrite Heff, Hseed.
      rewrite (first_missing_None _ _ Hall). reflexivity. }
    split; [reflexivity|]. split; [reflexivity|]. split; [reflexivity|].
    intros k v v' Hin Hl. cbn [ArtImager.dlam ArtImager.lam_eff].
    unfold getitem_opt, getitem. rewrite !lookup_fmap, Hl.
    rewrite map_fst_fmap in Hnodup.
    rewrite (proj1 (elem_of_list_to_map d k v Hnodup) Hin). split; reflexivity.
  - intros l Hmiss. destruct (first_missing_Some _ _ Hmiss)
      as (k & Hfind & Hin & Hnone).
    exists k. split; [exact Hin|]. split; [exact Hnone|].
    unfold art_imager_init. rewrite Heff, Hseed, Hfind. reflexivity.
  - unfold art_imager_init. rewrite Heff, Hseed. reflexivity.
Qed.

(** [ArtImager(dlam={'F': 1000.}, lam_eff={'F': 5000.}, random_state=7)]
    with the default efficiency, when the package knows the filter F: the
    lengths are held in angstrom. *)
Lemma art_imager_init_radiometric_witness :
  exists self,
    @art_imager_init unit reference_random (Ok ["F"]) (Float 10) 0 (Some 1)
      (EffFloat 1) 1
      (Some [("F", Float 1000)]) (Some {["F" := Float 5000]}) None None
      (SeedIntegral 7)
    = Returns (self, tt) /\
    getitem_opt (ArtImager.dlam self) "F"
    = Ok {| qvalue := 1000; qunit := u_angstrom |} /\
    getitem_opt (ArtImager.lam_eff self) "F"
    = Ok {| qvalue := 5000; qunit := u_angstrom |}.
Proof.
  destruct (proj1 (@art_imager_init_radiometric unit reference_random
                     (Ok ["F"]) (Float 10) 0
                     (Some 1) (EffFloat 1) _ 1 [("F", Float 1000)] None
                     (SeedIntegral 7) tt eq_refl eq_refl
                     ltac:(repeat constructor; intros Hin; inversion Hin))
              {["F" := Float 5000]}
              ltac:(intros k Hk; apply list_elem_of_singleton in Hk; subst k;
                    rewrite lookup_singleton_eq; eauto))
    as (self & Hrun & _ & _ & _ & Hget).
  exists self. split; [exact Hrun|].
  apply (Hget "F" (Float 1000) (Float 5000));
    [left|apply lookup_singleton_eq].
Defined.

(** X20.  What the constructor refuses.  An [efficiency] that is neither a
    float nor a dict is refused before anything else, and for a float an
    exception of [get_filter_names] comes first too.  Once the efficiency
    is accepted, a seed that [check_random_state] refuses is reported as
    it reports it, before the calibration mode is looked at; for a seed
    that it accepts and none of [zpt_inst], [dlam] and [filter_system]
    there is nothing to convert magnitudes with.  A [filter_system] with
    at least one filter never yields an imager, whatever the other
    arguments and whatever the filter system answers: the tables
    [self.dlam] and [self.lam_eff] that the loop fills are still [None]. *)
Theorem art_imager_init_refusals {G : Type} `{NumpyRandom G}
    (names : result (list string)) (diameter : FloatOrQuantity)
    (read_noise : R) (gain : option R) (transparency : R)
    (lam_eff : option (gmap string FloatOrQuantity)) (seed : Seed G) :
  (forall dlam filter_system zpt_inst,
      art_imager_init names diameter read_noise gain EffOther transparency
        dlam lam_eff filter_system zpt_inst seed
      = RaisesException "efficiency must be a float or a dictionary") /\
  (forall e err dlam filter_system zpt_inst,
      names = Raise err ->
      art_imager_init names diameter read_noise gain (EffFloat e) transparency
        dlam lam_eff filter_system zpt_inst seed = Raises err) /\
  (forall efficiency eff dlam filter_system zpt_inst e,
      efficiency_table names efficiency = Returns eff ->
      check_random_state seed = Raise e ->
      art_imager_init names diameter read_noise gain efficiency
        transparency dlam lam_eff filter_system zpt_inst seed = Raises e) /\
  (forall efficiency eff rng,
      efficiency_table names efficiency = Returns eff ->
      check_random_state seed = Ok rng ->
      art_imager_init names diameter read_noise gain efficiency
        transparency None lam_eff None None seed
      = RaisesException
          "In order to convert mags to counts, you must give phot_system or (dlam, lam_eff) or filter_system.") /\
  (forall efficiency fs,
      filter_names fs <> [] ->
      forall self g,
        art_imager_init names diameter read_noise gain efficiency
          transparency None lam_eff (Some (AFilterSystem fs)) None seed
        <> Returns (self, g)).
Proof.
  split; [reflexivity|]. split; [|split; [|split]].
  - intros e err dlam filter_system zpt_inst ->. reflexivity.
  - intros efficiency eff dlam filter_system zpt_inst e Heff Hseed.
    unfold art_imager_init. now rewrite Heff, Hseed.
  - intros efficiency eff rng Heff Hseed. unfold art_imager_init.
    now rewrite Heff, Hseed.
  - intros efficiency fs Hne self g. unfold art_imager_init.
    destruct (efficiency_table names efficiency); [|discriminate|discriminate].
    destruct (check_random_state seed); [|discriminate].
    destruct (filter_names fs) as [|filt rest]; [contradiction|].
    destruct (fs_dlam fs filt); discriminate.
Qed.

(** A filter system of one filter, with the default efficiency and the
    generator of the module; and a seed that the constructor of the
    generator refuses. *)
Lemma art_imager_init_refusals_witness :
  (~ exists self g,
       @art_imager_init unit reference_random (Ok []) (Float 10) 0 (Some 1)
         (EffFloat 1) 1 None None
         (Some (AFilterSystem {| filter_names := ["F"];
                                 fs_dlam := fun _ => Ok 1000;
                                 fs_lam_eff := fun _ => Ok 5000 |}))
         None SeedNone
       = Returns (self, g)) /\
  @art_imager_init unit reference_random (Ok []) (Float 10) 0 (Some 1)
    (EffFloat 1) 1 None None None (Some {["F" := 25]}) (SeedIntegral (-1))
  = Raises (ValueError "Seed must be between 0 and 2**32 - 1").
Proof.
  split.
  - intros (self & g & Hrun). revert Hrun.
    apply (proj2 (proj2 (proj2 (proj2
             (@art_imager_init_refusals unit reference_random (Ok [])
                (Float 10) 0 (Some 1) 1 None SeedNone))))).
    discriminate.
  - apply (proj1 (proj2 (proj2
             (@art_imager_init_refusals unit reference_random (Ok [])
                (Float 10) 0 (Some 1) 1 None (SeedIntegral (-1)))))
             (EffFloat 1) ∅ None None (Some {["F" := 25]}) _ eq_refl eq_refl).
Defined.

(** ** Exposure times *)

(** X21.  [calibration] is documented to take a float or a Quantity, but calls
    [exptime.to] on what it is given: for a float it never returns.  In
    empirical mode, for a band of the zero-point table, the call raises
    [AttributeError]. *)
Theorem calibration_needs_a_quantity `{Externals} (self : ArtImager.t)
    (bandpass : string) (e zpt : R) :
  (forall cali,
      ArtImager.calibration self bandpass (Float e) zpt <> Ok cali) /\
  (forall z zp,
      ArtImager.zpt_inst self = Some z -> z !! bandpass = Some zp ->
      ArtImager.calibration self bandpass (Float e) zpt
      = Raise (AttributeError "to")).
Proof.
  split.
  - intros cali. unfold ArtImager.calibration.
    destruct (ArtImager.zpt_inst self) as [z|].
    + destruct (getitem z bandpass); discriminate.
    + destruct (getitem_opt (ArtImager.dlam self) bandpass); [|discriminate].
      destruct (getitem_opt (ArtImager.lam_eff self) bandpass); discriminate.
  - intros z zp Hz Hzp. unfold ArtImager.calibration, getitem.
    now rewrite Hz, Hzp.
Qed.

(** The reference imager cannot calibrate a float exposure time. *)
Lemma calibration_needs_a_quantity_witness :
  @ArtImager.calibration Reference.externals Reference.imager "F" (Float 100) 27
  = Raise (AttributeError "to").
Proof.
  apply (proj2 (@calibration_needs_a_quantity Reference.externals
                  Reference.imager "F" 100 27) {["F" := 25]} 25 eq_refl).
  apply lookup_singleton_eq.
Defined.

(** X22.  The counts depend on the exposure time through its value in seconds
    only: a Quantity in any unit of time gives the counts of the float that
    is its value in seconds.  An exposure "time" that is not a time is
    never converted to counts. *)
Theorem exposure_time_units `{Externals} (self : ArtImager.t)
    (mags : list R) (bandpass : string) (q : Quantity) :
  (forall t,
      to q u_s = Ok t ->
      ArtImager.mag_to_counts self mags bandpass (Qty q)
      = ArtImager.mag_to_counts self mags bandpass (Float (qvalue t))) /\
  (dimension (qunit q) <> Time ->
   forall counts,
     ArtImager.mag_to_counts self mags bandpass (Qty q) <> Ok counts).
Proof.
  split.
  - intros t Ht. unfold ArtImager.mag_to_counts. cbn [check_units].
    assert (Hfloat : to {| qvalue := qvalue t; qunit := u_s |} u_s = Ok t).
    { apply to_Ok in Ht. destruct Ht as [_ ->]. unfold to.
      cbn [qunit qvalue dimension scale].
      destruct (decide (Time = Time)); [|contradiction].
      do 2 f_equal. field. }
    now rewrite Ht, Hfloat.
  - intros Hdim counts. unfold ArtImager.mag_to_counts. cbn [check_units].
    assert (Hto : to q u_s = Raise UnitConversionError).
    { unfold to. cbn [dimension]. now destruct (decide _). }
    rewrite Hto.
    destruct (ArtImager.zpt_inst self) as [z|].
    + destruct (getitem z bandpass); discriminate.
    + destruct (getitem_opt (ArtImager.dlam self) bandpass); [|discriminate].
      destruct (getitem_opt (ArtImager.lam_eff self) bandpass); [|discriminate].
      destruct (ArtImager.area_cm2 self); discriminate.
Qed.

(** Five minutes are three hundred seconds. *)
Lemma exposure_time_units_witness :
  @ArtImager.mag_to_counts Reference.externals Reference.imager [25] "F"
    (Qty {| qvalue := 5; qunit := u_min |})
  = @ArtImager.mag_to_counts Reference.externals Reference.imager [25] "F"
      (Float (5 * 60 / 1)).
Proof.
  apply (proj1 (@exposure_time_units Reference.externals Reference.imager [25]
                  "F" {| qvalue := 5; qunit := u_min |})
           {| qvalue := 5 * 60 / 1; qunit := u_s |} eq_refl).
Defined.

(** ** The amplitude of the smooth model, in counts *)

(** The counts per pixel of a surface brightness, calibrated: in empirical
    mode they give [10^(0.4 (zpt - sb))]; in radiometric mode that flux
    times the square of the pixel scale in arcsec per pixel, and the ratio
    of the units of [dlam] and [lam_eff]. *)
Lemma sb_counts_calibrated `{Externals} (self : ArtImager.t) (sb : R)
    (bandpass : string) (exptime pixel_scale : Quantity) (zpt a cali : R) :
  ArtImager.sb_to_counts_per_pixel self sb bandpass (Qty exptime) pixel_scale
  = Ok a ->
  ArtImager.calibration self bandpass (Qty exptime) zpt = Ok cali ->
  qvalue exptime <> 0 ->
  match ArtImager.zpt_inst self with
  | Some _ => a * cali = Rpower 10 (0.4 * (zpt - sb))
  | None =>
      qvalue (ArtImager.diameter self) <> 0 ->
      ArtImager.gain self <> 0 ->
      ArtImager.transparency self <> 0 ->
      ArtImager.efficiency self !! bandpass <> Some 0 ->
      planck_h <> 0 -> speed_of_light <> 0 ->
      exists dlam lam_eff,
        getitem_opt (ArtImager.dlam self) bandpass = Ok dlam /\
        getitem_opt (ArtImager.lam_eff self) bandpass = Ok lam_eff /\
        (qvalue dlam <> 0 -> qvalue lam_eff <> 0 ->
         a * cali
         = Rpower 10 (0.4 * (zpt - sb))
           * (qvalue pixel_scale * scale (qunit pixel_scale)) ^ 2
           * (scale (qunit dlam) / scale (qunit lam_eff)))
  end.
Proof.
  intros Hsb Hcali Htv.
  assert (Hs := scale_pos (qunit exptime)).
  unfold ArtImager.sb_to_counts_per_pixel in Hsb.
  unfold ArtImager.calibration in Hcali. cbn [check_units] in Hsb.
  destruct (ArtImager.zpt_inst self) as [z|].
  - apply rbind_Ok in Hsb. destruct Hsb as (zp & Hzp & Hsb).
    apply rbind_Ok in Hsb. destruct Hsb as (t & Ht & [= <-]).
    rewrite Hzp, Ht in Hcali. injection Hcali as <-.
    apply to_Ok in Ht. destruct Ht as [_ ->]. cbn [qvalue scale].
    replace (Rpower 10 (0.4 * (zp - sb)) * (qvalue exptime * scale (qunit exptime) / 1)
             * (Rpower 10 (0.4 * (zpt - zp))
                / (qvalue exptime * scale (qunit exptime) / 1)))
      with (Rpower 10 (0.4 * (zp - sb)) * Rpower 10 (0.4 * (zpt - zp)))
      by (field; split; lra).
    rewrite <- Rpower_plus. f_equal. lra.
  - intros Hdiam Hg Htr Heff Hh Hc.
    apply rbind_Ok in Hsb. destruct Hsb as (dlam & Hd & Hsb).
    apply rbind_Ok in Hsb. destruct Hsb as (lam_eff & Hl & Hsb).
    apply rbind_Ok in Hsb. destruct Hsb as (p & Hp & Hsb).
    apply rbind_Ok in Hsb. destruct Hsb as (le & Hle & Hsb).
    apply rbind_Ok in Hsb. destruct Hsb as (dl & Hdl & Hsb).
    apply rbind_Ok in Hsb. destruct Hsb as (t & Ht & Hsb).
    apply rbind_Ok in Hsb. destruct Hsb as (area & Ha & Hsb).
    apply rbind_Ok in Hsb. destruct Hsb as (eff & He & [= <-]).
    rewrite Hd, Hl in Hcali. cbn [rbind] in Hcali.
    rewrite Ht, Ha, He in Hcali. injection Hcali as <-.
    exists dlam, lam_eff. split; [exact Hd|]. split; [exact Hl|].
    intros Hdv Hlv.
    apply length_cm_Ok in Hle. destruct Hle as [_ ->].
    apply length_cm_Ok in Hdl. destruct Hdl as [_ ->].
    apply area_cm2_Ok in Ha. destruct Ha as [_ Ha].
    apply to_Ok in Ht. destruct Ht as [_ ->].
    apply to_Ok in Hp. destruct Hp as [_ ->]. cbn [qvalue scale].
    apply getitem_Ok in He.
    assert (Hsl := scale_pos (qunit lam_eff)).
    assert (Hsdl := scale_pos (qunit dlam)).
    assert (Hsd := scale_pos (qunit (ArtImager.diameter self))).
    assert (Harea : area <> 0).
    { rewrite Ha. assert (Hpi := PI_RGT_0).
      apply Rmult_integral_contrapositive_currified;
        [apply Rmult_integral_contrapositive_currified; [lra|]|];
        apply pow_nonzero; lra. }
    assert (Heff0 : eff <> 0) by (intros ->; now apply Heff).
    rewrite <- (fnu_times_zero_point sb zpt).
    field. repeat split; try assumption; try lra.
Qed.

(** X23.  The artificial imager sets the amplitude of the smooth model in counts
    per pixel.  Whenever [ArtImager.inject_smooth_model] returns for a
    source with a smooth model, the magnitude [mag] of the component was
    read, from [source.sp] when the source has that attribute and as
    [float(source.mags[bandpass])] when it has not; the source's
    [mag_to_image_amplitude] returned a surface brightness [mu_e] and the
    name of an attribute; the attribute of that name now holds
    [sb_to_counts_per_pixel(mu_e)] for the pixel scale of the source; the
    generator is untouched, and the image returned is the image given
    plus the model with the new amplitude.  When the source computes its
    amplitudes with [util.mag_to_image_amplitude], the amplitude left on
    the model is, once calibrated, the image amplitude [amp_image] of the
    ideal imager in radiometric mode (for a pixel scale in arcsec per
    pixel and [dlam], [lam_eff] in one unit); in empirical mode, where the
    pixel scale is not read, it is [amp_image] divided by the square of
    the pixel scale. *)
Theorem smooth_model_amplitude_in_counts `{Externals}
    (self : ArtImager.t) (image image' : ndarray) (s : Source.t)
    (model : SmoothModel) (bandpass : string) (exptime : Quantity) (zpt : R)
    (w w' : ArtImager.World) :
  Source.smooth_model s = Some (Some model) ->
  ArtImager.inject_smooth_model self image s bandpass (Qty exptime) zpt w
  = (Ok image', w') ->
  exists mag mu_e amp_image name a,
    match Source.sp s with
    | Some sp => sp bandpass
    | None => rbind (getitem (Source.mags s) bandpass) float_of_array
    end = Ok mag /\
    Source.mag_to_image_amplitude s mag zpt = Ok (mu_e, amp_image, name) /\
    ArtImager.sb_to_counts_per_pixel self mu_e bandpass (Qty exptime)
      (Source.pixel_scale s) = Ok a /\
    ArtImager.the_source w'
    = SourceObject (Source.set_smooth_model s (setattr model name a)) /\
    ArtImager.the_rng w' = ArtImager.the_rng w /\
    image' = azip Rplus image
               (evaluate_on_grid (setattr model name a)
                  (nrows image) (ncols image)) /\
    forall gammaincinv gamma r_sky n ellip cali,
      Source.mag_to_image_amplitude s mag zpt
      = Ok (mag_to_image_amplitude gammaincinv gamma mag r_sky n ellip zpt
              (Source.pixel_scale s)) ->
      ArtImager.calibration self bandpass (Qty exptime) zpt = Ok cali ->
      qvalue exptime <> 0 ->
      amplitude_of (ArtImager.the_source w') = Some a /\
      match ArtImager.zpt_inst self with
      | Some _ => a * cali * qvalue (Source.pixel_scale s) ^ 2 = amp_image
      | None =>
          qvalue (ArtImager.diameter self) <> 0 ->
          ArtImager.gain self <> 0 ->
          ArtImager.transparency self <> 0 ->
          ArtImager.efficiency self !! bandpass <> Some 0 ->
          planck_h <> 0 -> speed_of_light <> 0 ->
          exists dlam lam_eff,
            getitem_opt (ArtImager.dlam self) bandpass = Ok dlam /\
            getitem_opt (ArtImager.lam_eff self) bandpass = Ok lam_eff /\
            (qvalue dlam <> 0 -> qvalue lam_eff <> 0 ->
             qunit dlam = qunit lam_eff ->
             qunit (Source.pixel_scale s) = u_arcsec_per_pix ->
             a * cali = amp_image)
      end.
Proof.
  intros Hmodel Hrun.
  unfold ArtImager.inject_smooth_model in Hrun. rewrite Hmodel in Hrun.
  rewrite bind_lift in Hrun.
  destruct (match Source.sp s with Some _ => _ | None => _ end) as [mag|e]
    eqn:Hmag; [|discriminate].
  rewrite bind_lift in Hrun.
  destruct (Source.mag_to_image_amplitude s mag zpt)
    as [[[mu_e amp_image] name]|e] eqn:Hamp; [|discriminate].
  rewrite bind_lift in Hrun.
  destruct (ArtImager.sb_to_counts_per_pixel self mu_e bandpass (Qty exptime)
              (Source.pixel_scale s)) as [a|e] eqn:Hsb; [|discriminate].
  apply bind_Ok in Hrun. destruct Hrun as (u & w1 & Hput & Hrun).
  unfold ArtImager.put_source in Hput. injection Hput as _ <-.
  apply ret_Ok in Hrun. destruct Hrun as [Himg ->]. subst image'.
  exists mag, mu_e, amp_image, name, a.
  split; [reflexivity|]. split; [exact Hamp|]. split; [exact Hsb|].
  split; [reflexivity|]. split; [reflexivity|]. split; [reflexivity|].
  intros gammaincinv gamma r_sky n ellip cali Hutil Hcali Htv.
  rewrite Hamp in Hutil. unfold mag_to_image_amplitude in Hutil.
  injection Hutil as Hmu Hai ->.
  split.
  { cbn. apply lookup_insert_eq. }
  pose proof (sb_counts_calibrated self mu_e bandpass exptime
                (Source.pixel_scale s) zpt a cali Hsb Hcali Htv) as Hrel.
  destruct (ArtImager.zpt_inst self) as [z|].
  - rewrite Hrel, Hai, Hmu. reflexivity.
  - intros Hdiam Hg Htr Heff Hh Hc.
    destruct (Hrel Hdiam Hg Htr Heff Hh Hc) as (dlam & lam_eff & Hd & Hl & Heq).
    exists dlam, lam_eff. split; [exact Hd|]. split; [exact Hl|].
    intros Hdv Hlv Hunit Hps. rewrite (Heq Hdv Hlv), Hunit, Hps, Hai, Hmu.
    cbn [scale]. assert (Hsl := scale_pos (qunit lam_eff)). field. lra.
Qed.

Lemma sersic_star_inject :
  exists image' w',
    @ArtImager.inject_smooth_model Reference.externals Reference.imager
      (Reference.constant_array 3 3 0) sersic_star "F"
      (Qty {| qvalue := 100; qunit := u_s |}) 27
      (Reference.world (SourceObject sersic_star))
    = (Ok image', w').
Proof.
  unfold ArtImager.inject_smooth_model, sersic_star.
  cbn [Source.smooth_model Source.sp Source.mag_to_image_amplitude
       Source.pixel_scale].
  rewrite bind_lift. rewrite bind_lift.
  unfold mag_to_image_amplitude at 1. rewrite bind_lift.
  rewrite (@sb_to_counts_per_pixel_empirical Reference.externals
             Reference.imager {["F" := 25]} 25 _ "F"
             (Qty {| qvalue := 100; qunit := u_s |})
             {| qvalue := 100 * 1 / 1; qunit := u_s |} _ eq_refl
             ltac:(apply lookup_singleton_eq) eq_refl).
  eexists _, _. reflexivity.
Qed.

(** The reference imager and the star with a flat profile, on pixels of
    0.2 arcsec: the amplitude is set, and once calibrated and multiplied by
    0.2^2 it is the image amplitude. *)
Lemma smooth_model_amplitude_in_counts_witness :
  exists w' a,
    @ArtImager.the_source Reference.externals w'
    = SourceObject
        (Source.set_smooth_model sersic_star
           (setattr Reference.flat_model "amplitude" a)) /\
    a * (Rpower 10 (0.4 * (27 - 25)) / (100 * 1 / 1)) * 0.2 ^ 2
    = snd (fst (mag_to_image_amplitude (fun _ _ => 1) (fun _ => 1) 20
                  {| avalue := 1; aunit := u_arcsec |} 1 0 27
                  {| qvalue := 0.2; qunit := u_arcsec_per_pix |})).
Proof.
  destruct sersic_star_inject as (image' & w' & Hrun).
  destruct (@smooth_model_amplitude_in_counts Reference.externals
              Reference.imager (Reference.constant_array 3 3 0) image'
              sersic_star Reference.flat_model "F"
              {| qvalue := 100; qunit := u_s |} 27
              (Reference.world (SourceObject sersic_star)) w'
              eq_refl Hrun)
    as (mag & mu_e & amp_image & name & a & Hmag & Hamp & _ & Hsrc & _ & _
        & Hrel).
  injection Hmag as <-. injection Hamp as <- <- <-.
  exists w', a. split; [exact Hsrc|].
  exact (proj2 (Hrel (fun _ _ => 1) (fun _ => 1)
                  {| avalue := 1; aunit := u_arcsec |} 1 0 _
                  eq_refl reference_calibration ltac:(simpl; lra))).
Defined.

(** ** Observing a background frame *)

Lemma clip_negative_Rmax (img : ndarray) (i j : nat) :
  at_ (clip_negative img) i j = Rmax 0 (at_ img i j).
Proof.
  cbn [clip_negative amap at_]. unfold Rmax.
  destruct (Rlt_dec (at_ img i j) 0); destruct (Rle_dec 0 (at_ img i j)); lra.
Qed.

(** X24.  What [observe_background] returns without PSF.  The bandpass belongs
    to the filter set; the source counts are the background frame times the
    exposure time in seconds, pixel by pixel, as they are when a sky
    brightness is given and with the negative values set to zero when it is
    not; the frame keeps its shape.  The observation carries no magnitude
    error and the exposure time as a Quantity, and the argument [xy_dim]
    plays no part. *)
Theorem observe_background_source_counts `{Externals} (self : ArtImager.t)
    (file bandpass : string) (exptime : FloatOrQuantity) (xy_dim : Z * Z)
    (pixel_scale : Quantity) (sky_sb : option R) (zpt : R)
    (kwargs : option string) (g g' : RandomState) (obs : ArtObservation.t) :
  ArtImager.observe_background self file bandpass exptime xy_dim pixel_scale
    sky_sb None zpt kwargs g = (Ok obs, g') ->
  bandpass ∈ ArtImager.filters self /\
  (exists frame t,
      fits_data file = Ok frame /\
      to (check_units exptime u_s) u_s = Ok t /\
      shape (ArtObservation.src_counts obs) = shape frame /\
      forall i j,
        at_ (ArtObservation.src_counts obs) i j
        = match sky_sb with
          | Some _ => at_ frame i j * qvalue t
          | None => Rmax 0 (at_ frame i j * qvalue t)
          end) /\
  ArtObservation.mag_error obs = None /\
  ArtObservation.exptime obs = check_units exptime u_s /\
  forall xy_dim',
    ArtImager.observe_background self file bandpass exptime xy_dim' pixel_scale
      sky_sb None zpt kwargs g = (Ok obs, g').
Proof.
  intros Hrun. split; [|split; [|split; [|split]]].
  - unfold ArtImager.observe_background in Hrun. step_in Hrun.
    now apply check_bandpass_inv in Hstep.
  - apply observe_background_Ok_inv in Hrun.
    destruct Hrun as (bkg & img & src_counts & sky_counts & raw_counts & cali
                      & image_cali & var & Himp & Hsee & Hsky & _ & ->).
    apply import_bkg_Ok in Himp. destruct Himp as (frame & t & Hframe & Ht & ->).
    injection Hsee as <-. exists frame, t.
    split; [exact Hframe|]. split; [exact Ht|].
    cbn [ArtObservation.src_counts]. destruct sky_sb as [sb|].
    + destruct Hsky as [_ ->]. split; reflexivity.
    + destruct Hsky as [-> _]. split; [reflexivity|].
      intros i j. now rewrite clip_negative_Rmax.
  - apply observe_background_Ok_inv in Hrun.
    destruct Hrun as (bkg & img & src_counts & sky_counts & raw_counts & cali
                      & image_cali & var & _ & _ & _ & _ & ->).
    reflexivity.
  - apply observe_background_Ok_inv in Hrun.
    destruct Hrun as (bkg & img & src_counts & sky_counts & raw_counts & cali
                      & image_cali & var & _ & _ & _ & _ & ->).
    reflexivity.
  - intros xy_dim'. exact Hrun.
Qed.

Lemma reference_observe_background :
  exists obs,
    @ArtImager.observe_background Reference.externals Reference.imager
      "bkg.fits" "F" (Float 100) (3, 3)%Z
      {| qvalue := 1; qunit := u_arcsec_per_pix |} None None 27 None tt
    = (Ok obs, tt).
Proof.
  destruct (reference_noise_and_calibration Reference.imager
              (clip_negative
                 (amap (fun v => v * (100 * 1 / 1))
                    (Reference.constant_array 3 3 (-1))))
              0 "F" {| qvalue := 100; qunit := u_s |} 27 _
              ltac:(simpl; lra) eq_refl reference_calibration)
    as (raw_counts & image_cali & var & Hnoise & _).
  eexists. unfold ArtImager.observe_background.
  rewrite bind_lift, (check_bandpass_Ok _ _ reference_imager_filters).
  rewrite bind_lift.
  change (@ArtImager.import_bkg Reference.externals "bkg.fits"
            (check_units (Float 100) u_s))
    with (Ok (amap (fun v => v * (100 * 1 / 1))
                (Reference.constant_array 3 3 (-1)))).
  cbv iota. rewrite bind_lift. cbn [Imager.apply_seeing].
  unfold bind at 1. unfold ret at 1.
  unfold bind. cbn [check_units]. rewrite Hnoise. reflexivity.
Qed.

(** The reference frame of value -1, observed without sky: the source
    counts are zero. *)
Lemma observe_background_source_counts_witness :
  exists obs frame t,
    @fits_data Reference.externals "bkg.fits" = Ok frame /\
    to (check_units (Float 100) u_s) u_s = Ok t /\
    forall i j,
      at_ (ArtObservation.src_counts obs) i j
      = Rmax 0 (at_ frame i j * qvalue t).
Proof.
  destruct reference_observe_background as (obs & Hrun).
  destruct (@observe_background_source_counts Reference.externals
              Reference.imager "bkg.fits" "F" (Float 100) (3, 3)%Z
              {| qvalue := 1; qunit := u_arcsec_per_pix |} None 27 None tt tt
              obs Hrun)
    as (_ & (frame & t & Hframe & Ht & _ & Hat) & _).
  exists obs, frame, t. split; [exact Hframe|]. split; [exact Ht|exact Hat].
Defined.
